(** * ApertureDB Python client: batched parallel query execution

    A shallow embedding of [aperturedb/ParallelQuery.py] and of the executor
    of [aperturedb/CommonLibrary.py], with the properties of the batching
    engine proved over it.

    Layout:
    - [Py]: the fragment of Python's data model the code relies on
      (JSON-shaped values, dict and slice semantics, exceptions);
    - [ParallelQuery]: [map_response_to_handler], [execute_batch],
      [update_refs], [generate_batch], [do_batch], [worker], the accessors
      and the integer part of [print_stats];
    - [CommonLibrary]: [map_response_to_handler] and [execute_query];
    - [Parallelizer]: the range partition of [run], which is not part of
      the sources at hand;
    - the theorems on these, and then, each with its theorems, the rest
      of the two files: the structure [query] reads off the generator
      ([Query]), [debug_sample] ([Sample]), [create_connector]
      ([Connectors]), [import_module_by_path] ([Modules]) and the merge
      of the results of a Dask run ([Dask]). *)

From Stdlib Require Import Ascii String ZArith Lia Bool QArith List.
Import ListNotations.

Set Warnings "-register-all".

Local Open Scope string_scope.
Local Open Scope list_scope.
Local Open Scope Z_scope.

(* ===================================================================== *)
(** ** Python values, exceptions and the operations used by the code      *)
(* ===================================================================== *)

Module Py.

(** Exceptions.  [BaseOnly] stands for the instances of [BaseException]
    that are not instances of [Exception] ([KeyboardInterrupt],
    [SystemExit], [GeneratorExit]): [except BaseException] catches them,
    [except Exception] does not. *)
Inductive exn : Type :=
| KeyError
| TypeError
| IndexError
| AttributeError
| AssertionError
| ZeroDivisionError
| ValueError
| UserException (msg : string)
| BaseOnly (name : string).

Definition is_Exception (e : exn) : bool :=
  match e with
  | BaseOnly _ => false
  | _ => true
  end.

Inductive result (A : Type) : Type :=
| Ok (a : A)
| Raise (e : exn).
Arguments Ok {A} a.
Arguments Raise {A} e.

(** JSON-shaped values: commands, responses and their fields.  A dict is
    an association list in insertion order, as Python dicts iterate. *)
Inductive value : Type :=
| VNone
| VBool (b : bool)
| VInt (z : Z)
| VStr (s : string)
| VList (l : list value)
| VDict (d : list (string * value)).

Definition dict := list (string * value).

(** Blobs are byte strings. *)
Definition blob := string.

Fixpoint dict_get (d : dict) (k : string) : option value :=
  match d with
  | [] => None
  | (k', v) :: d' => if String.eqb k' k then Some v else dict_get d' k
  end.

Definition dict_has (d : dict) (k : string) : bool :=
  match dict_get d k with
  | Some _ => true
  | None => false
  end.

(** [d[k] = v]: an existing key keeps its place, a new key goes last. *)
Fixpoint dict_set (d : dict) (k : string) (v : value) : dict :=
  match d with
  | [] => [(k, v)]
  | (k', v') :: d' =>
      if String.eqb k' k then (k', v) :: d' else (k', v') :: dict_set d' k v
  end.

Definition is_substring (needle hay : string) : bool :=
  match String.index 0 needle hay with
  | Some _ => true
  | None => false
  end.

Definition is_str (k : string) (v : value) : bool :=
  match v with
  | VStr s => String.eqb s k
  | _ => false
  end.

(** [k in v] for a string [k]. *)
Definition py_contains (k : string) (v : value) : result bool :=
  match v with
  | VDict d => Ok (dict_has d k)
  | VList l => Ok (existsb (is_str k) l)
  | VStr s => Ok (is_substring k s)
  | VNone | VBool _ | VInt _ => Raise TypeError
  end.

(** [v[k]] for a string [k]. *)
Definition py_getitem (v : value) (k : string) : result value :=
  match v with
  | VDict d =>
      match dict_get d k with
      | Some x => Ok x
      | None => Raise KeyError
      end
  | _ => Raise TypeError
  end.

(** Truth value of an object. *)
Definition truthy (v : value) : bool :=
  match v with
  | VNone => false
  | VBool b => b
  | VInt z => negb (z =? 0)
  | VStr s => negb (String.eqb s "")
  | VList l => match l with [] => false | _ => true end
  | VDict d => match d with [] => false | _ => true end
  end.

(** Keys of the [updates] dict of [update_refs].  [True == 1] and
    [False == 0] hash alike; lists and dicts are unhashable. *)
Inductive key : Type :=
| KNone
| KInt (z : Z)
| KStr (s : string).

Definition key_eqb (a b : key) : bool :=
  match a, b with
  | KNone, KNone => true
  | KInt x, KInt y => x =? y
  | KStr x, KStr y => String.eqb x y
  | _, _ => false
  end.

Definition hash_key (v : value) : result key :=
  match v with
  | VNone => Ok KNone
  | VBool b => Ok (KInt (if b then 1 else 0))
  | VInt z => Ok (KInt z)
  | VStr s => Ok (KStr s)
  | VList _ | VDict _ => Raise TypeError
  end.

(** [l[a:b]] with Python's treatment of negative and overlong bounds. *)
Definition clamp (len i : Z) : Z :=
  if i <? 0 then Z.max 0 (i + len) else Z.min i len.

Definition py_slice {A : Type} (l : list A) (a b : Z) : list A :=
  let len := Z.of_nat (length l) in
  let a' := clamp len a in
  let b' := clamp len b in
  firstn (Z.to_nat (b' - a')) (skipn (Z.to_nat a') l).

(** [l[i]] for an integer [i]: negative indices count from the end. *)
Definition py_index {A : Type} (l : list A) (i : Z) : option A :=
  let len := Z.of_nat (length l) in
  if i <? 0
  then (if i + len <? 0 then None else nth_error l (Z.to_nat (i + len)))
  else nth_error l (Z.to_nat i).

(** The integer a value stands for in arithmetic ([bool] is a subclass of
    [int]); the other JSON shapes do not add to an [int]. *)
Definition as_int (v : value) : result Z :=
  match v with
  | VInt z => Ok z
  | VBool b => Ok (if b then 1 else 0)
  | _ => Raise TypeError
  end.

Definition bind {A B : Type} (x : result A) (f : A -> result B) : result B :=
  match x with
  | Ok a => f a
  | Raise e => Raise e
  end.

(** [math.ceil(n / c)] for a list length [n] and [c <> 0].  The source
    divides in floating point; for lengths below 2^53 the rounded quotient
    has the same ceiling as the exact one. *)
Definition ceil_div (n c : Z) : Z := - ((- n) / c).

(** Code that mutates an object of type [S] and may raise: the object is
    kept as it is at the raise, since mutation is in place. *)
Definition M (S A : Type) : Type := S -> S * result A.

Definition mret {S A : Type} (a : A) : M S A := fun s => (s, Ok a).

Definition mraise {S A : Type} (e : exn) : M S A := fun s => (s, Raise e).

Definition mbind {S A B : Type} (c : M S A) (f : A -> M S B) : M S B :=
  fun s =>
    match c s with
    | (s', Ok a) => f a s'
    | (s', Raise e) => (s', Raise e)
    end.

Definition lift {S A : Type} (x : result A) : M S A := fun s => (s, x).

(** [k in obj], [obj[k]] and [obj[k] = x] on the object in the state. *)
Definition contains (k : string) : M value bool :=
  fun obj => (obj, py_contains k obj).

Definition getitem (k : string) : M value value :=
  fun obj => (obj, py_getitem obj k).

Definition setitem (k : string) (x : value) : M value unit :=
  fun obj =>
    match obj with
    | VDict d => (VDict (dict_set d k x), Ok tt)
    | _ => (obj, Raise TypeError)
    end.

(** Run [c] on the object [obj[k]]; what [c] does to it is seen through
    [obj], also when [c] raises. *)
Definition within {A : Type} (k : string) (c : M value A) : M value A :=
  fun obj =>
    match obj with
    | VDict d =>
        match dict_get d k with
        | Some sub =>
            let '(sub', r) := c sub in (VDict (dict_set d k sub'), r)
        | None => (obj, Raise KeyError)
        end
    | _ => (obj, Raise TypeError)
    end.

End Py.

Declare Scope py_scope.
Delimit Scope py_scope with py.
Notation "x <- c ;; k" := (Py.bind c (fun x => k))
  (at level 61, c at next level, right associativity) : py_scope.

Declare Scope st_scope.
Delimit Scope st_scope with st.
Notation "x <- c ;; k" := (Py.mbind c (fun x => k))
  (at level 61, c at next level, right associativity) : st_scope.
Notation "c ;; k" := (Py.mbind c (fun _ => k))
  (at level 61, right associativity) : st_scope.

(* ===================================================================== *)
(** ** aperturedb/ParallelQuery.py                                        *)
(* ===================================================================== *)

Module ParallelQuery.
Import Py.
Local Open Scope py_scope.

(** One invocation of the response handler: the five arguments of
    [handler(...)] in [map_response_to_handler]. *)
Record handler_call : Type := mk_call {
  hc_query : list value;
  hc_query_blobs : list blob;
  hc_response : value;
  hc_response_blobs : option (list blob);
  hc_index : option Z
}.

(** A caller-supplied handler, seen from the engine: given the calls made
    so far (oldest first) and the current one, it returns or raises. *)
Definition handler := list handler_call -> handler_call -> option exn.

Definition blob_returning_commands : list string :=
  ["FindImage"; "FindBlob"; "FindVideo"; "FindDescriptor"; "FindBoundingBox"].

Definition is_blob_returning (k : string) : bool :=
  existsb (String.eqb k) blob_returning_commands.

(** Body of [for k in req] for one key [k] of a dict request:
    [if k in blob_returning_commands and "blobs" in req[k] and
    req[k]["blobs"]: b_count += resp[k]["returned"]]. *)
Definition count_key (req resp : value) (k : string) (b_count : Z) : result Z :=
  if is_blob_returning k then
    body <- py_getitem req k ;;
    has <- py_contains "blobs" body ;;
    if has then
      flag <- py_getitem body "blobs" ;;
      if truthy flag then
        entry <- py_getitem resp k ;;
        count <- py_getitem entry "returned" ;;
        n <- as_int count ;;
        Ok (b_count + n)
      else Ok b_count
    else Ok b_count
  else Ok b_count.

Fixpoint count_keys (req resp : value) (ks : list string) (b_count : Z)
  : result Z :=
  match ks with
  | [] => Ok b_count
  | k :: ks' =>
      n <- count_key req resp k b_count ;;
      count_keys req resp ks' n
  end.

(** [for k in req] when [req] is a list: a member naming a blob-returning
    command makes [req[k]] index a list with a string. *)
Fixpoint count_members (l : list value) (b_count : Z) : result Z :=
  match l with
  | [] => Ok b_count
  | VStr s :: l' =>
      if is_blob_returning s then Raise TypeError else count_members l' b_count
  | _ :: l' => count_members l' b_count
  end.

(** [for k in req: ...] for one request and its response. *)
Definition count_request (req resp : value) (b_count : Z) : result Z :=
  match req with
  | VDict d => count_keys req resp (map fst d) b_count
  | VList l => count_members l b_count
  | VStr _ => Ok b_count
  | VNone | VBool _ | VInt _ => Raise TypeError
  end.

(** [for req, resp in zip(query[start:end], response[start:end])]. *)
Fixpoint count_group (reqs resps : list value) (b_count : Z) : result Z :=
  match reqs, resps with
  | req :: reqs', resp :: resps' =>
      n <- count_request req resp b_count ;;
      count_group reqs' resps' n
  | _, _ => Ok b_count
  end.

Section Demux.

Variable h : handler.
Variables (query : list value) (query_blobs : list blob).
Variables (response : value) (response_blobs : list blob).
Variables (commands_per_query blobs_per_query : Z).
Variable cmd_index_offset : option Z.

(** [b_count] of group [i]. *)
Definition group_b_count (i : Z) : result Z :=
  let start := i * commands_per_query in
  let end_ := start + commands_per_query in
  match response with
  | VList resps =>
      count_group (py_slice query start end_) (py_slice resps start end_) 0
  | _ => Ok 0
  end.

(** The arguments of the handler for group [i], given the cursor
    [blobs_returned] and the group's [b_count]. *)
Definition group_call (i blobs_returned b_count : Z) : handler_call :=
  let start := i * commands_per_query in
  let end_ := start + commands_per_query in
  let blobs_start := i * blobs_per_query in
  let blobs_end := blobs_start + blobs_per_query in
  {| hc_query := py_slice query start end_;
     hc_query_blobs := py_slice query_blobs blobs_start blobs_end;
     hc_response :=
       match response with
       | VList resps => VList (py_slice resps start end_)
       | _ => response
       end;
     hc_response_blobs :=
       if Z.of_nat (length response_blobs) >=? blobs_returned + b_count
       then Some (py_slice response_blobs blobs_returned
                    (blobs_returned + b_count))
       else None;
     hc_index :=
       match cmd_index_offset with
       | None => None
       | Some off => Some (off + i)
       end |}.

(** The [for i in range(...)] loop; [trace] holds the calls already made. *)
Fixpoint demux_loop (idxs : list Z) (blobs_returned : Z)
    (trace : list handler_call) : list handler_call * result unit :=
  match idxs with
  | [] => (trace, Ok tt)
  | i :: rest =>
      match group_b_count i with
      | Raise e => (trace, Raise e)
      | Ok b_count =>
          let call := group_call i blobs_returned b_count in
          match h trace call with
          | Some e => (trace ++ [call], Raise e)
          | None =>
              demux_loop rest (blobs_returned + b_count) (trace ++ [call])
          end
      end
  end.

(** [range(n)] as a list of integers. *)
Definition py_range (n : Z) : list Z :=
  map Z.of_nat (seq 0 (Z.to_nat n)).

Definition map_response_to_handler : list handler_call * result unit :=
  if commands_per_query =? 0 then ([], Raise ZeroDivisionError)
  else
    demux_loop
      (py_range (ceil_div (Z.of_nat (length query)) commands_per_query))
      0 [].

End Demux.

(** *** execute_batch *)

(** What the connector hands back for one query: the pair returned by
    [db.query], then [db.last_query_ok()] and [db.get_last_query_time()]. *)
Record reply : Type := mk_reply {
  rp_response : value;
  rp_blobs : list blob;
  rp_ok : bool;
  rp_time : Q
}.

(** The [statuses] dict: status code to the responses carrying it. *)
Definition statuses_t := list (key * list value).

(** [statuses.setdefault(k, []).append(x)]. *)
Fixpoint setdefault_append (st : statuses_t) (k : key) (x : value)
  : statuses_t :=
  match st with
  | [] => [(k, [x])]
  | (k', xs) :: st' =>
      if key_eqb k' k then (k', xs ++ [x]) :: st'
      else (k', xs) :: setdefault_append st' k x
  end.

(** [for cmd in result], [result] a dict. *)
Fixpoint collect_keys (res : value) (cmds : list string) (st : statuses_t)
  : result statuses_t :=
  match cmds with
  | [] => Ok st
  | cmd :: cmds' =>
      entry <- py_getitem res cmd ;;
      s <- py_getitem entry "status" ;;
      k <- hash_key s ;;
      collect_keys res cmds' (setdefault_append st k res)
  end.

(** [for cmd in result], [result] the list [l]: [result[cmd]] indexes it. *)
Fixpoint collect_members (res : value) (l cmds : list value) (st : statuses_t)
  : result statuses_t :=
  match cmds with
  | [] => Ok st
  | cmd :: cmds' =>
      i <- as_int cmd ;;
      match py_index l i with
      | None => Raise IndexError
      | Some entry =>
          s <- py_getitem entry "status" ;;
          k <- hash_key s ;;
          collect_members res l cmds' (setdefault_append st k res)
      end
  end.

Definition collect_result (res : value) (st : statuses_t) : result statuses_t :=
  match res with
  | VDict d => collect_keys res (map fst d) st
  | VList l => collect_members res l l st
  | VStr s => if String.eqb s "" then Ok st else Raise TypeError
  | VNone | VBool _ | VInt _ => Raise TypeError
  end.

(** [for result in r for cmd in result]. *)
Fixpoint collect_statuses (rs : list value) (st : statuses_t)
  : result statuses_t :=
  match rs with
  | [] => Ok st
  | res :: rs' =>
      st' <- collect_result res st ;;
      collect_statuses rs' st'
  end.

(** [status in success_statuses], the latter a list of ints. *)
Definition is_success (success_statuses : list Z) (k : key) : bool :=
  match k with
  | KInt z => existsb (Z.eqb z) success_statuses
  | _ => false
  end.

Fixpoint warn_list (success_statuses : list Z) (st : statuses_t)
  : list value :=
  match st with
  | [] => []
  | (status, results) :: st' =>
      if is_success success_statuses status
      then warn_list success_statuses st'
      else results ++ warn_list success_statuses st'
  end.

(** The code after the handler has run: classification of the response. *)
Definition classify (success_statuses : list Z) (r : value) (result0 : Z)
  : result Z :=
  c <- match r with
       | VDict _ =>
           s <- py_getitem r "status" ;;
           k <- hash_key s ;;
           Ok ([(k, [r])], result0)
       | VList rs =>
           st <- collect_statuses rs [] ;;
           Ok (st, result0)
       | _ => Ok ([], 1)
       end ;;
  let '(statuses, result1) := c in
  if negb (result1 =? 1) then
    match warn_list success_statuses statuses with
    | [] => Ok result1
    | _ :: _ => Ok 2
    end
  else Ok result1.

Definition execute_batch (q : list value) (blobs : list blob)
    (db : list value -> list blob -> reply)
    (success_statuses : list Z)
    (response_handler : option handler)
    (commands_per_query blobs_per_query : Z)
    (strict_response_validation : bool) (cmd_index : option Z)
  : list handler_call * result (Z * value * list blob) :=
  let rp := db q blobs in
  let r := rp_response rp in
  let b := rp_blobs rp in
  let '(trace, first) :=
    if rp_ok rp then
      match response_handler with
      | Some h =>
          let '(tr, out) :=
            map_response_to_handler h q blobs r b
              commands_per_query blobs_per_query cmd_index in
          match out with
          | Raise e =>
              if strict_response_validation then (tr, Raise e) else (tr, Ok 0)
          | Ok _ => (tr, Ok 0)
          end
      | None => ([], Ok 0)
      end
    else ([], Ok 1) in
  (trace,
   result0 <- first ;;
   code <- classify success_statuses r result0 ;;
   Ok (code, r, b)).

(** *** generate_batch *)

(** The [updates] dict of [update_refs]: ref value to absolute position. *)
Definition updates_t := list (key * Z).

Fixpoint updates_get (u : updates_t) (k : key) : option Z :=
  match u with
  | [] => None
  | (k', p) :: u' => if key_eqb k' k then Some p else updates_get u' k
  end.

Fixpoint updates_set (u : updates_t) (k : key) (p : Z) : updates_t :=
  match u with
  | [] => [(k, p)]
  | (k', p') :: u' =>
      if key_eqb k' k then (k', p) :: u' else (k', p') :: updates_set u' k p
  end.

Section UpdateRefs.
Local Open Scope st_scope.

(** [updates[v]]. *)
Definition lookup (u : updates_t) (v : value) : result Z :=
  match hash_key v with
  | Raise e => Raise e
  | Ok k =>
      match updates_get u k with
      | Some p => Ok p
      | None => Raise KeyError
      end
  end.

(** [obj[f] = updates[obj[f]]]. *)
Definition remap (u : updates_t) (f : string) : M value unit :=
  old <- getitem f ;;
  p <- lift (lookup u old) ;;
  setitem f (VInt p).

(** [if f in obj: obj[f] = updates[obj[f]]]. *)
Definition remap_if_present (u : updates_t) (f : string) : M value unit :=
  has <- contains f ;;
  if has then remap u f else mret tt.

(** [for idx in range(len(l)): if "ref" in l[idx]: l[idx]["ref"] = ...]
    over the members of a list. *)
Fixpoint remap_members (u : updates_t) (l : list value)
  : list value * result unit :=
  match l with
  | [] => ([], Ok tt)
  | x :: l' =>
      match remap_if_present u "ref" x with
      | (x', Raise e) => (x' :: l', Raise e)
      | (x', Ok _) =>
          let '(l'', r) := remap_members u l' in (x' :: l'', r)
      end
  end.

(** The same loop on whatever [is_connected_to[op]] holds: the members of
    a string are one-character strings, which never contain ["ref"]; a
    non-empty dict has no key [0]; [len] rejects the other shapes. *)
Definition remap_items (u : updates_t) : M value unit :=
  fun obj =>
    match obj with
    | VList l => let '(l', r) := remap_members u l in (VList l', r)
    | VStr _ => (obj, Ok tt)
    | VDict [] => (obj, Ok tt)
    | VDict (_ :: _) => (obj, Raise KeyError)
    | VNone | VBool _ | VInt _ => (obj, Raise TypeError)
    end.

(** [if op in ict: for idx in range(len(ict[op])): ...]. *)
Definition remap_op (u : updates_t) (op : string) : M value unit :=
  has <- contains op ;;
  if has then within op (remap_items u) else mret tt.

(** [if "ref" in obj[f]: obj[f]["ref"] = updates[obj[f]["ref"]]]. *)
Definition remap_nested_ref (u : updates_t) (f : string) : M value unit :=
  has <- within f (contains "ref") ;;
  if has then within f (remap u "ref") else mret tt.

(** The pointer fields of [values], in the order of the source. *)
Definition update_pointers (u : updates_t) : M value unit :=
  remap_if_present u "image_ref" ;;
  remap_if_present u "video_ref" ;;
  has_ict <- contains "is_connected_to" ;;
  (if has_ict then
     remap_nested_ref u "is_connected_to" ;;
     within "is_connected_to" (remap_op u "any" ;; remap_op u "all")
   else mret tt) ;;
  has_connect <- contains "connect" ;;
  (if has_connect then remap_nested_ref u "connect" else mret tt) ;;
  remap_if_present u "src" ;;
  remap_if_present u "dst" ;;
  remap_if_present u "ref".

(** [if "_ref" in values: updates[values["_ref"]] = i + 1;
    values["_ref"] = i + 1; assert values["_ref"] < 100000]; the state is
    [values] and [updates]. *)
Definition define_ref (i : nat) : M (value * updates_t) unit :=
  fun '(values, u) =>
    let pos := Z.of_nat i + 1 in
    match py_contains "_ref" values with
    | Raise e => ((values, u), Raise e)
    | Ok false => ((values, u), Ok tt)
    | Ok true =>
        match bind (py_getitem values "_ref") hash_key with
        | Raise e => ((values, u), Raise e)
        | Ok k =>
            let u' := updates_set u k pos in
            match setitem "_ref" (VInt pos) values with
            | (values', Raise e) => ((values', u'), Raise e)
            | (values', Ok _) =>
                match py_getitem values' "_ref" with
                | Ok (VInt n) =>
                    if n <? 100000 then ((values', u'), Ok tt)
                    else ((values', u'), Raise AssertionError)
                | Ok _ => ((values', u'), Raise TypeError)
                | Raise e => ((values', u'), Raise e)
                end
            end
        end
    end.

(** The body of the loop of [update_refs] below the [isinstance] test. *)
Definition update_values (i : nat) : M (value * updates_t) unit :=
  define_ref i ;;
  (fun '(values, u) =>
     let '(values', r) := update_pointers u values in ((values', u), r)).

End UpdateRefs.

(** The commands of a batch are objects that [update_refs] mutates in
    place and that the generator may hand out more than once: a command
    is an address into a heap of command objects.  The objects below a
    command (its body, the dicts and lists in it) belong to it alone. *)
Definition addr := nat.
Definition heap := list value.

(** A dangling address does not occur in Python; it reads as [None]. *)
Definition deref (hp : heap) (a : addr) : value := nth a hp VNone.

Fixpoint store (hp : heap) (a : addr) (v : value) : heap :=
  match hp, a with
  | [], _ => []
  | _ :: hp', O => v :: hp'
  | x :: hp', S a' => x :: store hp' a' v
  end.

(** A record of the generator: its commands and its blobs. *)
Definition record : Type := list addr * list blob.

(** [for i, cmd in enumerate(batched_commands)], from index [i] on. *)
Fixpoint update_refs_loop (i : nat) (cmds : list addr)
  : M (heap * updates_t) unit :=
  match cmds with
  | [] => mret tt
  | a :: rest =>
      fun '(hp, u) =>
        match deref hp a with
        | VList _ => ((hp, u), Ok tt)
        | VDict [] => ((hp, u), Raise IndexError)
        | VDict ((op, values) :: others) =>
            match update_values i (values, u) with
            | ((values', u'), Raise e) =>
                ((store hp a (VDict ((op, values') :: others)), u'), Raise e)
            | ((values', u'), Ok _) =>
                update_refs_loop (S i) rest
                  (store hp a (VDict ((op, values') :: others)), u')
            end
        | VNone | VBool _ | VInt _ | VStr _ => ((hp, u), Raise AttributeError)
        end
  end.

Definition update_refs (batched_commands : list addr) (hp : heap)
  : heap * result (list addr) :=
  match update_refs_loop 0 batched_commands (hp, ([] : updates_t)) with
  | ((hp', _), Ok _) => (hp', Ok batched_commands)
  | ((hp', _), Raise e) => (hp', Raise e)
  end.

Definition generate_batch (data : list record) (hp : heap)
  : heap * result (list addr * list blob) :=
  match update_refs (flat_map fst data) hp with
  | (hp', Ok q) => (hp', Ok (q, flat_map snd data))
  | (hp', Raise e) => (hp', Raise e)
  end.

(** *** do_batch, worker and the statistics *)

(** A [worker_stats] dict. *)
Definition stats := list (string * Z).

Fixpoint stats_get (s : stats) (k : string) : option Z :=
  match s with
  | [] => None
  | (k', n) :: s' => if String.eqb k' k then Some n else stats_get s' k
  end.

(** What a batch did, for the statements below; the code writes part of it
    to its logger. *)
Inductive batch_event : Type :=
| Executed (batch_start : Z) (records : nat) (code : Z)
| DryRun (batch_start : Z) (records : nat)
| Failed (batch_start batch_end : Z) (e : exn).

(** The attributes of the [ParallelQuery] object that change during a run,
    with the heap of command objects and the events so far. *)
Record pq_state : Type := mk_state {
  st_heap : heap;
  st_times_arr : list Q;
  st_actual_stats : list stats;
  st_error_counter : Z;
  st_events : list batch_event
}.

(** The attributes that a run only reads; [success_statuses] is the class
    attribute. *)
Record pq_config : Type := mk_config {
  dry_run : bool;
  commands_per_query : Z;
  blobs_per_query : Z;
  batchsize : Z;
  success_statuses : list Z
}.

(** The generator: its records and the two optional attributes [do_batch]
    looks for.  A callable [response_handler] comes with the number of
    parameters in its signature. *)
Record generator : Type := mk_generator {
  gen_records : list record;
  gen_response_handler : option (nat * handler);
  gen_strict_response_validation : option value
}.

(** [v == n] for an int [n]. *)
Definition eq_int (v : value) (n : Z) : bool :=
  match v with
  | VInt z => z =? n
  | VBool b => (if b then 1 else 0) =? n
  | _ => false
  end.

(** [[v['status'] == n for k, v in items]], summed. *)
Fixpoint count_status (n : Z) (items : dict) : result Z :=
  match items with
  | [] => Ok 0
  | (_, v) :: items' =>
      (s <- py_getitem v "status" ;;
       rest <- count_status n items' ;;
       Ok ((if eq_int s n then 1 else 0) + rest))%py
  end.

(** [for i in r for k, v in i.items()], [r] a list. *)
Fixpoint count_status_strict (n : Z) (rs : list value) : result Z :=
  match rs with
  | [] => Ok 0
  | VDict d :: rs' =>
      (here <- count_status n d ;;
       rest <- count_status_strict n rs' ;;
       Ok (here + rest))%py
  | _ :: _ => Raise AttributeError
  end.

(** [sum([v['status'] == n for i in r for k, v in i.items()])]: iterating a
    dict or a string yields strings, which have no [items]. *)
Definition sum_status (n : Z) (r : value) : result Z :=
  match r with
  | VList rs => count_status_strict n rs
  | VDict [] => Ok 0
  | VDict (_ :: _) => Raise AttributeError
  | VStr s => if String.eqb s "" then Ok 0 else Raise AttributeError
  | VNone | VBool _ | VInt _ => Raise TypeError
  end.

(** [filter_per_group]: the items of a dict, nothing for anything else. *)
Definition filter_per_group (group : value) : dict :=
  match group with
  | VDict d => d
  | _ => []
  end.

(** [for i in r for k, v in filter_per_group(i)], [r] a list. *)
Fixpoint count_status_groups (n : Z) (rs : list value) : result Z :=
  match rs with
  | [] => Ok 0
  | g :: rs' =>
      (here <- count_status n (filter_per_group g) ;;
       rest <- count_status_groups n rs' ;;
       Ok (here + rest))%py
  end.

Definition sum_status_filtered (n : Z) (r : value) : result Z :=
  match r with
  | VList rs => count_status_groups n rs
  | VDict _ | VStr _ => Ok 0
  | VNone | VBool _ | VInt _ => Raise TypeError
  end.

(** [len(r)]. *)
Definition py_len (r : value) : result Z :=
  match r with
  | VList l => Ok (Z.of_nat (length l))
  | VDict d => Ok (Z.of_nat (length d))
  | VStr s => Ok (Z.of_nat (String.length s))
  | VNone | VBool _ | VInt _ => Raise TypeError
  end.

(** [range(0, n, step)] for [step > 0], as [count] values from [from]. *)
Fixpoint range_from (from step : Z) (count : nat) : list Z :=
  match count with
  | O => []
  | S c => from :: range_from (from + step) step c
  end.

Definition py_range_step (n step : Z) : result (list Z) :=
  if step =? 0 then Raise ValueError
  else if step <? 0 then Ok []
  else Ok (range_from 0 step (Z.to_nat (ceil_div n step))).

(** The loop computing [sq] when [result == 2]: [all([...])] holds when
    every item of the slice has status 0. *)
Fixpoint count_succeeded_queries (cpq : Z) (r : value) (idxs : list Z)
    (sq : Z) : result Z :=
  match idxs with
  | [] => Ok sq
  | i :: rest =>
      match r with
      | VList rs =>
          (zeros <- count_status_groups 0 (py_slice rs i (i + cpq)) ;;
           let items :=
             Z.of_nat (length (flat_map filter_per_group
                                 (py_slice rs i (i + cpq)))) in
           count_succeeded_queries cpq r rest
             (if zeros =? items then sq + 1 else sq))%py
      | _ => count_succeeded_queries cpq r rest sq
      end
  end.

(** The handler [do_batch] passes on: absent, rejected for its signature,
    or wrapped so that a four-parameter handler does not see the index. *)
Definition drop_index (c : handler_call) : handler_call :=
  {| hc_query := hc_query c;
     hc_query_blobs := hc_query_blobs c;
     hc_response := hc_response c;
     hc_response_blobs := hc_response_blobs c;
     hc_index := None |}.

Definition response_handler_of (gen : generator) : result (option handler) :=
  match gen_response_handler gen with
  | None => Ok None
  | Some (parameter_count, f) =>
      if ((parameter_count <? 4) || (5 <? parameter_count))%nat
      then Raise (UserException "Bad Signature for response_handler")
      else if (parameter_count =? 4)%nat
      then Ok (Some (fun past call => f (map drop_index past) (drop_index call)))
      else Ok (Some f)
  end.

Definition strict_of (gen : generator) : bool :=
  match gen_strict_response_validation gen with
  | Some (VBool b) => b
  | _ => false
  end.

(** [self.times_arr.append(query_time); self.actual_stats.append(worker_stats)]. *)
Definition record_batch (st : pq_state) (query_time : Q) (ws : stats)
    (ev : batch_event) : pq_state :=
  {| st_heap := st_heap st;
     st_times_arr := st_times_arr st ++ [query_time];
     st_actual_stats := st_actual_stats st ++ [ws];
     st_error_counter := st_error_counter st;
     st_events := st_events st ++ [ev] |}.

Definition with_heap (st : pq_state) (hp : heap) : pq_state :=
  {| st_heap := hp;
     st_times_arr := st_times_arr st;
     st_actual_stats := st_actual_stats st;
     st_error_counter := st_error_counter st;
     st_events := st_events st |}.

(** [self.error_counter += 1]. *)
Definition count_error (st : pq_state) : pq_state :=
  {| st_heap := st_heap st;
     st_times_arr := st_times_arr st;
     st_actual_stats := st_actual_stats st;
     st_error_counter := st_error_counter st + 1;
     st_events := st_events st |}.

(** The [worker_stats] of a batch whose result code is [code]. *)
Definition worker_stats_of (cfg : pq_config) (code : Z) (q : list addr)
    (data : list record) (r : value) : result stats :=
  (if code =? 0 then
     existed <- sum_status 2 r ;;
     Ok [("succeeded_commands", Z.of_nat (length q));
         ("succeeded_queries", Z.of_nat (length data));
         ("objects_existed", existed)]
   else if code =? 1 then
     Ok [("succeeded_queries", 0);
         ("succeeded_commands", 0);
         ("objects_existed", 0)]
   else if code =? 2 then
     succeeded <- sum_status_filtered 0 r ;;
     existed <- sum_status_filtered 2 r ;;
     n <- py_len r ;;
     idxs <- py_range_step n (commands_per_query cfg) ;;
     sq <- count_succeeded_queries (commands_per_query cfg) r idxs 0 ;;
     Ok [("succeeded_commands", succeeded);
         ("objects_existed", existed);
         ("succeeded_queries", sq)]
   else Ok [])%py.

Definition do_batch (cfg : pq_config) (gen : generator)
    (db : list value -> list blob -> reply)
    (batch_start : Z) (data : list record) : M pq_state unit :=
  fun st =>
    match generate_batch data (st_heap st) with
    | (hp, Raise e) => (with_heap st hp, Raise e)
    | (hp, Ok (q, blobs)) =>
        let st1 := with_heap st hp in
        if dry_run cfg
        then (record_batch st1 1%Q []
                (DryRun batch_start (length data)), Ok tt)
        else
          match response_handler_of gen with
          | Raise e => (st1, Raise e)
          | Ok response_handler =>
              match
                snd (execute_batch (map (deref hp) q) blobs db
                       (success_statuses cfg) response_handler
                       (commands_per_query cfg) (blobs_per_query cfg)
                       (strict_of gen) (Some batch_start))
              with
              | Raise e => (st1, Raise e)
              | Ok (code, r, _) =>
                  let query_time :=
                    if code =? 0 then rp_time (db (map (deref hp) q) blobs)
                    else 0%Q in
                  let st2 := if code =? 1 then count_error st1 else st1 in
                  match worker_stats_of cfg code q data r with
                  | Raise e => (st2, Raise e)
                  | Ok ws =>
                      (record_batch st2 query_time ws
                         (Executed batch_start (length data) code), Ok tt)
                  end
              end
          end
    end.

(** One turn of the loop of [worker]: the [try] around [do_batch]. *)
Definition worker_batch (cfg : pq_config) (gen : generator)
    (db : nat -> list value -> list blob -> reply)
    (start end_ : Z) (i : nat) : M pq_state unit :=
  fun st =>
    let batch_start := start + Z.of_nat i * batchsize cfg in
    let batch_end := Z.min (batch_start + batchsize cfg) end_ in
    match
      do_batch cfg gen (db i) batch_start
        (py_slice (gen_records gen) batch_start batch_end) st
    with
    | (st', Ok _) => (st', Ok tt)
    | (st', Raise e) =>
        if is_Exception e then
          ({| st_heap := st_heap st';
              st_times_arr := st_times_arr st';
              st_actual_stats := st_actual_stats st';
              st_error_counter := st_error_counter st' + 1;
              st_events := st_events st' ++ [Failed batch_start batch_end e] |},
           Ok tt)
        else (st', Raise e)
    end.

Fixpoint worker_loop (cfg : pq_config) (gen : generator)
    (db : nat -> list value -> list blob -> reply)
    (start end_ : Z) (idxs : list nat) : M pq_state unit :=
  match idxs with
  | [] => mret tt
  | i :: rest =>
      mbind (worker_batch cfg gen db start end_ i)
        (fun _ => worker_loop cfg gen db start end_ rest)
  end.

(** [total_batches] of [worker]. *)
Definition total_batches (bs start end_ : Z) : Z :=
  let n := (end_ - start) / bs in
  if (end_ - start) mod bs >? 0 then n + 1 else n.

(** [worker]: [db] answers the query of the worker's [i]-th batch on the
    connection the worker opened. *)
Definition worker (cfg : pq_config) (gen : generator)
    (db : nat -> list value -> list blob -> reply)
    (start end_ : Z) : M pq_state unit :=
  if batchsize cfg =? 0 then mraise ZeroDivisionError
  else
    worker_loop cfg gen db start end_
      (seq 0 (Z.to_nat (total_batches (batchsize cfg) start end_))).

(** [sum([stat[k] for stat in self.actual_stats])]. *)
Fixpoint sum_stats (k : string) (l : list stats) : result Z :=
  match l with
  | [] => Ok 0
  | s :: l' =>
      match stats_get s k with
      | None => Raise KeyError
      | Some n => (rest <- sum_stats k l' ;; Ok (n + rest))%py
      end
  end.

Definition get_objects_existed (st : pq_state) : result Z :=
  sum_stats "objects_existed" (st_actual_stats st).

Definition get_succeeded_queries (st : pq_state) : result Z :=
  sum_stats "succeeded_queries" (st_actual_stats st).

Definition get_succeeded_commands (st : pq_state) : result Z :=
  sum_stats "succeeded_commands" (st_actual_stats st).

(** [print_stats], its counts: [total_queries_exec] and, when it is printed,
    [err_perc = 100 * error_counter / total_queries_exec] as the exact
    quotient (the code prints the nearest double).  Times, mean, deviation
    and throughput are floating-point values and are left out. *)
Definition total_queries_exec (st : pq_state) : Z :=
  Z.of_nat (length (st_times_arr st)).

Definition err_perc (st : pq_state) : option Q :=
  if total_queries_exec st =? 0 then None
  else if st_error_counter st >? 0
  then Some (Qmake (100 * st_error_counter st)
               (Z.to_pos (total_queries_exec st)))
  else None.

End ParallelQuery.

(* ===================================================================== *)
(** ** aperturedb/CommonLibrary.py                                        *)
(* ===================================================================== *)

Module CommonLibrary.
Import Py.
Local Open Scope py_scope.

Definition handler_call := ParallelQuery.handler_call.
Definition handler := ParallelQuery.handler.
Definition reply := ParallelQuery.reply.

Definition blob_returning_commands : list string :=
  ["FindImage"; "FindBlob"; "FindVideo"; "FindDescriptor"; "FindBoundingBox"].

(** [for req, resp in zip(...): for k in req: if ...: b_count += count]. *)
Definition add_count (req resp : value) (k : string) (b_count : Z) : result Z :=
  if existsb (String.eqb k) blob_returning_commands then
    body <- py_getitem req k ;;
    has <- py_contains "blobs" body ;;
    if has then
      flag <- py_getitem body "blobs" ;;
      if truthy flag then
        entry <- py_getitem resp k ;;
        count <- py_getitem entry "returned" ;;
        n <- as_int count ;;
        Ok (b_count + n)
      else Ok b_count
    else Ok b_count
  else Ok b_count.

Fixpoint over_keys (req resp : value) (ks : list string) (b_count : Z)
  : result Z :=
  match ks with
  | [] => Ok b_count
  | k :: ks' =>
      n <- add_count req resp k b_count ;;
      over_keys req resp ks' n
  end.

Fixpoint over_members (l : list value) (b_count : Z) : result Z :=
  match l with
  | [] => Ok b_count
  | VStr s :: l' =>
      if existsb (String.eqb s) blob_returning_commands
      then Raise TypeError
      else over_members l' b_count
  | _ :: l' => over_members l' b_count
  end.

Definition over_request (req resp : value) (b_count : Z) : result Z :=
  match req with
  | VDict d => over_keys req resp (map fst d) b_count
  | VList l => over_members l b_count
  | VStr _ => Ok b_count
  | VNone | VBool _ | VInt _ => Raise TypeError
  end.

Fixpoint over_zip (reqs resps : list value) (b_count : Z) : result Z :=
  match reqs, resps with
  | req :: reqs', resp :: resps' =>
      n <- over_request req resp b_count ;;
      over_zip reqs' resps' n
  | _, _ => Ok b_count
  end.

(** The loop of [map_response_to_handler]. *)
Fixpoint handler_loop (h : handler) (query : list value)
    (query_blobs : list blob) (response : value) (response_blobs : list blob)
    (commands_per_query blobs_per_query : Z) (cmd_index_offset : option Z)
    (idxs : list Z) (blobs_returned : Z) (trace : list handler_call)
  : list handler_call * result unit :=
  match idxs with
  | [] => (trace, Ok tt)
  | i :: rest =>
      let start := i * commands_per_query in
      let end_ := start + commands_per_query in
      let blobs_start := i * blobs_per_query in
      let blobs_end := blobs_start + blobs_per_query in
      match
        match response with
        | VList resps =>
            over_zip (py_slice query start end_) (py_slice resps start end_) 0
        | _ => Ok 0
        end
      with
      | Raise e => (trace, Raise e)
      | Ok b_count =>
          let call :=
            ParallelQuery.mk_call
              (py_slice query start end_)
              (py_slice query_blobs blobs_start blobs_end)
              match response with
              | VList resps => VList (py_slice resps start end_)
              | _ => response
              end
              (if Z.of_nat (length response_blobs) >=? blobs_returned + b_count
               then Some (py_slice response_blobs blobs_returned
                            (blobs_returned + b_count))
               else None)
              match cmd_index_offset with
              | None => None
              | Some off => Some (off + i)
              end in
          match h trace call with
          | Some e => (trace ++ [call], Raise e)
          | None =>
              handler_loop h query query_blobs response response_blobs
                commands_per_query blobs_per_query cmd_index_offset
                rest (blobs_returned + b_count) (trace ++ [call])
          end
      end
  end.

Definition map_response_to_handler (h : handler) (query : list value)
    (query_blobs : list blob) (response : value) (response_blobs : list blob)
    (commands_per_query blobs_per_query : Z) (cmd_index_offset : option Z)
  : list handler_call * result unit :=
  if commands_per_query =? 0 then ([], Raise ZeroDivisionError)
  else
    handler_loop h query query_blobs response response_blobs
      commands_per_query blobs_per_query cmd_index_offset
      (map Z.of_nat
         (seq 0 (Z.to_nat
                   (ceil_div (Z.of_nat (length query)) commands_per_query))))
      0 [].

(** [statuses.setdefault(status, []).append(result)] over the response. *)
Definition statuses_t := list (key * list value).

Fixpoint add_status (st : statuses_t) (k : key) (x : value) : statuses_t :=
  match st with
  | [] => [(k, [x])]
  | (k', xs) :: st' =>
      if key_eqb k' k then (k', xs ++ [x]) :: st'
      else (k', xs) :: add_status st' k x
  end.

Fixpoint statuses_of_keys (res : value) (cmds : list string) (st : statuses_t)
  : result statuses_t :=
  match cmds with
  | [] => Ok st
  | cmd :: cmds' =>
      entry <- py_getitem res cmd ;;
      s <- py_getitem entry "status" ;;
      k <- hash_key s ;;
      statuses_of_keys res cmds' (add_status st k res)
  end.

Fixpoint statuses_of_members (res : value) (l cmds : list value)
    (st : statuses_t) : result statuses_t :=
  match cmds with
  | [] => Ok st
  | cmd :: cmds' =>
      i <- as_int cmd ;;
      match py_index l i with
      | None => Raise IndexError
      | Some entry =>
          s <- py_getitem entry "status" ;;
          k <- hash_key s ;;
          statuses_of_members res l cmds' (add_status st k res)
      end
  end.

Fixpoint statuses_of (rs : list value) (st : statuses_t) : result statuses_t :=
  match rs with
  | [] => Ok st
  | res :: rs' =>
      st' <- match res with
             | VDict d => statuses_of_keys res (map fst d) st
             | VList l => statuses_of_members res l l st
             | VStr s => if String.eqb s "" then Ok st else Raise TypeError
             | VNone | VBool _ | VInt _ => Raise TypeError
             end ;;
      statuses_of rs' st'
  end.

Fixpoint warnings (success_statuses : list Z) (st : statuses_t) : list value :=
  match st with
  | [] => []
  | (KInt z, results) :: st' =>
      if existsb (Z.eqb z) success_statuses
      then warnings success_statuses st'
      else results ++ warnings success_statuses st'
  | (_, results) :: st' => results ++ warnings success_statuses st'
  end.

Definition execute_query (q : list value) (blobs : list blob)
    (db : list value -> list blob -> reply)
    (success_statuses : list Z)
    (response_handler : option handler)
    (commands_per_query blobs_per_query : Z)
    (strict_response_validation : bool) (cmd_index : option Z)
  : list handler_call * result (Z * value * list blob) :=
  let rp := db q blobs in
  let r := ParallelQuery.rp_response rp in
  let b := ParallelQuery.rp_blobs rp in
  let '(trace, first) :=
    if ParallelQuery.rp_ok rp then
      match response_handler with
      | Some h =>
          let '(tr, out) :=
            map_response_to_handler h q blobs r b
              commands_per_query blobs_per_query cmd_index in
          match out with
          | Raise e =>
              if strict_response_validation then (tr, Raise e) else (tr, Ok 0)
          | Ok _ => (tr, Ok 0)
          end
      | None => ([], Ok 0)
      end
    else ([], Ok 1) in
  (trace,
   result0 <- first ;;
   statuses <- match r with
               | VDict _ =>
                   s <- py_getitem r "status" ;;
                   k <- hash_key s ;;
                   Ok ([(k, [r])], result0)
               | VList rs =>
                   st <- statuses_of rs [] ;;
                   Ok (st, result0)
               | _ => Ok ([], 1)
               end ;;
   let '(st, result1) := statuses in
   if result1 =? 1 then Ok (result1, r, b)
   else
     match warnings success_statuses st with
     | [] => Ok (result1, r, b)
     | _ :: _ => Ok (2, r, b)
     end).

End CommonLibrary.

(* ===================================================================== *)
(** ** aperturedb/Parallelizer.py                                         *)
(* ===================================================================== *)

Module Parallelizer.
Import Py ParallelQuery.

(** Modelled from the spec: [Parallelizer.run], which starts the workers,
    is not among the sources.  The spec has the index range [0, total)
    cut into fixed-size, disjoint, contiguous slices, one exclusive range
    per worker: worker [i] of [numthreads] owns [elements_per_thread]
    indices from [i * elements_per_thread], the last range ending at
    [total]. *)
Definition elements_per_thread (total numthreads : Z) : Z :=
  ceil_div total numthreads.

Definition ranges (total numthreads : Z) : list (Z * Z) :=
  map (fun i =>
         (i * elements_per_thread total numthreads,
          Z.min (i * elements_per_thread total numthreads
                 + elements_per_thread total numthreads) total))
      (py_range numthreads).

(** The workers run on the ranges they are given.  Their threads share
    only the append-only collections and the error counter, so the
    run is taken in thread order; a worker that dies leaves the others
    running.  [dbs thid] is the connection of worker [thid]. *)
Fixpoint run_workers (cfg : pq_config) (gen : generator)
    (dbs : nat -> nat -> list value -> list blob -> reply)
    (thid : nat) (rs : list (Z * Z)) (st : pq_state) : pq_state :=
  match rs with
  | [] => st
  | (start, end_) :: rs' =>
      run_workers cfg gen dbs (S thid) rs'
        (fst (worker cfg gen (dbs thid) start end_ st))
  end.

(** The state [_reset] leaves before the workers start. *)
Definition fresh (hp : heap) : pq_state :=
  {| st_heap := hp;
     st_times_arr := [];
     st_actual_stats := [];
     st_error_counter := 0;
     st_events := [] |}.

Definition run (cfg : pq_config) (gen : generator)
    (dbs : nat -> nat -> list value -> list blob -> reply)
    (numthreads : Z) (hp : heap) : pq_state :=
  run_workers cfg gen dbs 0
    (ranges (Z.of_nat (length (gen_records gen))) numthreads) (fresh hp).

End Parallelizer.

(* ===================================================================== *)
(** ** Notions the statements are written in                              *)
(* ===================================================================== *)

Module Spec.
Import Py ParallelQuery.

(** *** The demultiplexer *)

(** A request asks for blobs when its body has a truthy ["blobs"] field. *)
Definition asks_for_blobs (body : dict) : bool :=
  match dict_get body "blobs" with
  | Some flag => truthy flag
  | None => false
  end.

(** The ['returned'] count the server reports for operation [op]. *)
Definition returned_count (resp : value) (op : string) : Z :=
  match resp with
  | VDict d =>
      match dict_get d op with
      | Some (VDict e) =>
          match dict_get e "returned" with
          | Some (VInt n) => n
          | _ => 0
          end
      | _ => 0
      end
  | _ => 0
  end.

(** Output blobs owned by one command: its returned count when it is a
    blob-returning operation that asks for blobs, none otherwise. *)
Definition command_width (req resp : value) : Z :=
  match req with
  | VDict [(op, VDict body)] =>
      if is_blob_returning op && asks_for_blobs body
      then returned_count resp op
      else 0
  | _ => 0
  end.

Fixpoint group_width (reqs resps : list value) : Z :=
  match reqs, resps with
  | req :: reqs', resp :: resps' =>
      command_width req resp + group_width reqs' resps'
  | _, _ => 0
  end.

(** A command and its response as the data model has them: a single-key
    dict naming the operation, with a dict body; when the command owns
    output blobs, the response reports a non-negative count for it. *)
Definition well_formed_pair (req resp : value) : bool :=
  match req with
  | VDict [(op, VDict body)] =>
      if is_blob_returning op && asks_for_blobs body then
        match resp with
        | VDict d =>
            match dict_get d op with
            | Some (VDict e) =>
                match dict_get e "returned" with
                | Some (VInt n) => 0 <=? n
                | _ => false
                end
            | _ => false
            end
        | _ => false
        end
      else true
  | _ => false
  end.

Fixpoint well_formed_pairs (reqs resps : list value) : bool :=
  match reqs, resps with
  | [], [] => true
  | req :: reqs', resp :: resps' =>
      well_formed_pair req resp && well_formed_pairs reqs' resps'
  | _, _ => false
  end.

Section Groups.

Variables (query resps : list value).
Variable c : Z.

(** Number of groups of [c] commands, the last possibly shorter. *)
Definition group_total : nat :=
  Z.to_nat (ceil_div (Z.of_nat (length query)) c).

(** Commands and responses of group [i]. *)
Definition group_commands (i : nat) : list value :=
  py_slice query (Z.of_nat i * c) (Z.of_nat i * c + c).

Definition group_responses (i : nat) : list value :=
  py_slice resps (Z.of_nat i * c) (Z.of_nat i * c + c).

(** Width of group [i]: the counts of its blob-returning commands. *)
Definition width (i : nat) : Z :=
  group_width (group_commands i) (group_responses i).

(** The cursor of group [i]: the widths of the groups before it. *)
Fixpoint cursor (i : nat) : Z :=
  match i with
  | O => 0
  | S j => cursor j + width j
  end.

End Groups.

(** Input-blob slice of group [i]. *)
Definition group_blobs (query_blobs : list blob) (k : Z) (i : nat)
  : list blob :=
  py_slice query_blobs (Z.of_nat i * k) (Z.of_nat i * k + k).

(** The calls the demultiplexer makes for the groups [idxs] from the cursor
    [br] on, as far as it gets: each call carries the cursor and the count
    of its group, and the cursor moves on by that count. *)
Inductive planned (query : list value) (query_blobs : list blob)
    (response : value) (response_blobs : list blob) (c k : Z)
    (off : option Z) : list Z -> Z -> list handler_call -> Prop :=
| planned_stop idxs br :
    planned query query_blobs response response_blobs c k off idxs br []
| planned_call i rest br b calls :
    group_b_count query response c i = Ok b ->
    planned query query_blobs response response_blobs c k off
      rest (br + b) calls ->
    planned query query_blobs response response_blobs c k off
      (i :: rest) br
      (group_call query query_blobs response response_blobs c k off i br b
         :: calls).

(** The width the code computes for group [i] ([b_count]), and the cursor
    it has reached before that group ([blobs_returned]). *)
Definition computed_width (query : list value) (response : value) (c : Z)
    (i : nat) : Z :=
  match group_b_count query response c (Z.of_nat i) with
  | Ok b => b
  | Raise _ => 0
  end.

Fixpoint computed_cursor (query : list value) (response : value) (c : Z)
    (i : nat) : Z :=
  match i with
  | O => 0
  | S j => computed_cursor query response c j
           + computed_width query response c j
  end.

(** The call for group [i], with the cursor and width the code computes. *)
Definition call_of (query : list value) (query_blobs : list blob)
    (response : value) (response_blobs : list blob) (c k : Z)
    (off : option Z) (i : nat) : handler_call :=
  group_call query query_blobs response response_blobs c k off
    (Z.of_nat i) (computed_cursor query response c i)
    (computed_width query response c i).

(** A handler that returns from every call. *)
Definition returns (h : handler) : Prop :=
  forall past call, h past call = None.

(** *** Batch assembly *)

(** Field [f] of [d] is absent or an integer: refs are integers. *)
Definition int_field (d : dict) (f : string) : bool :=
  match dict_get d f with
  | None | Some (VInt _) => true
  | Some _ => false
  end.

(** Field [f] of [d] is absent or satisfies [p]. *)
Definition opt_field (d : dict) (f : string) (p : value -> bool) : bool :=
  match dict_get d f with
  | None => true
  | Some v => p v
  end.

(** An object with an optional ["ref"]: [connect], and the members of
    [is_connected_to.any] and [is_connected_to.all]. *)
Definition wf_link (v : value) : bool :=
  match v with
  | VDict d => int_field d "ref"
  | _ => false
  end.

Definition wf_links (v : value) : bool :=
  match v with
  | VList l => forallb wf_link l
  | _ => false
  end.

Definition wf_connected (v : value) : bool :=
  match v with
  | VDict d =>
      int_field d "ref" && opt_field d "any" wf_links
      && opt_field d "all" wf_links
  | _ => false
  end.

Definition wf_body (body : dict) : bool :=
  int_field body "_ref" && int_field body "image_ref"
  && int_field body "video_ref"
  && opt_field body "is_connected_to" wf_connected
  && opt_field body "connect" wf_link
  && int_field body "src" && int_field body "dst" && int_field body "ref".

(** A command as the data model has it: a single-key dict naming the
    operation, whose body is a dict with integer refs and pointers. *)
Definition wf_command (cmd : value) : bool :=
  match cmd with
  | VDict [(_, VDict body)] => wf_body body
  | _ => false
  end.

(** The pointers of a body: the ref values its pointer fields hold. *)
Definition field_ref (d : dict) (f : string) : list Z :=
  match dict_get d f with
  | Some (VInt r) => [r]
  | _ => []
  end.

Definition link_refs (v : value) : list Z :=
  match v with
  | VDict d => field_ref d "ref"
  | _ => []
  end.

Definition links_refs (d : dict) (op : string) : list Z :=
  match dict_get d op with
  | Some (VList l) => flat_map link_refs l
  | _ => []
  end.

Definition connected_refs (v : value) : list Z :=
  match v with
  | VDict d => field_ref d "ref" ++ links_refs d "any" ++ links_refs d "all"
  | _ => []
  end.

Definition nested_refs (d : dict) (f : string) (refs : value -> list Z)
  : list Z :=
  match dict_get d f with
  | Some v => refs v
  | None => []
  end.

Definition pointers (body : dict) : list Z :=
  field_ref body "image_ref" ++ field_ref body "video_ref"
  ++ nested_refs body "is_connected_to" connected_refs
  ++ nested_refs body "connect" link_refs
  ++ field_ref body "src" ++ field_ref body "dst" ++ field_ref body "ref".

(** The ref a command defines. *)
Definition defined_ref (cmd : value) : option Z :=
  match cmd with
  | VDict [(_, VDict body)] =>
      match dict_get body "_ref" with
      | Some (VInt r) => Some r
      | _ => None
      end
  | _ => None
  end.

Definition defines (cmd : value) (r : Z) : bool :=
  match defined_ref cmd with
  | Some r' => r' =? r
  | None => false
  end.

(** The 1-based position of the last command of [cmds] that defines [r],
    the head of [cmds] standing at position [pos]. *)
Fixpoint last_definer (cmds : list value) (r : Z) (pos : Z) : option Z :=
  match cmds with
  | [] => None
  | cmd :: rest =>
      match last_definer rest r (pos + 1) with
      | Some p => Some p
      | None => if defines cmd r then Some pos else None
      end
  end.

(** The position that ref [r] stands for after the first [n] commands of
    the batch: that of the latest of them that defines [r]. *)
Definition definer (cmds : list value) (n : nat) (r : Z) : option Z :=
  last_definer (firstn n cmds) r 1.

Definition is_some {A : Type} (o : option A) : bool :=
  match o with
  | Some _ => true
  | None => false
  end.

(** Every pointer of command [i] is defined by the command itself or by
    one before it. *)
Definition resolved_at (cmds : list value) (i : nat) : bool :=
  match nth i cmds VNone with
  | VDict [(_, VDict body)] =>
      forallb (fun r => is_some (definer cmds (S i) r)) (pointers body)
  | _ => true
  end.

Definition resolved (cmds : list value) : bool :=
  forallb (resolved_at cmds) (seq 0 (length cmds)).

(** The pointer rewriting of [update_refs] on values, for a remap table
    [u] that knows the pointers: each pointer gives way to its position. *)
Definition remap_dict (u : updates_t) (f : string) (d : dict) : dict :=
  match dict_get d f with
  | Some (VInt r) =>
      match updates_get u (KInt r) with
      | Some p => dict_set d f (VInt p)
      | None => d
      end
  | _ => d
  end.

Definition remap_link (u : updates_t) (v : value) : value :=
  match v with
  | VDict d => VDict (remap_dict u "ref" d)
  | _ => v
  end.

Definition remap_links (u : updates_t) (op : string) (d : dict) : dict :=
  match dict_get d op with
  | Some (VList l) => dict_set d op (VList (map (remap_link u) l))
  | _ => d
  end.

Definition remap_connected (u : updates_t) (v : value) : value :=
  match v with
  | VDict d =>
      VDict (remap_links u "all" (remap_links u "any" (remap_dict u "ref" d)))
  | _ => v
  end.

Definition remap_nested (f : string) (g : value -> value) (d : dict) : dict :=
  match dict_get d f with
  | Some v => dict_set d f (g v)
  | None => d
  end.

Definition rewrite_pointers (u : updates_t) (body : dict) : dict :=
  remap_dict u "ref"
    (remap_dict u "dst"
       (remap_dict u "src"
          (remap_nested "connect" (remap_link u)
             (remap_nested "is_connected_to" (remap_connected u)
                (remap_dict u "video_ref" (remap_dict u "image_ref" body)))))).

(** The pointers of [refs] are all known to the table [u]. *)
Definition known (u : updates_t) (refs : list Z) : bool :=
  forallb (fun r => is_some (updates_get u (KInt r))) refs.

(** The ref a body defines, recorded in the table, and overwritten by the
    position of the command at index [i]. *)
Definition record_ref (i : nat) (body : dict) (u : updates_t) : updates_t :=
  match dict_get body "_ref" with
  | Some (VInt r) => updates_set u (KInt r) (Z.of_nat i + 1)
  | _ => u
  end.

Definition number_ref (i : nat) (body : dict) : dict :=
  match dict_get body "_ref" with
  | Some _ => dict_set body "_ref" (VInt (Z.of_nat i + 1))
  | None => body
  end.

Definition renumber_body (i : nat) (u : updates_t) (body : dict) : dict :=
  rewrite_pointers (record_ref i body u) (number_ref i body).

Definition body_of (cmd : value) : dict :=
  match cmd with
  | VDict [(_, VDict body)] => body
  | _ => []
  end.

(** The remap table after the commands [cmds], the first of them standing
    at index [i], starting from the table [u]. *)
Fixpoint table_after (cmds : list value) (i : nat) (u : updates_t)
  : updates_t :=
  match cmds with
  | [] => u
  | cmd :: rest => table_after rest (S i) (record_ref i (body_of cmd) u)
  end.

(** Each of the commands finds its pointers in the table as it stands
    after its own ref. *)
Fixpoint all_known (cmds : list value) (i : nat) (u : updates_t) : bool :=
  match cmds with
  | [] => true
  | cmd :: rest =>
      known (record_ref i (body_of cmd) u) (pointers (body_of cmd))
      && all_known rest (S i) (record_ref i (body_of cmd) u)
  end.

(** What the claim says of an assembled command, [tbl] giving the position
    a ref stands for and [pos] being the position of the command: the
    fields are those of the original in the same order; ["_ref"], when
    present, is [pos]; every pointer holds the position its ref stands
    for; the other fields are as they were. *)
Definition pointer_renumbered (tbl : Z -> option Z) (d d' : dict)
    (f : string) : Prop :=
  forall r, dict_get d f = Some (VInt r) ->
            exists p, tbl r = Some p /\ dict_get d' f = Some (VInt p).

Definition link_renumbered (tbl : Z -> option Z) (x x' : value) : Prop :=
  exists d d',
    x = VDict d /\ x' = VDict d'
    /\ pointer_renumbered tbl d d' "ref"
    /\ forall g, g <> "ref" -> dict_get d' g = dict_get d g.

Definition connected_renumbered (tbl : Z -> option Z) (ict ict' : dict)
  : Prop :=
  pointer_renumbered tbl ict ict' "ref"
  /\ (forall op, In op ["any"; "all"] ->
                 forall items, dict_get ict op = Some (VList items) ->
                   exists items',
                     dict_get ict' op = Some (VList items')
                     /\ Forall2 (link_renumbered tbl) items items')
  /\ forall g, ~ In g ["ref"; "any"; "all"] -> dict_get ict' g = dict_get ict g.

Definition renumbered (tbl : Z -> option Z) (pos : Z) (body body' : dict)
  : Prop :=
  map fst body' = map fst body
  /\ (dict_get body "_ref" <> None ->
      dict_get body' "_ref" = Some (VInt pos))
  /\ (forall f, In f ["image_ref"; "video_ref"; "src"; "dst"; "ref"] ->
                pointer_renumbered tbl body body' f)
  /\ (forall c, dict_get body "connect" = Some (VDict c) ->
                exists c',
                  dict_get body' "connect" = Some (VDict c')
                  /\ link_renumbered tbl (VDict c) (VDict c'))
  /\ (forall ict, dict_get body "is_connected_to" = Some (VDict ict) ->
                  exists ict',
                    dict_get body' "is_connected_to" = Some (VDict ict')
                    /\ connected_renumbered tbl ict ict')
  /\ forall f, ~ In f ["_ref"; "image_ref"; "video_ref"; "is_connected_to";
                       "connect"; "src"; "dst"; "ref"] ->
               dict_get body' f = dict_get body f.

(** The code [c], run on the dict [d], rewrites it to [d'] when the table
    knows the pointers [refs], and raises [KeyError] when it does not. *)
Definition rewrites (u : updates_t) (c : M value unit) (d : dict)
    (refs : list Z) (d' : dict) : Prop :=
  exists v',
    c (VDict d) = (v', if known u refs then Ok tt else Raise KeyError)
    /\ (known u refs = true -> v' = VDict d').

(** *** The executor *)

(** The per-command statuses of a response: the status of a dict-shaped
    response, or the status of every command of every result of a
    list-shaped one. *)
Definition entry_status (entry : value) : list value :=
  match entry with
  | VDict e =>
      match dict_get e "status" with
      | Some s => [s]
      | None => []
      end
  | _ => []
  end.

Definition command_statuses (d : dict) (cmds : list string) : list value :=
  flat_map (fun cmd => match dict_get d cmd with
                       | Some entry => entry_status entry
                       | None => []
                       end) cmds.

Definition result_statuses (res : value) : list value :=
  match res with
  | VDict d => command_statuses d (map fst d)
  | _ => []
  end.

Definition response_statuses (r : value) : list value :=
  match r with
  | VDict d =>
      match dict_get d "status" with
      | Some s => [s]
      | None => []
      end
  | VList rs => flat_map result_statuses rs
  | _ => []
  end.

(** Membership of a status in the success-status set. *)
Definition in_success_set (success_statuses : list Z) (s : value) : bool :=
  match s with
  | VInt z => existsb (Z.eqb z) success_statuses
  | VBool b => existsb (Z.eqb (if b then 1 else 0)) success_statuses
  | _ => false
  end.

Definition all_succeeded (success_statuses : list Z) (r : value) : bool :=
  forallb (in_success_set success_statuses) (response_statuses r).

(** The response has one of the two shapes the executor reads. *)
Definition expected_format (r : value) : bool :=
  match r with
  | VDict _ | VList _ => true
  | _ => false
  end.

(** Every status the executor reads is there and can key a dict. *)
Definition hashable (v : value) : bool :=
  match v with
  | VList _ | VDict _ => false
  | _ => true
  end.

Definition readable_entry (entry : value) : bool :=
  match entry with
  | VDict e =>
      match dict_get e "status" with
      | Some s => hashable s
      | None => false
      end
  | _ => false
  end.

Definition readable_result (res : value) : bool :=
  match res with
  | VDict d =>
      forallb (fun cmd => match dict_get d cmd with
                          | Some entry => readable_entry entry
                          | None => false
                          end) (map fst d)
  | _ => false
  end.

Definition readable_response (r : value) : bool :=
  match r with
  | VDict _ => readable_entry r
  | VList rs => forallb readable_result rs
  | _ => true
  end.

(** *** The workers *)

(** A batch that was executed with result 0 or 1. *)
Definition clean (ev : batch_event) : bool :=
  match ev with
  | Executed _ _ code => (code =? 0) || (code =? 1)
  | _ => false
  end.

(** A batch that succeeded in full, and one that failed in full. *)
Definition succeeded (ev : batch_event) : bool :=
  match ev with
  | Executed _ _ code => code =? 0
  | _ => false
  end.

(** The errors counted for some batches, and the queries they record as
    succeeded, when the batches are clean. *)
Definition error_of (ev : batch_event) : Z :=
  match ev with
  | Executed _ _ code => if code =? 1 then 1 else 0
  | DryRun _ _ => 0
  | Failed _ _ _ => 1
  end.

Definition queries_of (ev : batch_event) : Z :=
  match ev with
  | Executed _ n code => if code =? 0 then Z.of_nat n else 0
  | _ => 0
  end.

Definition records_of (ev : batch_event) : nat :=
  match ev with
  | Executed _ n _ | DryRun _ n => n
  | Failed _ _ _ => 0%nat
  end.

Definition sum_Z (l : list Z) : Z := fold_right Z.add 0 l.

(** The records of batch [i] of the worker on [start, end_). *)
Definition batch_of (cfg : pq_config) (gen : generator) (start end_ : Z)
    (i : nat) : list record :=
  py_slice (gen_records gen)
    (start + Z.of_nat i * batchsize cfg)
    (Z.min (start + Z.of_nat i * batchsize cfg + batchsize cfg) end_).

(** The state [st'] is [st] after the batches with events [new]: the
    events are appended and, when the batches are clean, so are their
    times and statistics, and their errors are counted. *)
Definition accounts (st st' : pq_state) (new : list batch_event) : Prop :=
  st_events st' = st_events st ++ new
  /\ (forallb clean new = true ->
      st_error_counter st' = st_error_counter st + sum_Z (map error_of new)
      /\ length (st_times_arr st')
         = (length (st_times_arr st) + length new)%nat
      /\ exists added,
          st_actual_stats st' = st_actual_stats st ++ added
          /\ sum_stats "succeeded_queries" added
             = Ok (sum_Z (map queries_of new))).

End Spec.

(* ===================================================================== *)
(** ** Slices and groups                                                  *)
(* ===================================================================== *)

Import Py ParallelQuery.

Lemma firstn_plus {A : Type} (a b : nat) (l : list A) :
  firstn (a + b) l = firstn a l ++ firstn b (skipn a l).
Proof.
  revert l; induction a as [|a IH]; intros l; simpl.
  - reflexivity.
  - destruct l as [|x l]; simpl.
    + now rewrite firstn_nil.
    + now rewrite IH.
Qed.

Lemma py_slice_nonneg {A : Type} (l : list A) (a b : Z) :
  0 <= a <= b ->
  py_slice l a b = firstn (Z.to_nat (b - a)) (skipn (Z.to_nat a) l).
Proof.
  intros [Ha Hab]. unfold py_slice, clamp.
  destruct (Z.ltb_spec a 0) as [?|_]; [lia|].
  destruct (Z.ltb_spec b 0) as [?|_]; [lia|].
  set (len := Z.of_nat (length l)).
  destruct (Z.le_gt_cases a len) as [Hal|Hal].
  - rewrite (Z.min_l a len) by lia.
    destruct (Z.le_gt_cases b len) as [Hbl|Hbl].
    + now rewrite (Z.min_l b len) by lia.
    + rewrite (Z.min_r b len) by lia.
      rewrite !firstn_all2; [reflexivity| |];
        rewrite length_skipn; subst len; lia.
  - rewrite (Z.min_r a len), (Z.min_r b len) by lia.
    replace (Z.to_nat len) with (length l) by (subst len; lia).
    rewrite skipn_all. rewrite (skipn_all2 l) by (subst len; lia).
    now rewrite !firstn_nil.
Qed.

Lemma py_slice_length {A : Type} (l : list A) (a b : Z) :
  0 <= a <= b -> b <= Z.of_nat (length l) ->
  Z.of_nat (length (py_slice l a b)) = b - a.
Proof.
  intros Hab Hb. rewrite py_slice_nonneg by assumption.
  rewrite length_firstn, length_skipn. lia.
Qed.

(** Consecutive chunks of [c] elements put together give a prefix. *)
Lemma chunks_concat {A : Type} (l : list A) (c n : nat) :
  concat (map (fun i => firstn c (skipn (i * c) l)) (seq 0 n))
  = firstn (n * c) l.
Proof.
  induction n as [|n IH].
  - reflexivity.
  - rewrite seq_S, map_app, concat_app, IH. simpl.
    rewrite app_nil_r.
    replace (c + n * c)%nat with (n * c + c)%nat by lia.
    now rewrite firstn_plus.
Qed.

Lemma chunk_is_slice {A : Type} (l : list A) (c : Z) (i : nat) :
  0 <= c ->
  py_slice l (Z.of_nat i * c) (Z.of_nat i * c + c)
  = firstn (Z.to_nat c) (skipn (i * Z.to_nat c) l).
Proof.
  intros Hc. rewrite py_slice_nonneg by nia.
  f_equal; [f_equal; lia | f_equal; nia].
Qed.

Lemma ceil_div_covers (n c : Z) :
  0 < c -> 0 <= n -> n <= ceil_div n c * c /\ 0 <= ceil_div n c.
Proof.
  intros Hc Hn. unfold ceil_div.
  pose proof (Z.div_mod (- n) c ltac:(lia)) as E.
  pose proof (Z.mod_pos_bound (- n) c Hc) as B.
  split; nia.
Qed.

(* ===================================================================== *)
(** ** The response demultiplexer                                         *)
(* ===================================================================== *)

Lemma count_request_width (req resp : value) (acc : Z) :
  Spec.well_formed_pair req resp = true ->
  count_request req resp acc = Ok (acc + Spec.command_width req resp).
Proof.
  unfold Spec.well_formed_pair, Spec.command_width.
  destruct req as [| | | | |d]; try discriminate.
  destruct d as [|[op body] d]; try discriminate.
  destruct body as [| | | | |body]; try discriminate.
  destruct d; try discriminate.
  cbn [count_request map fst count_keys]. unfold count_key.
  assert (Hzero : Ok acc = Ok (acc + 0)) by (f_equal; lia).
  destruct (is_blob_returning op) eqn:Hop; cbn [andb Py.bind];
    [|intros _; exact Hzero].
  cbn [py_getitem dict_get]. rewrite String.eqb_refl.
  cbn [Py.bind py_contains]. unfold dict_has, Spec.asks_for_blobs.
  destruct (dict_get body "blobs") as [flag|] eqn:Hflag; cbn [Py.bind];
    [|intros _; exact Hzero].
  cbn [py_getitem]. rewrite Hflag. cbn [Py.bind].
  destruct (truthy flag); cbn [Py.bind]; [|intros _; exact Hzero].
  unfold Spec.returned_count.
  destruct resp as [| | | | |rd]; try discriminate.
  cbn [py_getitem].
  destruct (dict_get rd op) as [entry|]; try discriminate.
  destruct entry as [| | | | |e]; try discriminate.
  cbn [Py.bind py_getitem].
  destruct (dict_get e "returned") as [count|]; try discriminate.
  destruct count; try discriminate.
  intros _. reflexivity.
Qed.

Lemma count_group_width (reqs resps : list value) (acc : Z) :
  Spec.well_formed_pairs reqs resps = true ->
  count_group reqs resps acc = Ok (acc + Spec.group_width reqs resps).
Proof.
  revert resps acc; induction reqs as [|req reqs IH]; intros [|resp resps] acc;
    cbn [Spec.well_formed_pairs count_group Spec.group_width];
    try discriminate.
  - intros _. f_equal. lia.
  - intros H. apply andb_prop in H as [H1 H2].
    rewrite (count_request_width _ _ _ H1). cbn [Py.bind].
    rewrite (IH _ _ H2). f_equal. lia.
Qed.

Lemma command_width_nonneg (req resp : value) :
  Spec.well_formed_pair req resp = true -> 0 <= Spec.command_width req resp.
Proof.
  unfold Spec.well_formed_pair, Spec.command_width, Spec.returned_count.
  destruct req as [| | | | |[|[op [| | | | |body]] [|]]]; try discriminate;
    try (intros _; lia).
  destruct (is_blob_returning op && Spec.asks_for_blobs body); [|intros _; lia].
  destruct resp as [| | | | |rd]; try discriminate.
  destruct (dict_get rd op) as [[| | | | |e]|]; try discriminate.
  destruct (dict_get e "returned") as [[| | | | |]|]; try discriminate.
  intros H. now apply Z.leb_le.
Qed.

Lemma group_width_nonneg (reqs resps : list value) :
  Spec.well_formed_pairs reqs resps = true -> 0 <= Spec.group_width reqs resps.
Proof.
  revert resps; induction reqs as [|req reqs IH]; intros [|resp resps];
    cbn [Spec.well_formed_pairs Spec.group_width]; try discriminate;
    try (intros _; lia).
  intros H. apply andb_prop in H as [H1 H2].
  pose proof (command_width_nonneg _ _ H1). pose proof (IH _ H2). lia.
Qed.

Lemma well_formed_pairs_length (reqs resps : list value) :
  Spec.well_formed_pairs reqs resps = true -> length reqs = length resps.
Proof.
  revert resps; induction reqs as [|req reqs IH]; intros [|resp resps];
    cbn [Spec.well_formed_pairs]; try discriminate; try reflexivity.
  intros H. apply andb_prop in H as [_ H]. cbn. f_equal. now apply IH.
Qed.

Lemma well_formed_pairs_skipn (n : nat) (reqs resps : list value) :
  Spec.well_formed_pairs reqs resps = true ->
  Spec.well_formed_pairs (skipn n reqs) (skipn n resps) = true.
Proof.
  revert reqs resps; induction n as [|n IH]; intros reqs resps H.
  - exact H.
  - destruct reqs as [|req reqs], resps as [|resp resps];
      cbn [Spec.well_formed_pairs] in H; try discriminate; cbn [skipn].
    + reflexivity.
    + apply andb_prop in H as [_ H]. now apply IH.
Qed.

Lemma well_formed_pairs_firstn (n : nat) (reqs resps : list value) :
  Spec.well_formed_pairs reqs resps = true ->
  Spec.well_formed_pairs (firstn n reqs) (firstn n resps) = true.
Proof.
  revert reqs resps; induction n as [|n IH]; intros reqs resps H.
  - reflexivity.
  - destruct reqs as [|req reqs], resps as [|resp resps];
      cbn [Spec.well_formed_pairs] in H; try discriminate; cbn [firstn].
    + reflexivity.
    + apply andb_prop in H as [H1 H2]. cbn [Spec.well_formed_pairs].
      now rewrite H1, IH.
Qed.

Lemma well_formed_group (query resps : list value) (c : Z) (i : nat) :
  0 < c ->
  Spec.well_formed_pairs query resps = true ->
  Spec.well_formed_pairs (Spec.group_commands query c i)
    (Spec.group_responses resps c i) = true.
Proof.
  intros Hc H. unfold Spec.group_commands, Spec.group_responses.
  rewrite !chunk_is_slice by lia.
  now apply well_formed_pairs_firstn, well_formed_pairs_skipn.
Qed.

Lemma width_nonneg (query resps : list value) (c : Z) (i : nat) :
  0 < c ->
  Spec.well_formed_pairs query resps = true ->
  0 <= Spec.width query resps c i.
Proof.
  intros Hc H. apply group_width_nonneg. now apply well_formed_group.
Qed.

Lemma cursor_nonneg (query resps : list value) (c : Z) (i : nat) :
  0 < c ->
  Spec.well_formed_pairs query resps = true ->
  0 <= Spec.cursor query resps c i.
Proof.
  intros Hc H. induction i as [|i IH]; cbn [Spec.cursor]; [lia|].
  pose proof (width_nonneg query resps c i Hc H). lia.
Qed.

Lemma group_b_count_width (query resps : list value) (c : Z) (i : nat) :
  0 < c ->
  Spec.well_formed_pairs query resps = true ->
  group_b_count query (VList resps) c (Z.of_nat i)
  = Ok (Spec.width query resps c i).
Proof.
  intros Hc H. unfold group_b_count.
  fold (Spec.group_commands query c i). fold (Spec.group_responses resps c i).
  rewrite count_group_width by now apply well_formed_group.
  reflexivity.
Qed.

Section DemuxFacts.

Variable h : handler.
Variables (query : list value) (query_blobs : list blob).
Variables (response : value) (response_blobs : list blob).
Variables (c k : Z).
Variable off : option Z.

Let planned := Spec.planned query query_blobs response response_blobs c k off.
Let loop := demux_loop h query query_blobs response response_blobs c k off.

(** The loop only adds calls, the planned ones, and makes all of them when
    it ends normally. *)
Lemma demux_loop_planned (idxs : list Z) :
  forall br tr tr' out,
    loop idxs br tr = (tr', out) ->
    exists calls,
      tr' = tr ++ calls /\ planned idxs br calls
      /\ (out = Ok tt -> length calls = length idxs).
Proof.
  subst planned loop.
  induction idxs as [|i rest IH]; intros br tr tr' out; cbn [demux_loop].
  - intros [= <- <-]. exists []. rewrite app_nil_r.
    repeat split. constructor.
  - destruct (group_b_count query response c i) as [b|e] eqn:Hb.
    + destruct (h tr _) as [e|] eqn:Hh.
      * intros [= <- <-]. eexists [_]. repeat split.
        -- econstructor; [exact Hb|constructor].
        -- discriminate.
      * intros Hrun. apply IH in Hrun as (calls & -> & Hp & Hlen).
        eexists (_ :: calls). rewrite <- app_assoc. repeat split.
        -- econstructor; eassumption.
        -- intros Hout. cbn. f_equal. now apply Hlen.
    + intros [= <- <-]. exists []. rewrite app_nil_r.
      repeat split; [constructor|discriminate].
Qed.

(** With a handler that returns and counts that can be computed, the loop
    ends normally. *)
Lemma demux_loop_returns (idxs : list Z) :
  Spec.returns h ->
  (forall i, In i idxs -> exists b, group_b_count query response c i = Ok b) ->
  forall br tr, snd (loop idxs br tr) = Ok tt.
Proof.
  subst loop. intros Hh.
  induction idxs as [|i rest IH]; intros Hb br tr; cbn [demux_loop].
  - reflexivity.
  - destruct (Hb i (or_introl eq_refl)) as [b ->].
    rewrite Hh. apply IH. intros j Hj. apply Hb. now right.
Qed.

(** The command and input-blob slices of the planned calls. *)
Lemma planned_slices (n : nat) :
  forall i0 br calls,
    planned (map Z.of_nat (seq i0 n)) br calls ->
    map hc_query calls
    = map (Spec.group_commands query c) (seq i0 (length calls))
    /\ map hc_query_blobs calls
      = map (Spec.group_blobs query_blobs k) (seq i0 (length calls)).
Proof.
  subst planned.
  induction n as [|n IH]; intros i0 br calls Hp; cbn [seq map] in Hp.
  - inversion Hp; subst. split; reflexivity.
  - inversion Hp as [|i rest br' b calls' Hb Hrest]; subst.
    + split; reflexivity.
    + apply IH in Hrest as [Hq Hqb]. cbn [map length seq].
      rewrite Hq, Hqb. split; reflexivity.
Qed.

End DemuxFacts.

Section DemuxCalls.

Variable h : handler.
Variables (query : list value) (query_blobs : list blob).
Variables (response : value) (response_blobs : list blob).
Variables (c k : Z).
Variable off : option Z.

Let call_of :=
  Spec.call_of query query_blobs response response_blobs c k off.

Lemma planned_calls (n : nat) :
  forall i0 calls,
    Spec.planned query query_blobs response response_blobs c k off
      (map Z.of_nat (seq i0 n)) (Spec.computed_cursor query response c i0)
      calls ->
    calls = map call_of (seq i0 (length calls)).
Proof.
  induction n as [|n IH]; intros i0 calls Hp; cbn [seq map] in Hp.
  - inversion Hp; subst. reflexivity.
  - inversion Hp as [|i rest br' b calls' Hb Hrest]; subst.
    + reflexivity.
    + assert (Hw : Spec.computed_width query response c i0 = b)
        by (unfold Spec.computed_width; now rewrite Hb).
      cbn [length seq map]. f_equal.
      * unfold call_of, Spec.call_of. now rewrite Hw.
      * apply IH. cbn [Spec.computed_cursor]. now rewrite Hw.
Qed.

(** The trace of a run: the calls of the first groups, all of them when
    the run ends normally. *)
Lemma run_trace :
  c <> 0 ->
  let run := map_response_to_handler h query query_blobs response
               response_blobs c k off in
  exists m,
    (m <= Spec.group_total query c)%nat
    /\ fst run = map call_of (seq 0 m)
    /\ (snd run = Ok tt -> m = Spec.group_total query c).
Proof.
  intros Hc. cbv zeta. unfold map_response_to_handler.
  destruct (Z.eqb_spec c 0) as [?|_]; [contradiction|].
  unfold py_range. fold (Spec.group_total query c).
  destruct (demux_loop _ _ _ _ _ _ _ _ _ _ _) as [tr out] eqn:Hrun.
  destruct (demux_loop_planned _ _ _ _ _ _ _ _ _ _ _ _ _ Hrun)
    as (calls & -> & Hp & Hlen).
  cbn [app fst snd].
  assert (Hle : (length calls <= Spec.group_total query c)%nat).
  { clear -Hp. revert Hp. generalize 0%nat at 1. generalize 0 at 1.
    generalize (Spec.group_total query c).
    intros n br i0 Hp. revert br i0 calls Hp.
    induction n as [|n IH]; intros br i0 calls Hp; cbn [seq map] in Hp;
      inversion Hp; subst; cbn [length]; try lia.
    match goal with H : Spec.planned _ _ _ _ _ _ _ _ _ _ |- _ =>
      apply IH in H end. lia. }
  exists (length calls). split; [exact Hle|]. split.
  - now apply (planned_calls (Spec.group_total query c) 0%nat).
  - intros Hout. rewrite (Hlen Hout). now rewrite length_map, length_seq.
Qed.

(** A handler that returns, and counts that can be computed: the run ends
    normally after calling the handler for every group. *)
Lemma run_complete :
  c <> 0 ->
  Spec.returns h ->
  (forall i, (i < Spec.group_total query c)%nat ->
             exists b, group_b_count query response c (Z.of_nat i) = Ok b) ->
  map_response_to_handler h query query_blobs response response_blobs c k off
  = (map call_of (seq 0 (Spec.group_total query c)), Ok tt).
Proof.
  intros Hc Hh Hb.
  destruct (run_trace Hc) as (m & _ & Htr & Hm).
  assert (Hout : snd (map_response_to_handler h query query_blobs response
                        response_blobs c k off) = Ok tt).
  { unfold map_response_to_handler.
    destruct (Z.eqb_spec c 0) as [?|_]; [contradiction|].
    apply demux_loop_returns; [exact Hh|].
    intros i Hi. unfold py_range in Hi. apply in_map_iff in Hi as (j & <- & Hj).
    apply in_seq in Hj. apply Hb. fold (Spec.group_total query c) in Hj. lia. }
  rewrite (surjective_pairing (map_response_to_handler _ _ _ _ _ _ _ _)).
  rewrite Htr, Hout, (Hm Hout). reflexivity.
Qed.

End DemuxCalls.

(** With well-formed commands and responses the computed widths and
    cursors are the sums of the returned counts. *)
Lemma computed_width_well_formed (query resps : list value) (c : Z) (i : nat) :
  0 < c ->
  Spec.well_formed_pairs query resps = true ->
  Spec.computed_width query (VList resps) c i = Spec.width query resps c i.
Proof.
  intros Hc H. unfold Spec.computed_width.
  now rewrite group_b_count_width.
Qed.

Lemma computed_cursor_well_formed (query resps : list value) (c : Z) (i : nat) :
  0 < c ->
  Spec.well_formed_pairs query resps = true ->
  Spec.computed_cursor query (VList resps) c i = Spec.cursor query resps c i.
Proof.
  intros Hc H. induction i as [|i IH]; cbn [Spec.computed_cursor Spec.cursor].
  - reflexivity.
  - now rewrite IH, computed_width_well_formed.
Qed.

Lemma nth_error_map_seq {A : Type} (f : nat -> A) (m i : nat) (x : A) :
  nth_error (map f (seq 0 m)) i = Some x -> (i < m)%nat /\ x = f i.
Proof.
  intros H.
  assert (Hi : (i < m)%nat).
  { assert (Hsome : nth_error (map f (seq 0 m)) i <> None) by congruence.
    apply nth_error_Some in Hsome.
    now rewrite length_map, length_seq in Hsome. }
  split; [exact Hi|].
  rewrite nth_error_map, nth_error_seq in H.
  destruct (Nat.ltb_spec i m); [|lia].
  cbn in H. now injection H as <-.
Qed.

(** A run of the demultiplexer used in the examples: two groups of one
    [FindImage] each, the first reporting three images and the second
    two, over five output blobs. *)
Module Example_demux.

Definition find_image : value :=
  VDict [("FindImage", VDict [("blobs", VBool true)])].

Definition found (n : Z) : value :=
  VDict [("FindImage", VDict [("returned", VInt n); ("status", VInt 0)])].

Definition query : list value := [find_image; find_image].
Definition resps : list value := [found 3; found 2].
Definition response_blobs : list blob := ["a"; "b"; "c"; "d"; "e"].
Definition short_blobs : list blob := ["a"; "b"; "c"; "d"].
Definition quiet : handler := fun _ _ => None.

End Example_demux.



(** The run of the example: the group reporting three images receives a
    slice of length three, and the slice of the next group starts three
    positions later. *)
Example demux_example :
  map hc_response_blobs
    (fst (map_response_to_handler Example_demux.quiet Example_demux.query []
            (VList Example_demux.resps) Example_demux.response_blobs
            1 0 None))
  = [Some ["a"; "b"; "c"]; Some ["d"; "e"]].
Proof. reflexivity. Qed.

(** The slices of all groups put together are the flat list. *)
Lemma group_commands_concat (query : list value) (c : Z) :
  0 < c ->
  concat (map (Spec.group_commands query c) (seq 0 (Spec.group_total query c)))
  = query.
Proof.
  intros Hc.
  rewrite (map_ext _ (fun i => firstn (Z.to_nat c)
                                 (skipn (i * Z.to_nat c) query)))
    by (intros i; apply chunk_is_slice; lia).
  rewrite chunks_concat. apply firstn_all2.
  unfold Spec.group_total.
  pose proof (ceil_div_covers (Z.of_nat (length query)) c Hc ltac:(lia)).
  nia.
Qed.

Lemma group_blobs_concat (query_blobs : list blob) (k : Z) (n : nat) :
  0 <= k ->
  Z.of_nat (length query_blobs) = Z.of_nat n * k ->
  concat (map (Spec.group_blobs query_blobs k) (seq 0 n)) = query_blobs.
Proof.
  intros Hk Hlen.
  rewrite (map_ext _ (fun i => firstn (Z.to_nat k)
                                 (skipn (i * Z.to_nat k) query_blobs)))
    by (intros i; apply chunk_is_slice; lia).
  rewrite chunks_concat. apply firstn_all2. nia.
Qed.

Lemma call_of_slices (query : list value) (query_blobs : list blob)
    (response : value) (response_blobs : list blob) (c k : Z)
    (off : option Z) (m : nat) :
  map hc_query
    (map (Spec.call_of query query_blobs response response_blobs c k off)
       (seq 0 m))
  = map (Spec.group_commands query c) (seq 0 m)
  /\ map hc_query_blobs
       (map (Spec.call_of query query_blobs response response_blobs c k off)
          (seq 0 m))
     = map (Spec.group_blobs query_blobs k) (seq 0 m).
Proof.
  rewrite !map_map. split; apply map_ext; intros i; reflexivity.
Qed.





(** The run of the example over four output blobs: the second group, whose
    slice would end at five, receives [None], after the first group
    received its three blobs. *)
Example short_stream_example :
  map_response_to_handler Example_demux.quiet Example_demux.query []
    (VList Example_demux.resps) Example_demux.short_blobs 1 0 None
  = ([mk_call [Example_demux.find_image] [] (VList [Example_demux.found 3])
        (Some ["a"; "b"; "c"]) None;
      mk_call [Example_demux.find_image] [] (VList [Example_demux.found 2])
        None None],
     Ok tt).
Proof. reflexivity. Qed.

(* ===================================================================== *)
(** ** The two executors                                                  *)
(* ===================================================================== *)

(** The parts of the two modules that the source repeats word for word
    unfold to the same terms. *)
Lemma over_zip_eq (reqs resps : list value) (n : Z) :
  CommonLibrary.over_zip reqs resps n = count_group reqs resps n.
Proof. reflexivity. Qed.

Lemma handler_loop_eq (h : handler) (query : list value)
    (query_blobs : list blob) (response : value) (response_blobs : list blob)
    (c k : Z) (off : option Z) (idxs : list Z) :
  forall br tr,
    CommonLibrary.handler_loop h query query_blobs response response_blobs
      c k off idxs br tr
    = demux_loop h query query_blobs response response_blobs c k off
        idxs br tr.
Proof.
  induction idxs as [|i rest IH]; intros br tr; cbn [CommonLibrary.handler_loop
    demux_loop]; [reflexivity|].
  assert (Hb : match response with
               | VList resps =>
                   CommonLibrary.over_zip
                     (py_slice query (i * c) (i * c + c))
                     (py_slice resps (i * c) (i * c + c)) 0
               | _ => Ok 0
               end = group_b_count query response c i).
  { unfold group_b_count. destruct response; auto using over_zip_eq. }
  rewrite Hb. destruct (group_b_count query response c i) as [b|e];
    [|reflexivity].
  change (mk_call _ _ _ _ _)
    with (group_call query query_blobs response response_blobs c k off i br b).
  destruct (h tr _); [reflexivity|apply IH].
Qed.

Lemma CommonLibrary_map_response_to_handler_eq (h : handler)
    (query : list value) (query_blobs : list blob) (response : value)
    (response_blobs : list blob) (c k : Z) (off : option Z) :
  CommonLibrary.map_response_to_handler h query query_blobs response
    response_blobs c k off
  = map_response_to_handler h query query_blobs response response_blobs
      c k off.
Proof.
  unfold CommonLibrary.map_response_to_handler, map_response_to_handler.
  destruct (c =? 0); [reflexivity|]. apply handler_loop_eq.
Qed.

Lemma statuses_of_eq (rs : list value) (st : statuses_t) :
  CommonLibrary.statuses_of rs st = collect_statuses rs st.
Proof. reflexivity. Qed.

Lemma warnings_eq (success_statuses : list Z) (st : statuses_t) :
  CommonLibrary.warnings success_statuses st = warn_list success_statuses st.
Proof.
  induction st as [|[k results] st IH]; cbn; [reflexivity|].
  destruct k; cbn; now rewrite IH.
Qed.

(** C10. [execute_query] of CommonLibrary with its module-level
    [map_response_to_handler] and [execute_batch] of ParallelQuery with the
    class method agree on every input: the same calls of the handler in
    the same order, and the same result triple or the same exception. *)
Theorem C10_execute_query_is_execute_batch
    (q : list value) (blobs : list blob)
    (db : list value -> list blob -> reply) (success_statuses : list Z)
    (response_handler : option handler) (commands_per_query blobs_per_query : Z)
    (strict_response_validation : bool) (cmd_index : option Z) :
  CommonLibrary.execute_query q blobs db success_statuses response_handler
    commands_per_query blobs_per_query strict_response_validation cmd_index
  = execute_batch q blobs db success_statuses response_handler
      commands_per_query blobs_per_query strict_response_validation cmd_index
  /\ forall h response response_blobs,
      CommonLibrary.map_response_to_handler h q blobs response response_blobs
        commands_per_query blobs_per_query cmd_index
      = map_response_to_handler h q blobs response response_blobs
          commands_per_query blobs_per_query cmd_index.
Proof.
  split; [|intros; apply CommonLibrary_map_response_to_handler_eq].
  unfold CommonLibrary.execute_query, execute_batch.
  assert (Htail : forall result0 : Z,
             (result0 = 0 \/ result0 = 1) ->
             (statuses <-
                match rp_response (db q blobs) with
                | VDict _ =>
                    s <- py_getitem (rp_response (db q blobs)) "status" ;;
                    k <- hash_key s ;;
                    Ok ([(k, [rp_response (db q blobs)])], result0)
                | VList rs =>
                    st <- CommonLibrary.statuses_of rs [] ;;
                    Ok (st, result0)
                | _ => Ok ([], 1)
                end ;;
              let '(st, result1) := statuses in
              if result1 =? 1
              then Ok (result1, rp_response (db q blobs), rp_blobs (db q blobs))
              else
                match CommonLibrary.warnings success_statuses st with
                | [] =>
                    Ok (result1, rp_response (db q blobs),
                        rp_blobs (db q blobs))
                | _ :: _ =>
                    Ok (2, rp_response (db q blobs), rp_blobs (db q blobs))
                end)%py
             = (code <- classify success_statuses (rp_response (db q blobs))
                          result0 ;;
                Ok (code, rp_response (db q blobs), rp_blobs (db q blobs)))%py).
  { intros result0 Hr. unfold classify.
    destruct (rp_response (db q blobs)) as [| | | |rs|d]; try reflexivity.
    - rewrite statuses_of_eq.
      destruct (collect_statuses rs []) as [st|]; cbn [Py.bind];
        [|reflexivity].
      rewrite warnings_eq.
      destruct Hr as [-> | ->]; cbn; [|reflexivity].
      destruct (warn_list success_statuses st); reflexivity.
    - destruct (py_getitem (VDict d) "status") as [s|]; cbn [Py.bind];
        [|reflexivity].
      destruct (hash_key s) as [k0|]; cbn [Py.bind]; [|reflexivity].
      rewrite warnings_eq.
      destruct Hr as [-> | ->]; cbn -[warn_list]; [|reflexivity].
      destruct (warn_list success_statuses _); reflexivity. }
  destruct (rp_ok (db q blobs)).
  - destruct response_handler as [h|].
    + rewrite CommonLibrary_map_response_to_handler_eq.
      destruct (map_response_to_handler _ _ _ _ _ _ _ _) as [tr [u|e]].
      * f_equal. cbn [Py.bind]. apply Htail. now left.
      * destruct strict_response_validation; [reflexivity|].
        f_equal. cbn [Py.bind]. apply Htail. now left.
    + f_equal. cbn [Py.bind]. apply Htail. now left.
  - f_equal. cbn [Py.bind]. apply Htail. now right.
Qed.

(* ===================================================================== *)
(** ** Classification of the outcome                                      *)
(* ===================================================================== *)

(** Every status of the [statuses] dict is a success status. *)
Definition all_ok (success_statuses : list Z) (st : statuses_t) : bool :=
  forallb (fun entry => is_success success_statuses (fst entry)) st.

(** Every status of the dict has a response filed under it. *)
Definition filled (st : statuses_t) : Prop :=
  Forall (fun entry => snd entry <> []) st.

Lemma key_eqb_eq (a b : key) : key_eqb a b = true -> a = b.
Proof.
  destruct a, b; cbn; try discriminate; intros H.
  - reflexivity.
  - apply Z.eqb_eq in H. now subst.
  - apply String.eqb_eq in H. now subst.
Qed.

Lemma key_eqb_refl (a : key) : key_eqb a a = true.
Proof.
  destruct a; cbn; [reflexivity|apply Z.eqb_refl|apply String.eqb_refl].
Qed.

Lemma setdefault_append_filled (st : statuses_t) (k : key) (x : value) :
  filled st -> filled (setdefault_append st k x).
Proof.
  unfold filled. induction st as [|[k' xs] st IH]; cbn; intros H.
  - constructor; [discriminate|constructor].
  - inversion H as [|? ? Hxs Hst]; subst.
    destruct (key_eqb k' k); constructor; cbn; auto.
    now destruct xs.
Qed.

Lemma setdefault_append_all_ok (ss : list Z) (st : statuses_t) (k : key)
    (x : value) :
  all_ok ss (setdefault_append st k x) = all_ok ss st && is_success ss k.
Proof.
  unfold all_ok.
  induction st as [|[k' xs] st IH]; cbn [setdefault_append forallb fst].
  - now rewrite andb_true_r.
  - destruct (key_eqb k' k) eqn:Hk; cbn [forallb fst].
    + apply key_eqb_eq in Hk. subst k'.
      destruct (is_success ss k); cbn [andb];
        [now rewrite andb_true_r|reflexivity].
    + rewrite IH. now rewrite andb_assoc.
Qed.

Lemma warn_list_all_ok (ss : list Z) (st : statuses_t) :
  filled st -> (warn_list ss st = [] <-> all_ok ss st = true).
Proof.
  unfold filled. induction st as [|[k xs] st IH]; cbn; intros H.
  - split; reflexivity.
  - inversion H as [|? ? Hxs Hst]; subst. cbn in Hxs.
    destruct (is_success ss k); cbn.
    + now apply IH.
    + split; [|discriminate].
      intros Happ. apply app_eq_nil in Happ as [? _]. contradiction.
Qed.

Lemma is_success_hash (ss : list Z) (s : value) (k : key) :
  hash_key s = Ok k -> is_success ss k = Spec.in_success_set ss s.
Proof.
  destruct s; cbn; intros [= <-]; reflexivity.
Qed.

Lemma collect_keys_all_ok (ss : list Z) (d : dict) (cmds : list string) :
  forall st st',
    collect_keys (VDict d) cmds st = Ok st' ->
    filled st ->
    filled st'
    /\ all_ok ss st'
       = all_ok ss st
         && forallb (Spec.in_success_set ss) (Spec.command_statuses d cmds).
Proof.
  induction cmds as [|cmd cmds IH]; intros st st'; cbn [collect_keys].
  - intros [= <-] Hf. split; [exact Hf|]. cbn. now rewrite andb_true_r.
  - cbn [py_getitem]. destruct (dict_get d cmd) as [entry|] eqn:Hcmd;
      cbn [Py.bind]; [|discriminate].
    destruct entry as [| | | | |e]; cbn [py_getitem Py.bind]; try discriminate.
    destruct (dict_get e "status") as [s|] eqn:Hs; cbn [Py.bind];
      [|discriminate].
    destruct (hash_key s) as [k|] eqn:Hk; cbn [Py.bind]; [|discriminate].
    intros Hrun Hf.
    apply IH in Hrun as [Hf' Hok]; [|now apply setdefault_append_filled].
    split; [exact Hf'|].
    rewrite Hok, setdefault_append_all_ok.
    unfold Spec.command_statuses. cbn [flat_map]. rewrite Hcmd.
    cbn [Spec.entry_status]. rewrite Hs. cbn [app forallb].
    rewrite (is_success_hash ss s k Hk). now rewrite andb_assoc.
Qed.

Lemma py_index_In {A : Type} (l : list A) (i : Z) (x : A) :
  py_index l i = Some x -> In x l.
Proof.
  unfold py_index. destruct (i <? 0).
  - destruct (i + Z.of_nat (length l) <? 0); [discriminate|].
    apply nth_error_In.
  - apply nth_error_In.
Qed.

(** A result that is a list is read through its own members as indices:
    that succeeds for the empty list only. *)
Lemma collect_members_entries (res : value) (l cmds : list value) :
  forall st st',
    collect_members res l cmds st = Ok st' ->
    forall cmd, In cmd cmds ->
      (exists i, as_int cmd = Ok i)
      /\ exists d, In (VDict d) l.
Proof.
  induction cmds as [|c0 cmds IH]; intros st st' Hrun cmd Hin;
    [contradiction|].
  cbn [collect_members] in Hrun.
  destruct (as_int c0) as [i|] eqn:Hi; cbn [Py.bind] in Hrun;
    [|discriminate].
  destruct (py_index l i) as [entry|] eqn:Hidx; [|discriminate].
  destruct entry as [| | | | |e]; cbn [py_getitem Py.bind] in Hrun;
    try discriminate.
  destruct (dict_get e "status") as [s|]; cbn [Py.bind] in Hrun;
    [|discriminate].
  destruct (hash_key s) as [k|]; cbn [Py.bind] in Hrun; [|discriminate].
  destruct Hin as [<-|Hin].
  - split; [eauto|]. exists e. eapply py_index_In; eassumption.
  - eapply IH; eassumption.
Qed.

Lemma collect_members_empty (res : value) (l : list value) (st st' : statuses_t) :
  collect_members res l l st = Ok st' -> l = [] /\ st' = st.
Proof.
  intros Hrun. destruct l as [|x l].
  - cbn in Hrun. injection Hrun as <-. auto.
  - exfalso.
    destruct (collect_members_entries _ _ _ _ _ Hrun x (or_introl eq_refl))
      as [_ [d Hd]].
    destruct (collect_members_entries _ _ _ _ _ Hrun (VDict d) Hd)
      as [[i Hi] _].
    discriminate.
Qed.

Lemma collect_result_all_ok (ss : list Z) (res : value) (st st' : statuses_t) :
  collect_result res st = Ok st' ->
  filled st ->
  filled st'
  /\ all_ok ss st'
     = all_ok ss st
       && forallb (Spec.in_success_set ss) (Spec.result_statuses res).
Proof.
  destruct res as [| | |s|l|d]; cbn [collect_result Spec.result_statuses];
    try discriminate.
  - destruct (String.eqb s ""); [|discriminate].
    intros [= <-] Hf. cbn. now rewrite andb_true_r.
  - intros Hrun Hf. apply collect_members_empty in Hrun as [_ ->].
    cbn. now rewrite andb_true_r.
  - apply collect_keys_all_ok.
Qed.

Lemma collect_statuses_all_ok (ss : list Z) (rs : list value) :
  forall st st',
    collect_statuses rs st = Ok st' ->
    filled st ->
    filled st'
    /\ all_ok ss st'
       = all_ok ss st
         && forallb (Spec.in_success_set ss) (flat_map Spec.result_statuses rs).
Proof.
  induction rs as [|res rs IH]; intros st st'; cbn [collect_statuses].
  - intros [= <-] Hf. cbn. now rewrite andb_true_r.
  - destruct (collect_result res st) as [st1|] eqn:Hres; cbn [Py.bind];
      [|discriminate].
    intros Hrun Hf.
    destruct (collect_result_all_ok ss _ _ _ Hres Hf) as [Hf1 Hok1].
    destruct (IH _ _ Hrun Hf1) as [Hf' Hok'].
    split; [exact Hf'|].
    rewrite Hok', Hok1. cbn [flat_map]. rewrite forallb_app.
    now rewrite andb_assoc.
Qed.

(** What [classify] returns, when it returns. *)
Lemma classify_code (ss : list Z) (r : value) (result0 code : Z) :
  result0 = 0 \/ result0 = 1 ->
  classify ss r result0 = Ok code ->
  (code = 1 <-> result0 = 1 \/ Spec.expected_format r = false)
  /\ (code = 0 <->
      result0 = 0 /\ Spec.expected_format r = true
      /\ Spec.all_succeeded ss r = true)
  /\ (code = 2 <->
      result0 = 0 /\ Spec.expected_format r = true
      /\ Spec.all_succeeded ss r = false).
Proof.
  intros Hr. unfold classify, Spec.all_succeeded.
  assert (Hgen : forall st,
             filled st ->
             all_ok ss st
             = forallb (Spec.in_success_set ss) (Spec.response_statuses r) ->
             Spec.expected_format r = true ->
             (if negb (result0 =? 1)
              then match warn_list ss st with
                   | [] => Ok result0
                   | _ :: _ => Ok 2
                   end
              else Ok result0) = Ok code ->
             (code = 1 <-> result0 = 1 \/ Spec.expected_format r = false)
             /\ (code = 0 <->
                 result0 = 0 /\ Spec.expected_format r = true
                 /\ forallb (Spec.in_success_set ss)
                      (Spec.response_statuses r) = true)
             /\ (code = 2 <->
                 result0 = 0 /\ Spec.expected_format r = true
                 /\ forallb (Spec.in_success_set ss)
                      (Spec.response_statuses r) = false)).
  { intros st Hf Hok Hfmt. rewrite Hfmt, <- Hok.
    pose proof (warn_list_all_ok ss st Hf) as Hw.
    destruct Hr as [-> | ->]; cbn.
    - destruct (warn_list ss st) as [|w ws].
      + intros [= <-]. rewrite (proj1 Hw eq_refl).
        repeat split; intros; try lia; try tauto;
          try (destruct H as [? [? ?]]; discriminate);
          try (destruct H as [?|?]; [lia|discriminate]).
      + intros [= <-].
        destruct (all_ok ss st) eqn:Hall;
          [pose proof (proj2 Hw eq_refl); discriminate|].
        repeat split; intros; try lia; try tauto;
          try (destruct H as [? [? ?]]; discriminate);
          try (destruct H as [?|?]; [lia|discriminate]).
    - intros [= <-].
      repeat split; intros; try lia; try tauto;
        try (destruct H as [? [? ?]]; lia). }
  destruct r as [| | | |rs|d]; cbn [Py.bind Spec.expected_format].
  1-4: (destruct Hr as [-> | ->]; cbn; intros [= <-];
        repeat split; intros; try lia; try tauto;
        try (destruct H as [? [? ?]]; discriminate)).
  - destruct (collect_statuses rs []) as [st|] eqn:Hst; cbn [Py.bind];
      [|discriminate].
    destruct (collect_statuses_all_ok ss rs [] st Hst (Forall_nil _))
      as [Hf Hok].
    apply (Hgen st Hf); [exact Hok|reflexivity].
  - cbn [py_getitem]. destruct (dict_get d "status") as [s|] eqn:Hs;
      cbn [Py.bind]; [|discriminate].
    destruct (hash_key s) as [k|] eqn:Hk; cbn [Py.bind]; [|discriminate].
    apply (Hgen [(k, [VDict d])]).
    + constructor; [discriminate|constructor].
    + cbn. rewrite Hs. cbn. now rewrite (is_success_hash ss s k Hk).
    + reflexivity.
Qed.

Lemma collect_keys_returns (d : dict) (cmds : list string) :
  forallb (fun cmd => match dict_get d cmd with
                      | Some entry => Spec.readable_entry entry
                      | None => false
                      end) cmds = true ->
  forall st, exists st', collect_keys (VDict d) cmds st = Ok st'.
Proof.
  induction cmds as [|cmd cmds IH]; cbn [forallb collect_keys]; intros H st.
  - eauto.
  - apply andb_prop in H as [Hcmd Hrest]. cbn [py_getitem].
    destruct (dict_get d cmd) as [entry|]; [|discriminate].
    destruct entry as [| | | | |e]; try discriminate.
    cbn [Spec.readable_entry] in Hcmd. cbn [Py.bind py_getitem].
    destruct (dict_get e "status") as [s|]; [|discriminate].
    cbn [Py.bind]. destruct s; try discriminate; cbn [hash_key Py.bind];
      apply IH; exact Hrest.
Qed.

Lemma collect_statuses_returns (rs : list value) :
  forallb Spec.readable_result rs = true ->
  forall st, exists st', collect_statuses rs st = Ok st'.
Proof.
  induction rs as [|res rs IH]; cbn [forallb collect_statuses]; intros H st.
  - eauto.
  - apply andb_prop in H as [Hres Hrest].
    destruct res as [| | | | |d]; try discriminate.
    cbn [collect_result]. cbn [Spec.readable_result] in Hres.
    destruct (collect_keys_returns d _ Hres st) as [st1 ->].
    cbn [Py.bind]. now apply IH.
Qed.

Lemma classify_returns (ss : list Z) (r : value) (result0 : Z) :
  Spec.readable_response r = true ->
  exists code, classify ss r result0 = Ok code.
Proof.
  unfold classify. destruct r as [| | | |rs|d]; cbn [Spec.readable_response].
  1-4: (intros _; cbn; eauto).
  - intros H. destruct (collect_statuses_returns rs H []) as [st ->].
    cbn [Py.bind]. destruct (negb (result0 =? 1)); eauto.
    destruct (warn_list ss st); eauto.
  - cbn [Spec.readable_entry py_getitem].
    destruct (dict_get d "status") as [s|]; [|discriminate].
    intros H. cbn [Py.bind].
    destruct s; try discriminate; cbn [hash_key Py.bind];
      destruct (negb (result0 =? 1)); eauto;
      destruct (warn_list ss _); eauto.
Qed.

(** The result of [execute_batch] is the classification of the response,
    unless a handler exception is passed on under strict validation. *)
Lemma execute_batch_result (q : list value) (blobs : list blob)
    (db : list value -> list blob -> reply) (ss : list Z)
    (response_handler : option handler) (c k : Z) (strict : bool)
    (idx : option Z) :
  let rp := db q blobs in
  let run := execute_batch q blobs db ss response_handler c k strict idx in
  snd run
  = (code <- classify ss (rp_response rp) (if rp_ok rp then 0 else 1) ;;
     Ok (code, rp_response rp, rp_blobs rp))%py
  \/ (exists h e,
         response_handler = Some h /\ strict = true /\ rp_ok rp = true
         /\ snd (map_response_to_handler h q blobs (rp_response rp)
                   (rp_blobs rp) c k idx) = Raise e
         /\ snd run = Raise e).
Proof.
  cbv zeta. unfold execute_batch.
  destruct (rp_ok (db q blobs)); [|left; reflexivity].
  destruct response_handler as [h|]; [|left; reflexivity].
  destruct (map_response_to_handler _ _ _ _ _ _ _ _) as [tr [u|e]] eqn:Hmap;
    [left; reflexivity|].
  destruct strict; [|left; reflexivity].
  right. exists h, e. rewrite Hmap. cbn. auto.
Qed.

(** C3, as the code has it.  When [execute_batch] returns, it returns the
    response and blobs of the connector, and its result code is 1 exactly
    when the transport reports failure or the response is neither a dict
    nor a list; 0 exactly when the transport reports success, the response
    is a dict or a list and every per-command status is in the
    success-status set; 2 exactly when the transport reports success, the
    response is a dict or a list and some status is outside the set.  It
    does return when the statuses can be read and no handler exception is
    passed on. *)
Theorem C3_result_classification
    (q : list value) (blobs : list blob)
    (db : list value -> list blob -> reply) (ss : list Z)
    (response_handler : option handler) (c k : Z) (strict : bool)
    (idx : option Z) :
  let rp := db q blobs in
  let run := execute_batch q blobs db ss response_handler c k strict idx in
  (forall code r b,
      snd run = Ok (code, r, b) ->
      r = rp_response rp /\ b = rp_blobs rp
      /\ (code = 1 <-> rp_ok rp = false \/ Spec.expected_format r = false)
      /\ (code = 0 <->
          rp_ok rp = true /\ Spec.expected_format r = true
          /\ Spec.all_succeeded ss r = true)
      /\ (code = 2 <->
          rp_ok rp = true /\ Spec.expected_format r = true
          /\ Spec.all_succeeded ss r = false))
  /\ (Spec.readable_response (rp_response rp) = true ->
      strict = false \/ response_handler = None \/ rp_ok rp = false ->
      exists code, snd run = Ok (code, rp_response rp, rp_blobs rp)).
Proof.
  intros rp run.
  destruct (execute_batch_result q blobs db ss response_handler c k strict idx)
    as [Hrun | (h & e & Hh & Hs & Hok & _ & Hrun)];
    fold rp in Hrun; fold run in Hrun; [|fold rp in Hok].
  - split.
    + intros code r b Hret. rewrite Hrun in Hret.
      destruct (classify ss (rp_response rp) (if rp_ok rp then 0 else 1))
        as [code'|] eqn:Hcl; cbn [Py.bind] in Hret; [|discriminate].
      injection Hret as -> <- <-.
      split; [reflexivity|]. split; [reflexivity|].
      apply classify_code in Hcl; [|destruct (rp_ok rp); auto].
      destruct Hcl as (H1 & H0 & H2).
      destruct (rp_ok rp); repeat split; intros;
        try (apply H1; intuition congruence);
        try (apply H0; intuition congruence);
        try (apply H2; intuition congruence);
        try (apply H1 in H; destruct H; [discriminate|now right]);
        try (apply H0 in H; intuition congruence);
        try (apply H2 in H; intuition congruence).
      apply H1 in H. now left.
    + intros Hread _. rewrite Hrun.
      destruct (classify_returns ss (rp_response rp)
                  (if rp_ok rp then 0 else 1) Hread) as [code ->].
      exists code. reflexivity.
  - split.
    + intros code r b Hret. rewrite Hrun in Hret. discriminate.
    + intros _ [?|[?|?]]; congruence.
Qed.

(** C3, as stated, fails: a response that is neither a dict nor a list
    gives result 1 although the transport reports success. *)
Lemma C3_counterexample :
  let db := fun (_ : list value) (_ : list blob) =>
              mk_reply (VStr "unexpected") [] true 0%Q in
  snd (execute_batch [] [] db [0; 2] None 1 0 false None)
  = Ok (1, VStr "unexpected", [])
  /\ rp_ok (db [] []) = true
  /\ ~ (1 = 1 <-> rp_ok (db [] []) = false).
Proof.
  cbv zeta. split; [reflexivity|]. split; [reflexivity|].
  intros [H _]. specialize (H eq_refl). discriminate.
Qed.

(** The three result codes on a connector that accepts the transaction. *)
Example classification_example :
  let accepted r := fun (_ : list value) (_ : list blob) =>
                      mk_reply r [] true 0%Q in
  let status n := VDict [("AddEntity", VDict [("status", VInt n)])] in
  snd (execute_batch [] [] (accepted (VList [status 0; status 2]))
         [0; 2] None 1 0 false None)
  = Ok (0, VList [status 0; status 2], [])
  /\ snd (execute_batch [] [] (accepted (VList [status 0; status (-1)]))
            [0; 2] None 1 0 false None)
     = Ok (2, VList [status 0; status (-1)], [])
  /\ snd (execute_batch [] []
            (fun _ _ => mk_reply (VDict [("status", VInt (-1))]) [] false 0%Q)
            [0; 2] None 1 0 false None)
     = Ok (1, VDict [("status", VInt (-1))], []).
Proof. repeat split. Qed.

(* ===================================================================== *)
(** ** Exceptions of the response handler                                 *)
(* ===================================================================== *)

(** Without strict validation the result of [execute_batch] does not
    depend on the handler. *)
Lemma execute_batch_not_strict (q : list value) (blobs : list blob)
    (db : list value -> list blob -> reply) (ss : list Z)
    (response_handler : option handler) (c k : Z) (idx : option Z) :
  snd (execute_batch q blobs db ss response_handler c k false idx)
  = (code <- classify ss (rp_response (db q blobs))
               (if rp_ok (db q blobs) then 0 else 1) ;;
     Ok (code, rp_response (db q blobs), rp_blobs (db q blobs)))%py.
Proof.
  destruct (execute_batch_result q blobs db ss response_handler c k false idx)
    as [H | (h & e & _ & Hs & _)]; [exact H|discriminate].
Qed.

(** Under strict validation an exception of the demultiplexer or of the
    handler leaves [execute_batch]. *)
Lemma execute_batch_strict_raise (q : list value) (blobs : list blob)
    (db : list value -> list blob -> reply) (ss : list Z) (h : handler)
    (c k : Z) (idx : option Z) (e : exn) :
  rp_ok (db q blobs) = true ->
  snd (map_response_to_handler h q blobs (rp_response (db q blobs))
         (rp_blobs (db q blobs)) c k idx) = Raise e ->
  snd (execute_batch q blobs db ss (Some h) c k true idx) = Raise e.
Proof.
  intros Hok Hmap. unfold execute_batch. rewrite Hok.
  destruct (map_response_to_handler _ _ _ _ _ _ _ _) as [tr out].
  cbn [snd] in Hmap. subst out. reflexivity.
Qed.

(** What the worker leaves behind after catching the exception of a batch. *)
Definition after_failure (st : pq_state) (hp : heap)
    (batch_start batch_end : Z) (e : exn) : pq_state :=
  {| st_heap := hp;
     st_times_arr := st_times_arr st;
     st_actual_stats := st_actual_stats st;
     st_error_counter := st_error_counter st + 1;
     st_events := st_events st ++ [Failed batch_start batch_end e] |}.

(** A generator of one record, one [FindEntity] command at address 0, with
    a five-parameter handler raising [e] and strict validation [strict];
    a connection accepting every query. *)
Module Example_handler.

Definition hp : heap := [VDict [("FindEntity", VDict [("with_class", VStr "x")])]].

Definition gen (e : exn) (strict : bool) : generator :=
  {| gen_records := [([0%nat], [])];
     gen_response_handler := Some (5%nat, fun _ _ => Some e);
     gen_strict_response_validation := Some (VBool strict) |}.

Definition cfg : pq_config :=
  {| dry_run := false;
     commands_per_query := 1;
     blobs_per_query := 0;
     batchsize := 1;
     success_statuses := [0; 2] |}.

Definition db : nat -> list value -> list blob -> reply :=
  fun _ _ _ =>
    mk_reply (VList [VDict [("FindEntity", VDict [("status", VInt 0)])]])
      [] true 0%Q.

Definition st : pq_state := Parallelizer.fresh hp.

End Example_handler.

(** C8, as the code has it.  Take a batch that is assembled and accepted
    by the transport and whose handler raises [e].  Without strict
    validation [execute_batch] returns what it returns with any other
    handler, one that does not raise included.  Under strict validation
    [e] leaves [execute_batch] and [do_batch], nothing being recorded for
    the batch; the worker catches [e] and counts one error when [e] is an
    instance of [Exception]. *)
Theorem C8_handler_exception
    (cfg : pq_config) (gen : generator)
    (db : nat -> list value -> list blob -> reply)
    (start end_ : Z) (i : nat) (st : pq_state)
    (hp : heap) (q : list addr) (blobs : list blob) (h : handler) (e : exn) :
  let batch_start := start + Z.of_nat i * batchsize cfg in
  let batch_end := Z.min (batch_start + batchsize cfg) end_ in
  let data := py_slice (gen_records gen) batch_start batch_end in
  let qv := map (deref hp) q in
  let rp := db i qv blobs in
  dry_run cfg = false ->
  generate_batch data (st_heap st) = (hp, Ok (q, blobs)) ->
  response_handler_of gen = Ok (Some h) ->
  rp_ok rp = true ->
  snd (map_response_to_handler h qv blobs (rp_response rp) (rp_blobs rp)
         (commands_per_query cfg) (blobs_per_query cfg) (Some batch_start))
  = Raise e ->
  (forall h',
      snd (execute_batch qv blobs (db i) (success_statuses cfg) (Some h)
             (commands_per_query cfg) (blobs_per_query cfg) false
             (Some batch_start))
      = snd (execute_batch qv blobs (db i) (success_statuses cfg) h'
               (commands_per_query cfg) (blobs_per_query cfg) false
               (Some batch_start)))
  /\ (strict_of gen = true ->
      snd (execute_batch qv blobs (db i) (success_statuses cfg) (Some h)
             (commands_per_query cfg) (blobs_per_query cfg) true
             (Some batch_start)) = Raise e
      /\ do_batch cfg gen (db i) batch_start data st
         = (with_heap st hp, Raise e)
      /\ (is_Exception e = true ->
          worker_batch cfg gen db start end_ i st
          = (after_failure st hp batch_start batch_end e, Ok tt))).
Proof.
  intros batch_start batch_end data qv rp Hdry Hgen Hh Hok Hraise.
  split.
  - intros h'. now rewrite !execute_batch_not_strict.
  - intros Hstrict.
    pose proof (execute_batch_strict_raise qv blobs (db i)
                  (success_statuses cfg) h (commands_per_query cfg)
                  (blobs_per_query cfg) (Some batch_start) e Hok Hraise)
      as Hexec.
    assert (Hdo : do_batch cfg gen (db i) batch_start data st
                  = (with_heap st hp, Raise e)).
    { unfold do_batch. rewrite Hgen, Hdry, Hh, Hstrict.
      fold qv. now rewrite Hexec. }
    split; [exact Hexec|]. split; [exact Hdo|].
    intros Hexn. unfold worker_batch.
    fold batch_start. fold batch_end. fold data.
    rewrite Hdo, Hexn. reflexivity.
Qed.

Lemma C8_handler_exception_witness :
  let cfg := Example_handler.cfg in
  let gen := Example_handler.gen (UserException "boom") true in
  let db := Example_handler.db in
  let st := Example_handler.st in
  let hp := Example_handler.hp in
  let e := UserException "boom" in
  let h : handler := fun _ _ => Some e in
  let qv := map (deref hp) [0%nat] in
  (dry_run cfg = false
   /\ generate_batch (py_slice (gen_records gen) 0 1) (st_heap st)
      = (hp, Ok ([0%nat], []))
   /\ response_handler_of gen = Ok (Some h)
   /\ rp_ok (db 0%nat qv []) = true
   /\ snd (map_response_to_handler h qv [] (rp_response (db 0%nat qv []))
             (rp_blobs (db 0%nat qv [])) 1 0 (Some 0)) = Raise e)
  /\ (forall h',
         snd (execute_batch qv [] (db 0%nat) [0; 2] (Some h) 1 0 false (Some 0))
         = snd (execute_batch qv [] (db 0%nat) [0; 2] h' 1 0 false (Some 0)))
  /\ (strict_of gen = true ->
      snd (execute_batch qv [] (db 0%nat) [0; 2] (Some h) 1 0 true (Some 0))
      = Raise e
      /\ do_batch cfg gen (db 0%nat) 0 (py_slice (gen_records gen) 0 1) st
         = (with_heap st hp, Raise e)
      /\ (is_Exception e = true ->
          worker_batch cfg gen db 0 1 0 st
          = (after_failure st hp 0 1 e, Ok tt))).
Proof.
  cbv zeta. split.
  - repeat split.
  - apply (C8_handler_exception Example_handler.cfg
             (Example_handler.gen (UserException "boom") true)
             Example_handler.db 0 1 0 Example_handler.st Example_handler.hp
             [0%nat] [] (fun _ _ => Some (UserException "boom"))
             (UserException "boom")); reflexivity.
Defined.

(** C8, as stated, fails: under strict validation the worker does not
    catch a handler exception outside [Exception], such as
    [KeyboardInterrupt], and does not count it. *)
Lemma C8_counterexample :
  let e := BaseOnly "KeyboardInterrupt" in
  let run := worker_batch Example_handler.cfg (Example_handler.gen e true)
               Example_handler.db 0 1 0 Example_handler.st in
  snd run = Raise e
  /\ st_error_counter (fst run) = st_error_counter Example_handler.st
  /\ st_events (fst run) = [].
Proof. cbv zeta. repeat split. Qed.

(** Without strict validation the same handler is heard of no further:
    the batch is recorded as a success. *)
Example handler_exception_swallowed :
  let e := BaseOnly "KeyboardInterrupt" in
  let run := worker_batch Example_handler.cfg (Example_handler.gen e false)
               Example_handler.db 0 1 0 Example_handler.st in
  snd run = Ok tt
  /\ st_error_counter (fst run) = 0
  /\ st_events (fst run) = [Executed 0 1 0]
  /\ get_succeeded_queries (fst run) = Ok 1.
Proof. cbv zeta. repeat split. Qed.

(* ===================================================================== *)
(** ** Dicts                                                              *)
(* ===================================================================== *)

Lemma dict_get_set (d : dict) (f g : string) (v : value) :
  dict_get (dict_set d f v) g
  = if String.eqb f g then Some v else dict_get d g.
Proof.
  induction d as [|[k x] d IH]; cbn [dict_set dict_get].
  - destruct (String.eqb_spec f g); reflexivity.
  - destruct (String.eqb_spec k f) as [->|Hkf]; cbn [dict_get].
    + destruct (String.eqb_spec f g); reflexivity.
    + destruct (String.eqb_spec k g) as [->|Hkg].
      * destruct (String.eqb_spec f g); [congruence|reflexivity].
      * exact IH.
Qed.

Lemma dict_set_set (d : dict) (f : string) (v w : value) :
  dict_set (dict_set d f v) f w = dict_set d f w.
Proof.
  induction d as [|[k x] d IH]; cbn [dict_set].
  - now rewrite String.eqb_refl.
  - destruct (String.eqb_spec k f) as [->|Hkf]; cbn [dict_set].
    + now rewrite String.eqb_refl.
    + destruct (String.eqb_spec k f); [contradiction|]. now rewrite IH.
Qed.

Lemma dict_set_same (d : dict) (f : string) (v : value) :
  dict_get d f = Some v -> dict_set d f v = d.
Proof.
  induction d as [|[k x] d IH]; cbn [dict_set dict_get]; [discriminate|].
  destruct (String.eqb_spec k f) as [->|Hkf].
  - now intros [= ->].
  - intros H. now rewrite IH.
Qed.

Lemma dict_set_keys (d : dict) (f : string) (v : value) :
  dict_get d f <> None -> map fst (dict_set d f v) = map fst d.
Proof.
  induction d as [|[k x] d IH]; cbn [dict_set dict_get map fst];
    [congruence|].
  destruct (String.eqb_spec k f) as [->|Hkf]; cbn [map fst].
  - reflexivity.
  - intros H. now rewrite IH.
Qed.

(* ===================================================================== *)
(** ** Rewriting the pointers of one command                              *)
(* ===================================================================== *)

Section Rewrites.

Variable u : updates_t.

Lemma known_app (l1 l2 : list Z) :
  Spec.known u (l1 ++ l2) = Spec.known u l1 && Spec.known u l2.
Proof. apply forallb_app. Qed.

(** Sequencing. *)
Lemma rewrites_seq (c1 c2 : M value unit) (d d1 d2 : dict)
    (refs1 refs2 : list Z) :
  Spec.rewrites u c1 d refs1 d1 ->
  Spec.rewrites u c2 d1 refs2 d2 ->
  Spec.rewrites u (mbind c1 (fun _ => c2)) d (refs1 ++ refs2) d2.
Proof.
  intros (v1 & H1 & E1) (v2 & H2 & E2). unfold Spec.rewrites, mbind.
  rewrite H1, known_app.
  destruct (Spec.known u refs1); cbn [andb].
  - rewrite (E1 eq_refl), H2. eauto.
  - exists v1. split; [reflexivity|discriminate].
Qed.

(** A test [f in obj] before the code. *)
Lemma rewrites_contains (f : string) (k : bool -> M value unit) (d d' : dict)
    (refs : list Z) :
  Spec.rewrites u (k (dict_has d f)) d refs d' ->
  Spec.rewrites u (mbind (contains f) k) d refs d'.
Proof. intros H. exact H. Qed.

Lemma rewrites_skip (d : dict) : Spec.rewrites u (mret tt) d [] d.
Proof. exists (VDict d). split; [reflexivity|reflexivity]. Qed.

(** [if f in obj: obj[f] = updates[obj[f]]]. *)
Lemma rewrites_remap_if_present (f : string) (d : dict) :
  Spec.int_field d f = true ->
  Spec.rewrites u (remap_if_present u f) d (Spec.field_ref d f)
    (Spec.remap_dict u f d).
Proof.
  unfold Spec.int_field, Spec.rewrites, Spec.field_ref, Spec.remap_dict.
  unfold remap_if_present, remap, mbind, contains, getitem, lift, setitem,
    lookup, mret.
  cbn [py_contains]. unfold dict_has.
  destruct (dict_get d f) as [v|] eqn:Hget;
    [|eexists; split; reflexivity].
  destruct v; try discriminate. intros _.
  cbn [py_getitem]. rewrite Hget.
  cbn [hash_key Spec.known forallb].
  destruct (updates_get u (KInt z)); cbn [Spec.is_some andb].
  - eexists; split; reflexivity.
  - eexists; split; [reflexivity|discriminate].
Qed.

(** The frame of the rewriting steps: what they leave alone. *)
Lemma dict_get_remap_dict (f g : string) (d : dict) :
  f <> g -> dict_get (Spec.remap_dict u f d) g = dict_get d g.
Proof.
  intros Hfg. unfold Spec.remap_dict.
  destruct (dict_get d f) as [[| |r| | |]|]; try reflexivity.
  destruct (updates_get u (KInt r)); [|reflexivity].
  rewrite dict_get_set. destruct (String.eqb_spec f g); [contradiction|].
  reflexivity.
Qed.

Lemma dict_get_remap_nested (f g : string) (h : value -> value) (d : dict) :
  f <> g -> dict_get (Spec.remap_nested f h d) g = dict_get d g.
Proof.
  intros Hfg. unfold Spec.remap_nested.
  destruct (dict_get d f); [|reflexivity].
  rewrite dict_get_set. destruct (String.eqb_spec f g); [contradiction|].
  reflexivity.
Qed.

Lemma dict_get_remap_links (f g : string) (d : dict) :
  f <> g -> dict_get (Spec.remap_links u f d) g = dict_get d g.
Proof.
  intros Hfg. unfold Spec.remap_links.
  destruct (dict_get d f) as [[| | | |l|]|]; try reflexivity.
  rewrite dict_get_set. destruct (String.eqb_spec f g); [contradiction|].
  reflexivity.
Qed.

(** The members of [any] and [all]. *)
Lemma remap_members_spec (l : list value) :
  forallb Spec.wf_link l = true ->
  exists l',
    remap_members u l
    = (l', if Spec.known u (flat_map Spec.link_refs l)
           then Ok tt else Raise KeyError)
    /\ (Spec.known u (flat_map Spec.link_refs l) = true ->
        l' = map (Spec.remap_link u) l).
Proof.
  induction l as [|x l IH]; cbn [forallb remap_members flat_map map].
  - intros _. eexists; split; reflexivity.
  - intros H. apply andb_prop in H as [Hx Hl].
    destruct x as [| | | | |d]; try discriminate. cbn [Spec.wf_link] in Hx.
    destruct (rewrites_remap_if_present "ref" d Hx) as (v' & Hrun & Hv).
    rewrite Hrun. cbn [Spec.link_refs]. rewrite known_app.
    destruct (Spec.known u (Spec.field_ref d "ref")); cbn [andb].
    + rewrite (Hv eq_refl). destruct (IH Hl) as (l' & Hl' & El').
      rewrite Hl'. exists (VDict (Spec.remap_dict u "ref" d) :: l').
      split; [reflexivity|]. intros Hk. now rewrite (El' Hk).
    + eexists; split; [reflexivity|discriminate].
Qed.

(** [if op in ict: for idx in range(len(ict[op])): ...]. *)
Lemma rewrites_remap_op (op : string) (d : dict) :
  Spec.opt_field d op Spec.wf_links = true ->
  Spec.rewrites u (remap_op u op) d (Spec.links_refs d op)
    (Spec.remap_links u op d).
Proof.
  unfold Spec.opt_field, Spec.rewrites, Spec.links_refs, Spec.remap_links.
  unfold remap_op, mbind, contains, within, remap_items, mret.
  cbn [py_contains]. unfold dict_has.
  destruct (dict_get d op) as [v|] eqn:Hget;
    [|intros _; eexists; split; reflexivity].
  destruct v as [| | | |l|]; try discriminate. cbn [Spec.wf_links].
  intros Hl. destruct (remap_members_spec l Hl) as (l' & Hrun & El').
  rewrite Hget, Hrun. eexists. split; [reflexivity|].
  intros Hk. now rewrite (El' Hk).
Qed.

Lemma within_dict {A : Type} (f : string) (c : M value A) (d : dict)
    (sub : value) :
  dict_get d f = Some sub ->
  within f c (VDict d) = (VDict (dict_set d f (fst (c sub))), snd (c sub)).
Proof.
  intros Hf. unfold within. rewrite Hf. now destruct (c sub).
Qed.

(** [if "ref" in obj[f]: obj[f]["ref"] = updates[obj[f]["ref"]]]. *)
Lemma rewrites_remap_nested_ref (f : string) (d sd : dict) :
  dict_get d f = Some (VDict sd) ->
  Spec.int_field sd "ref" = true ->
  Spec.rewrites u (remap_nested_ref u f) d (Spec.field_ref sd "ref")
    (dict_set d f (VDict (Spec.remap_dict u "ref" sd))).
Proof.
  intros Hf Hsd.
  unfold Spec.rewrites, remap_nested_ref, mbind.
  rewrite (within_dict f _ d _ Hf). unfold contains. cbn [fst snd].
  rewrite (dict_set_same d f _ Hf). cbn [py_contains]. unfold dict_has.
  unfold Spec.field_ref, Spec.remap_dict.
  unfold Spec.int_field in Hsd.
  destruct (dict_get sd "ref") as [v|] eqn:Hget.
  - destruct v; try discriminate.
    rewrite (within_dict f _ d _ Hf).
    unfold remap, mbind, getitem, lift, lookup, setitem.
    cbn [py_getitem]. rewrite Hget.
    cbn [hash_key Spec.known forallb].
    destruct (updates_get u (KInt z)); cbn [Spec.is_some andb fst snd].
    + eexists; split; reflexivity.
    + eexists; split; [reflexivity|discriminate].
  - rewrite (dict_set_same d f _ Hf). eexists; split; reflexivity.
Qed.

(** Code run on the object under [f]. *)
Lemma rewrites_within (f : string) (c : M value unit) (d sd sd' : dict)
    (refs : list Z) :
  dict_get d f = Some (VDict sd) ->
  Spec.rewrites u c sd refs sd' ->
  Spec.rewrites u (within f c) d refs (dict_set d f (VDict sd')).
Proof.
  intros Hf (v' & Hrun & Hv). unfold Spec.rewrites.
  rewrite (within_dict f c d _ Hf), Hrun. cbn [fst snd].
  eexists. split; [reflexivity|]. intros Hk. now rewrite (Hv Hk).
Qed.

Lemma rewrites_ext (c : M value unit) (d d1 d2 : dict) (refs1 refs2 : list Z) :
  Spec.rewrites u c d refs1 d1 ->
  refs1 = refs2 -> d1 = d2 ->
  Spec.rewrites u c d refs2 d2.
Proof. now intros H <- <-. Qed.

Lemma links_refs_frame (d d' : dict) (op : string) :
  dict_get d' op = dict_get d op ->
  Spec.links_refs d' op = Spec.links_refs d op.
Proof. unfold Spec.links_refs. now intros ->. Qed.

Lemma field_ref_frame (d d' : dict) (f : string) :
  dict_get d' f = dict_get d f ->
  Spec.field_ref d' f = Spec.field_ref d f.
Proof. unfold Spec.field_ref. now intros ->. Qed.

Lemma int_field_frame (d d' : dict) (f : string) :
  dict_get d' f = dict_get d f ->
  Spec.int_field d' f = Spec.int_field d f.
Proof. unfold Spec.int_field. now intros ->. Qed.

Lemma opt_field_frame (d d' : dict) (f : string) (p : value -> bool) :
  dict_get d' f = dict_get d f ->
  Spec.opt_field d' f p = Spec.opt_field d f p.
Proof. unfold Spec.opt_field. now intros ->. Qed.

Lemma nested_refs_frame (d d' : dict) (f : string) (refs : value -> list Z) :
  dict_get d' f = dict_get d f ->
  Spec.nested_refs d' f refs = Spec.nested_refs d f refs.
Proof. unfold Spec.nested_refs. now intros ->. Qed.

(** The [is_connected_to] block. *)
Lemma rewrites_is_connected_to (d : dict) :
  Spec.opt_field d "is_connected_to" Spec.wf_connected = true ->
  Spec.rewrites u
    (if dict_has d "is_connected_to"
     then mbind (remap_nested_ref u "is_connected_to")
            (fun _ => within "is_connected_to"
                        (mbind (remap_op u "any")
                           (fun _ => remap_op u "all")))
     else mret tt)
    d (Spec.nested_refs d "is_connected_to" Spec.connected_refs)
    (Spec.remap_nested "is_connected_to" (Spec.remap_connected u) d).
Proof.
  unfold Spec.opt_field, dict_has, Spec.nested_refs, Spec.remap_nested.
  destruct (dict_get d "is_connected_to") as [v|] eqn:Hict;
    [|intros _; apply rewrites_skip].
  destruct v as [| | | | |sd]; try discriminate. cbn [Spec.wf_connected].
  intros H. apply andb_prop in H as [H Hall]. apply andb_prop in H as [Href Hany].
  cbn [Spec.connected_refs Spec.remap_connected].
  eapply rewrites_ext.
  - eapply rewrites_seq.
    + apply (rewrites_remap_nested_ref _ _ _ Hict Href).
    + eapply rewrites_within.
      * rewrite dict_get_set. cbn. reflexivity.
      * eapply rewrites_seq.
        -- apply rewrites_remap_op.
           rewrite (opt_field_frame sd); [exact Hany|].
           now apply dict_get_remap_dict.
        -- apply rewrites_remap_op.
           rewrite (opt_field_frame sd); [exact Hall|].
           rewrite dict_get_remap_links by discriminate.
           now apply dict_get_remap_dict.
  - f_equal. f_equal.
    + apply links_refs_frame. now apply dict_get_remap_dict.
    + apply links_refs_frame.
      rewrite dict_get_remap_links by discriminate.
      now apply dict_get_remap_dict.
  - now rewrite dict_set_set.
Qed.

(** The [connect] block. *)
Lemma rewrites_connect (d : dict) :
  Spec.opt_field d "connect" Spec.wf_link = true ->
  Spec.rewrites u
    (if dict_has d "connect" then remap_nested_ref u "connect" else mret tt)
    d (Spec.nested_refs d "connect" Spec.link_refs)
    (Spec.remap_nested "connect" (Spec.remap_link u) d).
Proof.
  unfold Spec.opt_field, dict_has, Spec.nested_refs, Spec.remap_nested.
  destruct (dict_get d "connect") as [v|] eqn:Hc;
    [|intros _; apply rewrites_skip].
  destruct v as [| | | | |sd]; try discriminate. cbn [Spec.wf_link].
  intros Href. cbn [Spec.link_refs Spec.remap_link].
  apply (rewrites_remap_nested_ref _ _ _ Hc Href).
Qed.

End Rewrites.

Ltac frame :=
  repeat first
    [ rewrite dict_get_remap_dict by discriminate
    | rewrite dict_get_remap_nested by discriminate
    | rewrite dict_get_remap_links by discriminate ].

(** [update_refs] on the pointer fields of a well-formed body. *)
Lemma rewrites_update_pointers (u : updates_t) (body : dict) :
  Spec.wf_body body = true ->
  Spec.rewrites u (update_pointers u) body (Spec.pointers body)
    (Spec.rewrite_pointers u body).
Proof.
  unfold Spec.wf_body. intros H.
  repeat (apply andb_prop in H as [H ?]).
  unfold update_pointers.
  eapply rewrites_ext.
  - eapply rewrites_seq; [apply rewrites_remap_if_present; eassumption|].
    eapply rewrites_seq.
    { apply rewrites_remap_if_present.
      unfold Spec.int_field in *. frame. assumption. }
    apply rewrites_contains. cbv beta.
    eapply rewrites_seq.
    { apply rewrites_is_connected_to.
      unfold Spec.opt_field in *. frame. assumption. }
    apply rewrites_contains. cbv beta.
    eapply rewrites_seq.
    { apply rewrites_connect.
      unfold Spec.opt_field in *. frame. assumption. }
    eapply rewrites_seq.
    { apply rewrites_remap_if_present.
      unfold Spec.int_field in *. frame. assumption. }
    eapply rewrites_seq.
    { apply rewrites_remap_if_present.
      unfold Spec.int_field in *. frame. assumption. }
    apply rewrites_remap_if_present.
    unfold Spec.int_field in *. frame. assumption.
  - unfold Spec.pointers, Spec.field_ref, Spec.nested_refs. frame.
    reflexivity.
  - reflexivity.
Qed.

(* ===================================================================== *)
(** ** Renumbering one command                                            *)
(* ===================================================================== *)

Lemma wf_body_number_ref (i : nat) (body : dict) :
  Spec.wf_body body = true ->
  Spec.wf_body (Spec.number_ref i body) = true
  /\ Spec.pointers (Spec.number_ref i body) = Spec.pointers body.
Proof.
  unfold Spec.number_ref. intros H.
  destruct (dict_get body "_ref") as [v|] eqn:Href; [|auto].
  split.
  - unfold Spec.wf_body, Spec.int_field, Spec.opt_field in *.
    rewrite !dict_get_set. cbn [String.eqb Ascii.eqb Bool.eqb].
    rewrite Href in H. destruct v; cbn [andb] in H; try discriminate.
    exact H.
  - unfold Spec.pointers, Spec.field_ref, Spec.nested_refs.
    rewrite !dict_get_set. reflexivity.
Qed.

(** [define_ref] on a body whose ["_ref"] is absent or an integer. *)
Lemma define_ref_spec (i : nat) (body : dict) (u : updates_t) :
  Spec.int_field body "_ref" = true ->
  define_ref i (VDict body, u)
  = ((VDict (Spec.number_ref i body), Spec.record_ref i body u),
     if dict_has body "_ref" && (100000 <=? Z.of_nat i + 1)
     then Raise AssertionError else Ok tt).
Proof.
  unfold Spec.int_field, define_ref, Spec.number_ref, Spec.record_ref, dict_has.
  cbn [py_contains]. unfold dict_has.
  destruct (dict_get body "_ref") as [v|] eqn:Href; [|reflexivity].
  destruct v; try discriminate. intros _.
  cbn [py_getitem]. rewrite Href. cbn [Py.bind hash_key setitem py_getitem].
  rewrite dict_get_set. cbn [String.eqb Ascii.eqb Bool.eqb andb].
  destruct (Z.ltb_spec (Z.of_nat i + 1) 100000);
    destruct (Z.leb_spec 100000 (Z.of_nat i + 1)); try lia; reflexivity.
Qed.

(** [update_values] on a well-formed body: the ref is recorded and
    overwritten, then the pointers are rewritten; the assertion fails from
    position 100000 on, and a pointer the table does not know raises
    [KeyError]. *)
Lemma update_values_spec (i : nat) (body : dict) (u : updates_t) :
  Spec.wf_body body = true ->
  exists v',
    update_values i (VDict body, u)
    = ((v', Spec.record_ref i body u),
       if dict_has body "_ref" && (100000 <=? Z.of_nat i + 1)
       then Raise AssertionError
       else if Spec.known (Spec.record_ref i body u) (Spec.pointers body)
            then Ok tt else Raise KeyError)
    /\ (dict_has body "_ref" && (100000 <=? Z.of_nat i + 1) = false ->
        Spec.known (Spec.record_ref i body u) (Spec.pointers body) = true ->
        v' = VDict (Spec.renumber_body i u body)).
Proof.
  intros Hwf.
  assert (Href : Spec.int_field body "_ref" = true).
  { unfold Spec.wf_body in Hwf. repeat (apply andb_prop in Hwf as [Hwf ?]).
    assumption. }
  unfold update_values, mbind. rewrite (define_ref_spec i body u Href).
  destruct (dict_has body "_ref" && (100000 <=? Z.of_nat i + 1)).
  - eexists. split; [reflexivity|discriminate].
  - destruct (wf_body_number_ref i body Hwf) as [Hwf' Hptr].
    destruct (rewrites_update_pointers (Spec.record_ref i body u) _ Hwf')
      as (v' & Hrun & Hv).
    rewrite Hptr in Hrun, Hv. rewrite Hrun.
    exists v'. split; [reflexivity|]. intros _ Hk. now apply Hv.
Qed.

(* ===================================================================== *)
(** ** The heap of command objects                                        *)
(* ===================================================================== *)

Lemma length_store (hp : heap) (a : addr) (v : value) :
  length (store hp a v) = length hp.
Proof.
  revert a; induction hp as [|x hp IH]; intros [|a]; cbn; auto.
Qed.

Lemma deref_store_same (hp : heap) (a : addr) (v : value) :
  (a < length hp)%nat -> deref (store hp a v) a = v.
Proof.
  unfold deref. revert a; induction hp as [|x hp IH]; intros [|a]; cbn;
    try lia; auto.
  intros H. apply IH. lia.
Qed.

Lemma deref_store_other (hp : heap) (a b : addr) (v : value) :
  a <> b -> deref (store hp a v) b = deref hp b.
Proof.
  unfold deref. revert a b; induction hp as [|x hp IH]; intros [|a] [|b];
    cbn; try congruence; auto.
Qed.

Lemma deref_valid (hp : heap) (a : addr) :
  deref hp a <> VNone -> (a < length hp)%nat.
Proof.
  unfold deref. intros H. destruct (Nat.ltb_spec a (length hp)); [assumption|].
  now rewrite nth_overflow in H by lia.
Qed.

Lemma map_deref_store (hp : heap) (a : addr) (v : value) (l : list addr) :
  ~ In a l -> map (deref (store hp a v)) l = map (deref hp) l.
Proof.
  intros Ha. apply map_ext_in. intros b Hb.
  apply deref_store_other. intros ->. contradiction.
Qed.

Lemma wf_command_shape (cmd : value) :
  Spec.wf_command cmd = true ->
  exists op body,
    cmd = VDict [(op, VDict body)] /\ Spec.wf_body body = true.
Proof.
  destruct cmd as [| | | | |[|[op [| | | | |body]] [|]]]; try discriminate.
  cbn. eauto.
Qed.

(* ===================================================================== *)
(** ** The loop of update_refs                                            *)
(* ===================================================================== *)

(** On distinct, well-formed commands, fewer than 100000 of them, the loop
    ends normally when every pointer is known as its command is reached,
    and raises [KeyError] otherwise; when it ends normally each command
    has been renumbered in place and nothing else has changed. *)
Lemma update_refs_loop_spec (l : list addr) :
  forall i hp u,
    NoDup l ->
    forallb Spec.wf_command (map (deref hp) l) = true ->
    Z.of_nat (i + length l) < 100000 ->
    exists hp' u',
      update_refs_loop i l (hp, u)
      = ((hp', u'),
         if Spec.all_known (map (deref hp) l) i u
         then Ok tt else Raise KeyError)
      /\ (Spec.all_known (map (deref hp) l) i u = true ->
          u' = Spec.table_after (map (deref hp) l) i u
          /\ (forall a, ~ In a l -> deref hp' a = deref hp a)
          /\ forall j a,
              nth_error l j = Some a ->
              exists op body,
                deref hp a = VDict [(op, VDict body)]
                /\ deref hp' a
                   = VDict [(op, VDict
                       (Spec.renumber_body (i + j)
                          (Spec.table_after
                             (firstn j (map (deref hp) l)) i u)
                          body))]).
Proof.
  induction l as [|a rest IH]; intros i hp u Hnd Hwf Hlen.
  - exists hp, u. split; [reflexivity|]. intros _.
    split; [reflexivity|]. split; [reflexivity|].
    intros [|j] b Hb; discriminate.
  - inversion Hnd as [|? ? Ha Hrest]; subst.
    cbn [map forallb] in Hwf. apply andb_prop in Hwf as [Hcmd Hwf].
    destruct (wf_command_shape _ Hcmd) as (op & body & Hderef & Hbody).
    assert (Hvalid : (a < length hp)%nat)
      by (apply deref_valid; rewrite Hderef; discriminate).
    cbn [update_refs_loop map Spec.all_known Spec.table_after].
    rewrite Hderef. cbn [Spec.body_of].
    destruct (update_values_spec i body u Hbody) as (v' & Hrun & Hv).
    rewrite Hrun.
    assert (Hno : dict_has body "_ref" && (100000 <=? Z.of_nat i + 1) = false).
    { cbn [length] in Hlen.
      destruct (Z.leb_spec 100000 (Z.of_nat i + 1)); [lia|].
      apply andb_false_r. }
    rewrite Hno in *. specialize (Hv eq_refl).
    destruct (Spec.known (Spec.record_ref i body u) (Spec.pointers body))
      eqn:Hknown; cbn [andb].
    + rewrite (Hv eq_refl).
      set (body' := Spec.renumber_body i u body).
      set (hp1 := store hp a (VDict [(op, VDict body')])).
      set (u1 := Spec.record_ref i body u).
      assert (Hmap : map (deref hp1) rest = map (deref hp) rest)
        by (apply map_deref_store; assumption).
      destruct (IH (S i) hp1 u1 Hrest) as (hp' & u' & Hloop & Hok).
      { now rewrite Hmap. }
      { cbn [length] in Hlen. lia. }
      rewrite Hmap in Hloop, Hok. rewrite Hloop.
      exists hp', u'. split; [reflexivity|].
      intros Hall. destruct (Hok Hall) as (Hu' & Hframe & Hcmds).
      split; [exact Hu'|]. split.
      * intros b Hb. rewrite Hframe by (intros ?; apply Hb; now right).
        apply deref_store_other. intros ->. apply Hb. now left.
      * intros [|j] b Hb.
        -- injection Hb as <-. exists op, body. split; [exact Hderef|].
           rewrite (Hframe a Ha). subst hp1.
           rewrite deref_store_same by assumption.
           cbn [map firstn Spec.table_after]. now rewrite Nat.add_0_r.
        -- cbn [nth_error] in Hb.
           destruct (Hcmds j b Hb) as (op' & body0 & Hd & Hd').
           assert (Hba : a <> b)
             by (intros ->; apply Ha; eapply nth_error_In; eassumption).
           exists op', body0. split.
           ++ rewrite <- Hd. subst hp1. symmetry.
              now apply deref_store_other.
           ++ rewrite Hd'. cbn [map firstn Spec.table_after Spec.body_of].
              now replace (i + S j)%nat with (S i + j)%nat by lia.
    + eexists _, _. split; [reflexivity|discriminate].
Qed.

(* ===================================================================== *)
(** ** The remap table and the defining commands                          *)
(* ===================================================================== *)

Lemma updates_get_set (u : updates_t) (k k' : key) (p : Z) :
  updates_get (updates_set u k p) k'
  = if key_eqb k k' then Some p else updates_get u k'.
Proof.
  induction u as [|[k0 p0] u IH]; cbn [updates_set updates_get].
  - reflexivity.
  - destruct (key_eqb k0 k) eqn:H0; cbn [updates_get].
    + apply key_eqb_eq in H0. subst k0.
      destruct (key_eqb k k'); reflexivity.
    + destruct (key_eqb k0 k') eqn:H1; [|exact IH].
      apply key_eqb_eq in H1. subst k0.
      destruct (key_eqb k k') eqn:H2; [|reflexivity].
      apply key_eqb_eq in H2. subst k. now rewrite key_eqb_refl in H0.
Qed.

Lemma record_ref_get (i : nat) (cmd : value) (u : updates_t) (r : Z) :
  updates_get (Spec.record_ref i (Spec.body_of cmd) u) (KInt r)
  = if Spec.defines cmd r then Some (Z.of_nat i + 1)
    else updates_get u (KInt r).
Proof.
  unfold Spec.record_ref, Spec.defines, Spec.defined_ref, Spec.body_of.
  destruct cmd as [| | | | |[|[op [| | | | |body]] [|]]]; try reflexivity.
  destruct (dict_get body "_ref") as [[| |r'| | |]|]; try reflexivity.
  rewrite updates_get_set. reflexivity.
Qed.

(** The table after some commands knows a ref by the last of them that
    defines it, and otherwise as before. *)
Lemma table_after_get (cmds : list value) (r : Z) :
  forall i u,
    updates_get (Spec.table_after cmds i u) (KInt r)
    = match Spec.last_definer cmds r (Z.of_nat i + 1) with
      | Some p => Some p
      | None => updates_get u (KInt r)
      end.
Proof.
  induction cmds as [|cmd rest IH]; intros i u;
    cbn [Spec.table_after Spec.last_definer]; [reflexivity|].
  rewrite IH, record_ref_get.
  replace (Z.of_nat (S i) + 1) with (Z.of_nat i + 1 + 1) by lia.
  destruct (Spec.last_definer rest r (Z.of_nat i + 1 + 1)); [reflexivity|].
  now destruct (Spec.defines cmd r).
Qed.

Lemma table_definer (cmds : list value) (n : nat) (r : Z) :
  updates_get (Spec.table_after (firstn n cmds) 0 []) (KInt r)
  = Spec.definer cmds n r.
Proof.
  rewrite table_after_get. unfold Spec.definer. cbn [Z.of_nat Z.add].
  now destruct (Spec.last_definer (firstn n cmds) r 1).
Qed.

Lemma forallb_ext {A : Type} (f g : A -> bool) (l : list A) :
  (forall x, f x = g x) -> forallb f l = forallb g l.
Proof.
  intros H. induction l as [|x l IH]; cbn; [reflexivity|].
  now rewrite H, IH.
Qed.

Lemma forallb_map_seq (f : nat -> bool) (s n : nat) :
  forallb f (seq (S s) n) = forallb (fun j => f (S j)) (seq s n).
Proof.
  revert s; induction n as [|n IH]; intros s; cbn [seq forallb];
    [reflexivity|].
  now rewrite IH.
Qed.

Lemma all_known_indexed (l : list value) :
  forall i u,
    Spec.all_known l i u
    = forallb (fun j =>
                 Spec.known (Spec.table_after (firstn (S j) l) i u)
                   (Spec.pointers (Spec.body_of (nth j l VNone))))
        (seq 0 (length l)).
Proof.
  induction l as [|cmd rest IH]; intros i u; [reflexivity|].
  cbn [Spec.all_known length seq forallb firstn nth Spec.table_after].
  rewrite forallb_map_seq, IH. reflexivity.
Qed.

Lemma pointers_nil : Spec.pointers [] = [].
Proof. reflexivity. Qed.

(** The pointers are known along the way exactly when every command finds
    its pointers defined by itself or by a command before it. *)
Lemma all_known_resolved (cmds : list value) :
  Spec.all_known cmds 0 [] = Spec.resolved cmds.
Proof.
  rewrite all_known_indexed. unfold Spec.resolved.
  apply forallb_ext. intros j. unfold Spec.resolved_at, Spec.known.
  assert (Hk : forall refs,
             forallb (fun r => Spec.is_some
                                 (updates_get
                                    (Spec.table_after (firstn (S j) cmds) 0 [])
                                    (KInt r))) refs
             = forallb (fun r => Spec.is_some (Spec.definer cmds (S j) r))
                 refs).
  { intros refs. apply forallb_ext. intros r. now rewrite table_definer. }
  rewrite Hk.
  destruct (nth j cmds VNone) as [| | | | |[|[op [| | | | |body]] [|]]];
    reflexivity.
Qed.

(* ===================================================================== *)
(** ** What renumbering does to the fields of a command                   *)
(* ===================================================================== *)

Section Renumbered.

Variable u : updates_t.

Let tbl : Z -> option Z := fun r => updates_get u (KInt r).

Lemma known_In (refs : list Z) (r : Z) :
  Spec.known u refs = true -> In r refs -> exists p, tbl r = Some p.
Proof.
  unfold Spec.known. intros H Hin.
  rewrite forallb_forall in H. specialize (H r Hin).
  subst tbl. cbv beta. destruct (updates_get u (KInt r)); [eauto|discriminate].
Qed.

Lemma remap_dict_keys (f : string) (d : dict) :
  map fst (Spec.remap_dict u f d) = map fst d.
Proof.
  unfold Spec.remap_dict.
  destruct (dict_get d f) as [[| |r| | |]|] eqn:Hf; try reflexivity.
  destruct (updates_get u (KInt r)); [|reflexivity].
  apply dict_set_keys. congruence.
Qed.

Lemma remap_nested_keys (f : string) (h : value -> value) (d : dict) :
  map fst (Spec.remap_nested f h d) = map fst d.
Proof.
  unfold Spec.remap_nested.
  destruct (dict_get d f) eqn:Hf; [|reflexivity].
  apply dict_set_keys. congruence.
Qed.

Lemma dict_get_remap_dict_same (f : string) (d : dict) :
  dict_get (Spec.remap_dict u f d) f
  = match dict_get d f with
    | Some (VInt r) =>
        match tbl r with
        | Some p => Some (VInt p)
        | None => Some (VInt r)
        end
    | other => other
    end.
Proof.
  unfold Spec.remap_dict. subst tbl. cbv beta.
  destruct (dict_get d f) as [[| |r| | |]|] eqn:Hf; try exact Hf.
  destruct (updates_get u (KInt r)); [|exact Hf].
  rewrite dict_get_set. now rewrite String.eqb_refl.
Qed.

Lemma dict_get_remap_nested_same (f : string) (h : value -> value) (d : dict) :
  dict_get (Spec.remap_nested f h d) f = option_map h (dict_get d f).
Proof.
  unfold Spec.remap_nested.
  destruct (dict_get d f) as [v|] eqn:Hf; cbn [option_map]; [|exact Hf].
  rewrite dict_get_set. now rewrite String.eqb_refl.
Qed.

Lemma dict_get_remap_links_same (op : string) (d : dict) :
  dict_get (Spec.remap_links u op d) op
  = match dict_get d op with
    | Some (VList l) => Some (VList (map (Spec.remap_link u) l))
    | other => other
    end.
Proof.
  unfold Spec.remap_links.
  destruct (dict_get d op) as [[| | | |l|]|] eqn:Hf; try exact Hf.
  rewrite dict_get_set. now rewrite String.eqb_refl.
Qed.

Lemma pointer_renumbered_remap (d : dict) (f : string) :
  Spec.known u (Spec.field_ref d f) = true ->
  Spec.pointer_renumbered tbl d (Spec.remap_dict u f d) f.
Proof.
  intros Hk r Hr. unfold Spec.field_ref in Hk. rewrite Hr in Hk.
  destruct (known_In [r] r Hk (or_introl eq_refl)) as [p Hp].
  exists p. split; [exact Hp|].
  rewrite dict_get_remap_dict_same, Hr, Hp. reflexivity.
Qed.

Lemma link_renumbered_remap (x : value) :
  Spec.wf_link x = true ->
  Spec.known u (Spec.link_refs x) = true ->
  Spec.link_renumbered tbl x (Spec.remap_link u x).
Proof.
  destruct x as [| | | | |d]; try discriminate.
  cbn [Spec.wf_link Spec.link_refs Spec.remap_link]. intros _ Hk.
  exists d, (Spec.remap_dict u "ref" d).
  split; [reflexivity|]. split; [reflexivity|]. split.
  - now apply pointer_renumbered_remap.
  - intros g Hg. apply dict_get_remap_dict. congruence.
Qed.

Lemma links_renumbered_map (l : list value) :
  forallb Spec.wf_link l = true ->
  Spec.known u (flat_map Spec.link_refs l) = true ->
  Forall2 (Spec.link_renumbered tbl) l (map (Spec.remap_link u) l).
Proof.
  induction l as [|x l IH]; cbn [forallb flat_map map]; intros Hwf Hk.
  - constructor.
  - apply andb_prop in Hwf as [Hx Hl].
    rewrite known_app in Hk. apply andb_prop in Hk as [Hkx Hkl].
    constructor; [now apply link_renumbered_remap|now apply IH].
Qed.

Lemma connected_renumbered_remap (ict : dict) :
  Spec.wf_connected (VDict ict) = true ->
  Spec.known u (Spec.connected_refs (VDict ict)) = true ->
  Spec.connected_renumbered tbl ict
    (Spec.remap_links u "all"
       (Spec.remap_links u "any" (Spec.remap_dict u "ref" ict))).
Proof.
  cbn [Spec.wf_connected Spec.connected_refs]. intros Hwf Hk.
  apply andb_prop in Hwf as [Hwf Hall]. apply andb_prop in Hwf as [Href Hany].
  rewrite !known_app in Hk.
  apply andb_prop in Hk as [Hkref Hk]. apply andb_prop in Hk as [Hkany Hkall].
  split; [|split].
  - intros r Hr.
    destruct (pointer_renumbered_remap ict "ref" Hkref r Hr) as (p & Hp & Hget).
    exists p. split; [exact Hp|].
    now rewrite !dict_get_remap_links by discriminate.
  - intros op Hop items Hitems.
    unfold Spec.opt_field, Spec.links_refs in *.
    destruct Hop as [<-|[<-|[]]].
    + rewrite Hitems in Hany, Hkany. cbn [Spec.wf_links] in Hany.
      exists (map (Spec.remap_link u) items). split.
      * rewrite dict_get_remap_links by discriminate.
        rewrite dict_get_remap_links_same.
        rewrite dict_get_remap_dict by discriminate. now rewrite Hitems.
      * now apply links_renumbered_map.
    + rewrite Hitems in Hall, Hkall. cbn [Spec.wf_links] in Hall.
      exists (map (Spec.remap_link u) items). split.
      * rewrite dict_get_remap_links_same.
        rewrite dict_get_remap_links by discriminate.
        rewrite dict_get_remap_dict by discriminate. now rewrite Hitems.
      * now apply links_renumbered_map.
  - intros g Hg.
    rewrite !dict_get_remap_links, dict_get_remap_dict;
      [reflexivity|intros <-; apply Hg; cbn; tauto..].
Qed.

End Renumbered.

Lemma dict_get_number_ref (i : nat) (body : dict) (f : string) :
  f <> "_ref" -> dict_get (Spec.number_ref i body) f = dict_get body f.
Proof.
  intros Hf. unfold Spec.number_ref.
  destruct (dict_get body "_ref"); [|reflexivity].
  rewrite dict_get_set.
  destruct (String.eqb_spec "_ref" f); [congruence|reflexivity].
Qed.

Lemma number_ref_keys (i : nat) (body : dict) :
  map fst (Spec.number_ref i body) = map fst body.
Proof.
  unfold Spec.number_ref.
  destruct (dict_get body "_ref") eqn:Href; [|reflexivity].
  apply dict_set_keys. congruence.
Qed.

Ltac read_field :=
  repeat first
    [ rewrite dict_get_remap_dict by discriminate
    | rewrite dict_get_remap_nested by discriminate
    | rewrite dict_get_remap_dict_same
    | rewrite dict_get_remap_nested_same
    | rewrite dict_get_number_ref by discriminate ].

(** A well-formed body whose pointers the table knows is renumbered as
    the claim says. *)
Lemma renumber_body_renumbered (i : nat) (u : updates_t) (body : dict) :
  Spec.wf_body body = true ->
  Spec.known (Spec.record_ref i body u) (Spec.pointers body) = true ->
  Spec.renumbered
    (fun r => updates_get (Spec.record_ref i body u) (KInt r))
    (Z.of_nat i + 1) body (Spec.renumber_body i u body).
Proof.
  intros Hwf Hk. unfold Spec.renumber_body, Spec.rewrite_pointers.
  set (u' := Spec.record_ref i body u) in *.
  unfold Spec.wf_body in Hwf.
  repeat (apply andb_prop in Hwf as [Hwf ?]).
  unfold Spec.pointers in Hk. rewrite !known_app in Hk.
  repeat (apply andb_prop in Hk as [? Hk]).
  assert (Hsimple : forall f,
             f <> "_ref" ->
             Spec.known u' (Spec.field_ref body f) = true ->
             forall r, dict_get body f = Some (VInt r) ->
                       exists p, updates_get u' (KInt r) = Some p).
  { intros f _ Hkf r Hr. unfold Spec.field_ref in Hkf. rewrite Hr in Hkf.
    exact (known_In u' [r] r Hkf (or_introl eq_refl)). }
  split; [|split; [|split; [|split; [|split]]]].
  - now rewrite !remap_dict_keys, !remap_nested_keys, !remap_dict_keys,
      number_ref_keys.
  - intros Href. read_field. unfold Spec.number_ref.
    destruct (dict_get body "_ref"); [|congruence].
    rewrite dict_get_set. reflexivity.
  - intros f Hf r Hr.
    destruct Hf as [<-|[<-|[<-|[<-|[<-|[]]]]]];
      (edestruct Hsimple as [p Hp];
       [| |exact Hr|]; [discriminate|assumption|];
       exists p; split; [exact Hp|];
       read_field; rewrite Hr, Hp; reflexivity).
  - intros c Hc. exists (Spec.remap_dict u' "ref" c). split.
    + read_field. rewrite Hc. reflexivity.
    + apply (link_renumbered_remap u' (VDict c)).
      * unfold Spec.opt_field in *. now rewrite Hc in *.
      * unfold Spec.nested_refs in *. now rewrite Hc in *.
  - intros ict Hict. eexists. split.
    + read_field. rewrite Hict. reflexivity.
    + apply connected_renumbered_remap.
      * unfold Spec.opt_field in *. now rewrite Hict in *.
      * unfold Spec.nested_refs in *. now rewrite Hict in *.
  - intros f Hf.
    rewrite !dict_get_remap_dict, !dict_get_remap_nested, !dict_get_remap_dict,
      dict_get_number_ref;
      [reflexivity|intros E; subst f; apply Hf; cbn; tauto..].
Qed.

(** The properties depend on the positions the table gives only. *)
Lemma pointer_renumbered_ext (tbl tbl' : Z -> option Z) (d d' : dict)
    (f : string) :
  (forall r, tbl r = tbl' r) ->
  Spec.pointer_renumbered tbl d d' f -> Spec.pointer_renumbered tbl' d d' f.
Proof.
  intros Hext H r Hr. destruct (H r Hr) as (p & Hp & Hget).
  exists p. now rewrite <- Hext.
Qed.

Lemma link_renumbered_ext (tbl tbl' : Z -> option Z) (x x' : value) :
  (forall r, tbl r = tbl' r) ->
  Spec.link_renumbered tbl x x' -> Spec.link_renumbered tbl' x x'.
Proof.
  intros Hext (d & d' & -> & -> & Hp & Hframe).
  exists d, d'. repeat split; auto.
  now apply (pointer_renumbered_ext tbl).
Qed.

Lemma renumbered_ext (tbl tbl' : Z -> option Z) (pos : Z) (body body' : dict) :
  (forall r, tbl r = tbl' r) ->
  Spec.renumbered tbl pos body body' -> Spec.renumbered tbl' pos body body'.
Proof.
  intros Hext (Hkeys & Href & Hptr & Hcon & Hict & Hframe).
  split; [exact Hkeys|]. split; [exact Href|]. split; [|split; [|split]].
  - intros f Hf. now apply (pointer_renumbered_ext tbl), Hptr.
  - intros c Hc. destruct (Hcon c Hc) as (c' & Hget & Hlink).
    exists c'. split; [exact Hget|]. now apply (link_renumbered_ext tbl).
  - intros ict Hi. destruct (Hict ict Hi) as (ict' & Hget & Hp & Hops & Hfr).
    exists ict'. split; [exact Hget|]. split; [|split].
    + now apply (pointer_renumbered_ext tbl).
    + intros op Hop items Hitems.
      destruct (Hops op Hop items Hitems) as (items' & Hget' & Hall).
      exists items'. split; [exact Hget'|].
      eapply Forall2_impl; [|exact Hall].
      intros x x'. now apply link_renumbered_ext.
    + exact Hfr.
  - exact Hframe.
Qed.

Lemma table_after_app (l1 l2 : list value) :
  forall i u,
    Spec.table_after (l1 ++ l2) i u
    = Spec.table_after l2 (i + length l1) (Spec.table_after l1 i u).
Proof.
  induction l1 as [|cmd l1 IH]; intros i u; cbn [app Spec.table_after length].
  - now rewrite Nat.add_0_r.
  - rewrite IH. now replace (S i + length l1)%nat with (i + S (length l1))%nat
      by lia.
Qed.

Lemma firstn_S_nth {A : Type} (l : list A) (j : nat) (x d : A) :
  nth_error l j = Some x -> firstn (S j) l = firstn j l ++ [x].
Proof.
  revert j; induction l as [|y l IH]; intros [|j];
    cbn [nth_error]; try discriminate.
  - now intros [= ->].
  - intros H. change (firstn (S (S j)) (y :: l)) with (y :: firstn (S j) l).
    now rewrite (IH j H).
Qed.

Lemma table_after_step (cmds : list value) (j : nat) (cmd : value) :
  nth_error cmds j = Some cmd ->
  Spec.table_after (firstn (S j) cmds) 0 []
  = Spec.record_ref j (Spec.body_of cmd)
      (Spec.table_after (firstn j cmds) 0 []).
Proof.
  intros Hj. rewrite (firstn_S_nth cmds j cmd VNone Hj), table_after_app.
  cbn [Spec.table_after]. rewrite length_firstn.
  assert (j < length cmds)%nat
    by (apply nth_error_Some; congruence).
  now replace (0 + Nat.min j (length cmds))%nat with j by lia.
Qed.

(** [generate_batch] on distinct, well-formed commands. *)
Lemma generate_batch_spec (data : list record) (hp : heap) :
  let addrs := flat_map fst data in
  let cmds := map (deref hp) addrs in
  NoDup addrs ->
  forallb Spec.wf_command cmds = true ->
  Z.of_nat (length addrs) < 100000 ->
  exists hp',
    generate_batch data hp
    = (hp', if Spec.resolved cmds
            then Ok (addrs, flat_map snd data) else Raise KeyError)
    /\ (Spec.resolved cmds = true ->
        (forall a, ~ In a addrs -> deref hp' a = deref hp a)
        /\ forall i a,
            nth_error addrs i = Some a ->
            exists op body body',
              deref hp a = VDict [(op, VDict body)]
              /\ deref hp' a = VDict [(op, VDict body')]
              /\ Spec.renumbered (Spec.definer cmds (S i))
                   (Z.of_nat i + 1) body body').
Proof.
  intros addrs cmds Hnd Hwf Hlen.
  destruct (update_refs_loop_spec addrs 0 hp [] Hnd Hwf Hlen)
    as (hp' & u' & Hloop & Hok).
  fold cmds in Hloop, Hok. rewrite all_known_resolved in Hloop, Hok.
  exists hp'. split.
  - unfold generate_batch, update_refs. fold addrs. rewrite Hloop.
    now destruct (Spec.resolved cmds).
  - intros Hres. destruct (Hok Hres) as (_ & Hframe & Hcmds).
    split; [exact Hframe|].
    intros i a Hi. destruct (Hcmds i a Hi) as (op & body & Hd & Hd').
    cbn [Nat.add] in Hd'.
    eexists op, body, _. split; [exact Hd|]. split; [exact Hd'|].
    assert (Hcmd : nth_error cmds i = Some (VDict [(op, VDict body)])).
    { subst cmds. rewrite nth_error_map, Hi. cbn. now rewrite Hd. }
    assert (Hbody : Spec.wf_body body = true).
    { rewrite forallb_forall in Hwf.
      apply (Hwf (VDict [(op, VDict body)])).
      eapply nth_error_In; eassumption. }
    pose proof (table_after_step cmds i _ Hcmd) as Hstep.
    cbn [Spec.body_of] in Hstep.
    assert (Hknown : Spec.known
                       (Spec.record_ref i body
                          (Spec.table_after (firstn i cmds) 0 []))
                       (Spec.pointers body) = true).
    { rewrite <- all_known_resolved, all_known_indexed in Hres.
      rewrite forallb_forall in Hres.
      assert (Hin : In i (seq 0 (length cmds))).
      { apply in_seq. split; [lia|]. cbn.
        apply nth_error_Some. congruence. }
      specialize (Hres i Hin). rewrite Hstep in Hres.
      now rewrite (nth_error_nth cmds i VNone Hcmd) in Hres. }
    eapply renumbered_ext;
      [|apply renumber_body_renumbered; [exact Hbody|exact Hknown]].
    intros r. cbv beta. now rewrite <- Hstep, table_definer.
Qed.

(** [last_definer] finds the last command that defines the ref. *)
Lemma last_definer_spec (l : list value) (r : Z) :
  forall pos p,
    Spec.last_definer l r pos = Some p ->
    exists j,
      (j < length l)%nat /\ p = pos + Z.of_nat j
      /\ Spec.defines (nth j l VNone) r = true
      /\ forall j', (j < j' < length l)%nat ->
                    Spec.defines (nth j' l VNone) r = false.
Proof.
  induction l as [|cmd rest IH]; intros pos p; cbn [Spec.last_definer];
    [discriminate|].
  destruct (Spec.last_definer rest r (pos + 1)) as [p'|] eqn:Hrest.
  - intros [= <-]. destruct (IH _ _ Hrest) as (j & Hj & -> & Hdef & Hlast).
    exists (S j). cbn [length nth]. repeat split; try lia; [exact Hdef|].
    intros [|j'] Hj'; [lia|]. apply Hlast. lia.
  - destruct (Spec.defines cmd r) eqn:Hcmd; [|discriminate].
    intros [= <-]. exists 0%nat. cbn [length nth].
    repeat split; try lia; [exact Hcmd|].
    intros [|j'] Hj'; [lia|]. cbn [nth].
    clear -Hrest Hj'. assert (Hlt : (j' < length rest)%nat) by lia.
    clear Hj'. revert pos j' Hrest Hlt.
    induction rest as [|c rest IH]; intros pos j' Hrest Hlt;
      [cbn in Hlt; lia|].
    cbn [Spec.last_definer] in Hrest.
    destruct (Spec.last_definer rest r (pos + 1 + 1)) eqn:Hr; [discriminate|].
    destruct (Spec.defines c r) eqn:Hc; [discriminate|].
    destruct j' as [|j']; [exact Hc|]. cbn [nth].
    apply (IH (pos + 1)); [exact Hr|cbn in Hlt; lia].
Qed.

(** The position [definer cmds n r] is that of one of the first [n]
    commands, which defines [r], and none of those after it does. *)
Lemma definer_latest (cmds : list value) (n : nat) (r p : Z) :
  Spec.definer cmds n r = Some p ->
  exists j,
    (j < n)%nat /\ p = Z.of_nat j + 1
    /\ Spec.defines (nth j cmds VNone) r = true
    /\ forall j', (j < j' < n)%nat -> (j' < length cmds)%nat ->
                  Spec.defines (nth j' cmds VNone) r = false.
Proof.
  unfold Spec.definer. intros H.
  destruct (last_definer_spec _ _ _ _ H) as (j & Hj & -> & Hdef & Hlast).
  rewrite length_firstn in Hj.
  exists j. split; [lia|]. split; [lia|]. split.
  - rewrite nth_firstn in Hdef.
    destruct (Nat.ltb_spec j n); [exact Hdef|lia].
  - intros j' Hj' Hlen.
    specialize (Hlast j'). rewrite length_firstn in Hlast.
    rewrite nth_firstn in Hlast.
    destruct (Nat.ltb_spec j' n); [|lia]. apply Hlast. lia.
Qed.

(* ===================================================================== *)
(** ** Batch assembly                                                     *)
(* ===================================================================== *)

(** Two records with record-local refs: an image with its bounding box,
    then an image, an entity connected to it and a connection. *)
Module Example_batch.

Definition hp : heap :=
  [ VDict [("AddImage", VDict [("_ref", VInt 1)])];
    VDict [("AddBoundingBox", VDict [("image_ref", VInt 1); ("_ref", VInt 2)])];
    VDict [("AddImage", VDict [("_ref", VInt 1)])];
    VDict [("FindEntity",
            VDict [("_ref", VInt 2);
                   ("is_connected_to",
                    VDict [("ref", VInt 1);
                           ("any", VList [VDict [("ref", VInt 1)]])])])];
    VDict [("AddConnection",
            VDict [("class", VStr "has");
                   ("src", VInt 1); ("dst", VInt 2);
                   ("connect", VDict [("ref", VInt 2)])])] ].

Definition data : list record :=
  [ ([0; 1]%nat, ["img0"]); ([2; 3; 4]%nat, ["img1"]) ].

(** The same command object handed out in two records. *)
Definition shared_hp : heap := [VDict [("AddEntity", VDict [("_ref", VInt 1)])]].
Definition shared_data : list record := [ ([0%nat], []); ([0%nat], []) ].

(** A list-shaped command before a command with an undefined pointer. *)
Definition opaque_hp : heap :=
  [ VList []; VDict [("AddImage", VDict [("image_ref", VInt 7)])] ].
Definition opaque_data : list record := [ ([0; 1]%nat, []) ].

(** A command whose pointer no command defines. *)
Definition dangling_hp : heap :=
  [ VDict [("AddImage", VDict [("_ref", VInt 1)])];
    VDict [("AddBoundingBox", VDict [("image_ref", VInt 5)])] ].
Definition dangling_data : list record := [ ([0; 1]%nat, []) ].

End Example_batch.



(** The batch of the example, assembled: refs 1 to 4 by position, and each
    pointer on the position of the image or entity of its own record. *)
Example generate_batch_example :
  let out := generate_batch Example_batch.data Example_batch.hp in
  snd out = Ok ([0; 1; 2; 3; 4]%nat, ["img0"; "img1"])
  /\ fst out
     = [ VDict [("AddImage", VDict [("_ref", VInt 1)])];
         VDict [("AddBoundingBox",
                 VDict [("image_ref", VInt 1); ("_ref", VInt 2)])];
         VDict [("AddImage", VDict [("_ref", VInt 3)])];
         VDict [("FindEntity",
                 VDict [("_ref", VInt 4);
                        ("is_connected_to",
                         VDict [("ref", VInt 3);
                                ("any", VList [VDict [("ref", VInt 3)]])])])];
         VDict [("AddConnection",
                 VDict [("class", VStr "has");
                        ("src", VInt 3); ("dst", VInt 4);
                        ("connect", VDict [("ref", VInt 4)])])] ].
Proof. cbv zeta. split; reflexivity. Qed.


(** A batch whose assembly raises: [do_batch] stops there and the worker
    counts one error and goes on, when the exception is an [Exception]. *)
Lemma worker_batch_assembly_raises (cfg : pq_config) (gen : generator)
    (db : nat -> list value -> list blob -> reply)
    (start end_ : Z) (i : nat) (st : pq_state) (hp' : heap) (e : exn) :
  let batch_start := start + Z.of_nat i * batchsize cfg in
  let batch_end := Z.min (batch_start + batchsize cfg) end_ in
  let data := py_slice (gen_records gen) batch_start batch_end in
  generate_batch data (st_heap st) = (hp', Raise e) ->
  do_batch cfg gen (db i) batch_start data st = (with_heap st hp', Raise e)
  /\ (is_Exception e = true ->
      worker_batch cfg gen db start end_ i st
      = (after_failure st hp' batch_start batch_end e, Ok tt)).
Proof.
  intros batch_start batch_end data Hgen.
  assert (Hdo : do_batch cfg gen (db i) batch_start data st
                = (with_heap st hp', Raise e))
    by (unfold do_batch; now rewrite Hgen).
  split; [exact Hdo|].
  intros He. unfold worker_batch.
  fold batch_start. fold batch_end. fold data.
  now rewrite Hdo, He.
Qed.


(** A generator and a connection for the batches of the examples. *)
Module Example_worker.

Definition cfg : pq_config :=
  {| dry_run := false;
     commands_per_query := 2;
     blobs_per_query := 0;
     batchsize := 1;
     success_statuses := [0; 2] |}.

Definition gen (records : list record) : generator :=
  {| gen_records := records;
     gen_response_handler := None;
     gen_strict_response_validation := None |}.

Definition db : nat -> list value -> list blob -> reply :=
  fun _ q _ =>
    mk_reply (VList (map (fun _ => VDict [("Add", VDict [("status", VInt 0)])]) q))
      [] true 0%Q.

End Example_worker.



(* ===================================================================== *)
(** ** The assertion on renumbered refs                                   *)
(* ===================================================================== *)

(** Code that never raises [AssertionError]. *)
Definition quiet {S A : Type} (c : M S A) : Prop :=
  forall s, snd (c s) <> Raise AssertionError.

Lemma quiet_bind {S A B : Type} (c : M S A) (f : A -> M S B) :
  quiet c -> (forall a, quiet (f a)) -> quiet (mbind c f).
Proof.
  intros Hc Hf s. unfold mbind. specialize (Hc s).
  destruct (c s) as [s' [a|e]]; [apply Hf|].
  cbn [snd] in *. intros [= ->]. now apply Hc.
Qed.

Lemma quiet_mret {S A : Type} (a : A) : quiet (@mret S A a).
Proof. intros s. discriminate. Qed.

Lemma quiet_contains (k : string) : quiet (contains k).
Proof. intros [| | | | |]; discriminate. Qed.

Lemma quiet_getitem (k : string) : quiet (getitem k).
Proof.
  intros [| | | | |d]; try discriminate.
  unfold getitem, py_getitem. cbn [snd]. destruct (dict_get d k); discriminate.
Qed.

Lemma quiet_setitem (k : string) (x : value) : quiet (setitem k x).
Proof. intros [| | | | |]; discriminate. Qed.

Lemma quiet_lookup (u : updates_t) (v : value) :
  quiet (@lift value Z (lookup u v)).
Proof.
  intros s. unfold lift, lookup. cbn [snd].
  destruct (hash_key v) as [k|e] eqn:Hk.
  - destruct (updates_get u k); discriminate.
  - destruct v; cbn in Hk; congruence.
Qed.

Lemma quiet_within {A : Type} (k : string) (c : M value A) :
  quiet c -> quiet (within k c).
Proof.
  intros Hc [| | | | |d]; try discriminate.
  unfold within. destruct (dict_get d k) as [sub|]; [|discriminate].
  specialize (Hc sub). now destruct (c sub).
Qed.

Lemma quiet_remap (u : updates_t) (f : string) : quiet (remap u f).
Proof.
  apply quiet_bind; [apply quiet_getitem|]. intros old.
  apply quiet_bind; [apply quiet_lookup|]. intros p. apply quiet_setitem.
Qed.

Lemma quiet_remap_if_present (u : updates_t) (f : string) :
  quiet (remap_if_present u f).
Proof.
  apply quiet_bind; [apply quiet_contains|].
  intros [|]; [apply quiet_remap|apply quiet_mret].
Qed.

Lemma remap_members_quiet (u : updates_t) (l : list value) :
  snd (remap_members u l) <> Raise AssertionError.
Proof.
  induction l as [|x l IH]; cbn [remap_members]; [discriminate|].
  pose proof (quiet_remap_if_present u "ref" x) as Hx.
  destruct (remap_if_present u "ref" x) as [x' [t|e]]; [|exact Hx].
  now destruct (remap_members u l).
Qed.

Lemma quiet_remap_items (u : updates_t) : quiet (remap_items u).
Proof.
  intros [| | | |l|[|]]; try discriminate.
  unfold remap_items. pose proof (remap_members_quiet u l).
  now destruct (remap_members u l).
Qed.

Lemma quiet_remap_op (u : updates_t) (op : string) : quiet (remap_op u op).
Proof.
  apply quiet_bind; [apply quiet_contains|].
  intros [|]; [apply quiet_within, quiet_remap_items|apply quiet_mret].
Qed.

Lemma quiet_remap_nested_ref (u : updates_t) (f : string) :
  quiet (remap_nested_ref u f).
Proof.
  apply quiet_bind; [apply quiet_within, quiet_contains|].
  intros [|]; [apply quiet_within, quiet_remap|apply quiet_mret].
Qed.

Lemma quiet_update_pointers (u : updates_t) : quiet (update_pointers u).
Proof.
  unfold update_pointers.
  repeat first
    [ apply quiet_remap_if_present
    | apply quiet_remap_nested_ref
    | apply quiet_remap_op
    | apply quiet_contains
    | apply quiet_mret
    | apply quiet_within
    | apply quiet_bind
    | intros [|]
    | intros _ ].
Qed.

(** The positions of a table are those of commands below 100000. *)
Definition bounded (u : updates_t) : Prop :=
  forall k p, updates_get u k = Some p -> 0 < p < 100000.

(** [define_ref] raises [AssertionError] from position 100000 on only, and
    records positions below 100000 when it returns. *)
Lemma define_ref_assert (i : nat) (values : value) (u : updates_t) :
  (snd (define_ref i (values, u)) = Raise AssertionError ->
   100000 <= Z.of_nat i + 1)
  /\ (snd (define_ref i (values, u)) = Ok tt ->
      bounded u -> bounded (snd (fst (define_ref i (values, u))))).
Proof.
  unfold define_ref.
  destruct (py_contains "_ref" values) as [[|]|e] eqn:Hc;
    cbn [fst snd]; try (split; [discriminate|auto]).
  2:{ split; [|discriminate]. destruct values; cbn in Hc; congruence. }
  destruct (Py.bind (py_getitem values "_ref") hash_key) as [k|e] eqn:Hk;
    cbn [fst snd].
  2:{ split; [|discriminate]. intros [= ->].
      destruct values as [| | | | |d]; cbn in Hk; try discriminate.
      destruct (dict_get d "_ref") as [v|]; cbn in Hk; [|discriminate].
      destruct v; cbn in Hk; discriminate. }
  destruct values as [| | | | |d]; cbn [setitem fst snd];
    try (split; discriminate).
  cbn [py_getitem]. rewrite dict_get_set. cbn [String.eqb Ascii.eqb Bool.eqb].
  destruct (Z.ltb_spec (Z.of_nat i + 1) 100000); cbn [fst snd].
  - split; [discriminate|]. intros _ Hu k' p.
    rewrite updates_get_set. destruct (key_eqb k k'); [|apply Hu].
    intros [= <-]. lia.
  - split; [intros _; lia|discriminate].
Qed.

Lemma update_values_assert (i : nat) (values : value) (u : updates_t) :
  (snd (update_values i (values, u)) = Raise AssertionError ->
   100000 <= Z.of_nat i + 1)
  /\ (snd (update_values i (values, u)) = Ok tt ->
      bounded u -> bounded (snd (fst (update_values i (values, u))))).
Proof.
  unfold update_values, mbind.
  destruct (define_ref_assert i values u) as [Ha Hb].
  destruct (define_ref i (values, u)) as [[values' u'] [t|e]]; cbn [fst snd] in *.
  - pose proof (quiet_update_pointers u' values') as Hq.
    destruct (update_pointers u' values') as [v'' r]; cbn [fst snd] in *.
    split; [intros; contradiction|]. intros _ Hu.
    apply Hb; [now destruct t|exact Hu].
  - split; [exact Ha|discriminate].
Qed.

Lemma update_refs_loop_assert (l : list addr) :
  forall i hp u,
    (snd (update_refs_loop i l (hp, u)) = Raise AssertionError ->
     100000 <= Z.of_nat (i + length l))
    /\ (snd (update_refs_loop i l (hp, u)) = Ok tt ->
        bounded u -> bounded (snd (fst (update_refs_loop i l (hp, u))))).
Proof.
  induction l as [|a rest IH]; intros i hp u; cbn [update_refs_loop].
  - split; [discriminate|auto].
  - destruct (deref hp a) as [| | | |l|[|[op values] others]];
      cbn [fst snd]; try (split; [discriminate|auto]);
      try (split; discriminate).
    destruct (update_values_assert i values u) as [Ha Hb].
    destruct (update_values i (values, u)) as [[values' u'] [t|e]];
      cbn [fst snd] in *.
    + destruct (IH (S i) (store hp a (VDict ((op, values') :: others))) u')
        as [Ha' Hb'].
      split.
      * intros H. specialize (Ha' H). cbn [length]. lia.
      * intros H Hu. apply Hb'; [exact H|]. apply Hb; auto. now destruct t.
    + split; [|discriminate]. intros H. specialize (Ha H). cbn [length]. lia.
Qed.

(** The loop changes the objects of its commands only. *)
Lemma update_refs_loop_frame (l : list addr) :
  forall i hp u b,
    ~ In b l ->
    deref (fst (fst (update_refs_loop i l (hp, u)))) b = deref hp b.
Proof.
  induction l as [|a rest IH]; intros i hp u b Hb; cbn [update_refs_loop].
  - reflexivity.
  - assert (Hab : a <> b) by (intros ->; apply Hb; now left).
    assert (Hrest : ~ In b rest) by (intros ?; apply Hb; now right).
    destruct (deref hp a) as [| | | |l|[|[op values] others]];
      cbn [fst snd]; try reflexivity.
    destruct (update_values i (values, u)) as [[values' u'] [t|e]];
      cbn [fst snd].
    + rewrite IH by assumption. now apply deref_store_other.
    + now apply deref_store_other.
Qed.

Definition is_list (v : value) : bool :=
  match v with
  | VList _ => true
  | _ => false
  end.

Lemma is_list_store (hp : heap) (a b : addr) (d : dict) :
  is_list (deref hp a) = false ->
  is_list (deref hp b) = false ->
  is_list (deref (store hp a (VDict d)) b) = false.
Proof.
  intros Ha Hb. destruct (Nat.eq_dec a b) as [<-|Hab].
  - destruct (Nat.ltb_spec a (length hp)).
    + now rewrite deref_store_same.
    + unfold deref. rewrite nth_overflow; [reflexivity|].
      rewrite length_store. lia.
  - now rewrite deref_store_other.
Qed.

(** The commands after a prefix without list-shaped commands are reached
    when the prefix raises nothing. *)
Lemma update_refs_loop_app (l1 l2 : list addr) :
  forall i hp u,
    (forall b, In b l1 -> is_list (deref hp b) = false) ->
    update_refs_loop i (l1 ++ l2) (hp, u)
    = match update_refs_loop i l1 (hp, u) with
      | (s1, Ok _) => update_refs_loop (i + length l1) l2 s1
      | (s1, Raise e) => (s1, Raise e)
      end.
Proof.
  induction l1 as [|a rest IH]; intros i hp u Hl;
    cbn [app update_refs_loop length].
  - now rewrite Nat.add_0_r.
  - pose proof (Hl a (or_introl eq_refl)) as Ha.
    destruct (deref hp a) as [| | | |l|[|[op values] others]] eqn:Hderef;
      try reflexivity; [discriminate|].
    destruct (update_values i (values, u)) as [[values' u'] [t|e]];
      [|reflexivity].
    rewrite IH.
    + now replace (S i + length rest)%nat with (i + S (length rest))%nat
        by lia.
    + intros b Hb. apply is_list_store.
      * now rewrite Hderef.
      * apply Hl. now right.
Qed.

(** A ref-defining command at position 100000 or beyond, once reached,
    fails the assertion. *)
Lemma update_refs_loop_overflow (i : nat) (a : addr) (rest : list addr)
    (hp : heap) (u : updates_t) (op : string) (body : dict) (others : dict)
    (v : value) :
  deref hp a = VDict ((op, VDict body) :: others) ->
  dict_get body "_ref" = Some v ->
  Spec.hashable v = true ->
  100000 <= Z.of_nat i + 1 ->
  snd (update_refs_loop i (a :: rest) (hp, u)) = Raise AssertionError.
Proof.
  intros Hderef Href Hv Hpos. cbn [update_refs_loop]. rewrite Hderef.
  unfold update_values, mbind, define_ref.
  cbn [py_contains]. unfold dict_has. rewrite Href.
  cbn [py_getitem]. rewrite Href. cbn [Py.bind].
  assert (Hk : exists k, hash_key v = Ok k)
    by (destruct v; try discriminate; cbn; eauto).
  destruct Hk as [k ->]. cbn [setitem py_getitem].
  rewrite dict_get_set. cbn [String.eqb Ascii.eqb Bool.eqb].
  destruct (Z.ltb_spec (Z.of_nat i + 1) 100000); [lia|]. reflexivity.
Qed.

Lemma store_same (hp : heap) (a : addr) :
  (a < length hp)%nat -> store hp a (deref hp a) = hp.
Proof.
  unfold deref. revert a; induction hp as [|x hp IH]; intros [|a]; cbn;
    try lia; auto.
  intros H. f_equal. apply IH. lia.
Qed.

(** A command that [update_values] leaves alone, repeated: the loop goes
    through it and changes nothing. *)
Lemma update_refs_loop_idle (a : addr) (hp : heap) (u : updates_t)
    (op : string) (values : value) (others : dict) (n : nat) :
  deref hp a = VDict ((op, values) :: others) ->
  (forall j, update_values j (values, u) = ((values, u), Ok tt)) ->
  forall i, update_refs_loop i (repeat a n) (hp, u) = ((hp, u), Ok tt).
Proof.
  intros Hderef Hidle.
  assert (Hvalid : (a < length hp)%nat)
    by (apply deref_valid; rewrite Hderef; discriminate).
  induction n as [|n IH]; intros i; cbn [repeat update_refs_loop].
  - reflexivity.
  - rewrite Hderef, Hidle, <- Hderef, store_same by exact Hvalid.
    apply IH.
Qed.

(** A batch of 99999 times the same command without refs, followed by a
    command that defines a ref: it stands at position 100000. *)
Module Example_overflow.

Definition hp : heap :=
  [ VDict [("FindEntity", VDict [("with_class", VStr "x")])];
    VDict [("AddEntity", VDict [("_ref", VInt 1)])] ].

Definition pre : list addr := repeat 0%nat (Z.to_nat 99999).

Definition data : list record := [ (pre, []); ([1%nat], []) ].

(** The same batch behind a list-shaped command. *)
Definition opaque_hp : heap :=
  [ VList []; VDict [("AddEntity", VDict [("_ref", VInt 1)])] ].

Definition opaque_data : list record :=
  [ ([0%nat], []); (repeat 1%nat (Z.to_nat 99998), []); ([1%nat], []) ].

End Example_overflow.

(** C9, as the code has it.  (1) A batch of fewer than 100000 commands
    never fails the assertion.  (2) When [update_refs] ends normally, the
    positions it has recorded for refs are positive and below 100000.
    (3) A command that defines a ref and stands at position 100000 or
    beyond fails the assertion, and with it the assembly of the batch,
    when it is reached: the commands before it are other objects, none
    of them list-shaped, and raise nothing. *)
Theorem C9_ref_bound :
  (forall data hp,
      Z.of_nat (length (flat_map fst data)) < 100000 ->
      snd (generate_batch data hp) <> Raise AssertionError)
  /\ (forall cmds hp,
         snd (update_refs_loop 0 cmds (hp, ([] : updates_t))) = Ok tt ->
         bounded (snd (fst (update_refs_loop 0 cmds (hp, ([] : updates_t))))))
  /\ (forall data hp pre a rest op body others v,
         flat_map fst data = pre ++ a :: rest ->
         snd (update_refs_loop 0 pre (hp, ([] : updates_t))) = Ok tt ->
         (forall b, In b pre -> is_list (deref hp b) = false) ->
         ~ In a pre ->
         deref hp a = VDict ((op, VDict body) :: others) ->
         dict_get body "_ref" = Some v ->
         Spec.hashable v = true ->
         100000 <= Z.of_nat (length pre) + 1 ->
         snd (generate_batch data hp) = Raise AssertionError).
Proof.
  split; [|split].
  - intros data hp Hlen Hraise.
    unfold generate_batch, update_refs in Hraise.
    destruct (update_refs_loop_assert (flat_map fst data) 0 hp []) as [Ha _].
    destruct (update_refs_loop 0 (flat_map fst data) _)
      as [[hp' u'] [t|e]]; cbn [fst snd] in *; [discriminate|].
    injection Hraise as ->. specialize (Ha eq_refl). cbn [Nat.add] in Ha. lia.
  - intros cmds hp Hok.
    destruct (update_refs_loop_assert cmds 0 hp []) as [_ Hb].
    apply Hb; [exact Hok|]. intros k p. discriminate.
  - intros data hp pre a rest op body others v Hdata Hpre Hlist Ha Hderef
      Href Hv Hpos.
    unfold generate_batch, update_refs. rewrite Hdata.
    rewrite update_refs_loop_app by exact Hlist.
    pose proof (update_refs_loop_frame pre 0 hp [] a Ha) as Hframe.
    destruct (update_refs_loop 0 pre _) as [[hp1 u1] r1];
      cbn [fst snd] in *. subst r1. cbn [Nat.add].
    rewrite <- Hframe in Hderef.
    pose proof (update_refs_loop_overflow (length pre) a rest hp1 u1 op body
                  others v Hderef Href Hv Hpos) as Hover.
    destruct (update_refs_loop (length pre) (a :: rest) (hp1, u1))
      as [[hp2 u2] r2]; cbn [snd] in *. now subst r2.
Qed.

Lemma C9_ref_bound_witness :
  (Z.of_nat (length (flat_map fst Example_batch.data)) < 100000
   /\ snd (generate_batch Example_batch.data Example_batch.hp)
      <> Raise AssertionError)
  /\ (snd (update_refs_loop 0 [0; 1; 2; 3; 4]%nat
             (Example_batch.hp, ([] : updates_t)))
      = Ok tt
      /\ bounded (snd (fst (update_refs_loop 0 [0; 1; 2; 3; 4]%nat
                              (Example_batch.hp, ([] : updates_t))))))
  /\ (snd (update_refs_loop 0 Example_overflow.pre
             (Example_overflow.hp, ([] : updates_t)))
      = Ok tt
      /\ 100000 <= Z.of_nat (length Example_overflow.pre) + 1
      /\ snd (generate_batch Example_overflow.data Example_overflow.hp)
         = Raise AssertionError).
Proof.
  assert (Hpre : snd (update_refs_loop 0 Example_overflow.pre
                        (Example_overflow.hp, ([] : updates_t))) = Ok tt).
  { unfold Example_overflow.pre.
    rewrite (update_refs_loop_idle 0%nat Example_overflow.hp [] "FindEntity"
               (VDict [("with_class", VStr "x")]) []);
      reflexivity. }
  assert (Hpos : 100000 <= Z.of_nat (length Example_overflow.pre) + 1).
  { unfold Example_overflow.pre. rewrite repeat_length. lia. }
  split; [|split].
  - assert (Hlen : Z.of_nat (length (flat_map fst Example_batch.data)) < 100000)
      by (cbn; lia).
    split; [exact Hlen|].
    exact (proj1 C9_ref_bound Example_batch.data Example_batch.hp Hlen).
  - split; [reflexivity|].
    exact (proj1 (proj2 C9_ref_bound) [0; 1; 2; 3; 4]%nat Example_batch.hp
             eq_refl).
  - split; [exact Hpre|]. split; [exact Hpos|].
    apply (proj2 (proj2 C9_ref_bound) Example_overflow.data Example_overflow.hp
             Example_overflow.pre 1%nat [] "AddEntity" [("_ref", VInt 1)] []
             (VInt 1)).
    + reflexivity.
    + exact Hpre.
    + intros b Hb. apply repeat_spec in Hb. now subst b.
    + intros Hb. apply repeat_spec in Hb. discriminate.
    + reflexivity.
    + reflexivity.
    + reflexivity.
    + exact Hpos.
Defined.

(** C9, as stated, fails: behind a list-shaped command [update_refs] looks
    at no further command, and a command that defines a ref at position
    100000 goes through. *)
Lemma C9_counterexample :
  let addrs := 0%nat :: repeat 1%nat (Z.to_nat 99998) ++ [1%nat] in
  flat_map fst Example_overflow.opaque_data = addrs
  /\ snd (generate_batch Example_overflow.opaque_data
            Example_overflow.opaque_hp)
     = Ok (addrs, [])
  /\ Z.of_nat (length addrs) = 100000
  /\ nth_error addrs (Z.to_nat 99999) = Some 1%nat
  /\ Spec.defined_ref (deref Example_overflow.opaque_hp 1%nat) = Some 1.
Proof.
  cbv zeta.
  assert (Haddrs : flat_map fst Example_overflow.opaque_data
                   = 0%nat :: repeat 1%nat (Z.to_nat 99998) ++ [1%nat]).
  { unfold Example_overflow.opaque_data. cbn [flat_map fst app].
    reflexivity. }
  split; [exact Haddrs|]. split; [|split; [|split]].
  - unfold generate_batch, update_refs. rewrite Haddrs.
    cbn [update_refs_loop]. reflexivity.
  - cbn [length]. rewrite length_app, repeat_length. cbn [length]. lia.
  - replace (Z.to_nat 99999) with (S (Z.to_nat 99998)) by lia.
    cbn [nth_error].
    rewrite nth_error_app2 by (rewrite repeat_length; lia).
    rewrite repeat_length, Nat.sub_diag. reflexivity.
  - reflexivity.
Qed.

(* ===================================================================== *)
(** ** The workers and the statistics                                     *)
(* ===================================================================== *)

Lemma sum_stats_app (k : string) (l1 l2 : list stats) (a b : Z) :
  sum_stats k l1 = Ok a -> sum_stats k l2 = Ok b ->
  sum_stats k (l1 ++ l2) = Ok (a + b).
Proof.
  revert a; induction l1 as [|s l1 IH]; intros a; cbn [app sum_stats].
  - intros [= <-] ->. reflexivity.
  - destruct (stats_get s k) as [n|]; [|discriminate].
    destruct (sum_stats k l1) as [rest|] eqn:Hrest; cbn [Py.bind];
      [|discriminate].
    intros [= <-] H2. rewrite (IH rest eq_refl H2). cbn [Py.bind].
    f_equal. lia.
Qed.

Lemma accounts_nil (st : pq_state) : Spec.accounts st st [].
Proof.
  split; [now rewrite app_nil_r|]. intros _. cbn. split; [lia|].
  split; [lia|]. exists []. now rewrite app_nil_r.
Qed.

Lemma accounts_trans (st st1 st2 : pq_state) (n1 n2 : list batch_event) :
  Spec.accounts st st1 n1 -> Spec.accounts st1 st2 n2 ->
  Spec.accounts st st2 (n1 ++ n2).
Proof.
  intros [He1 H1] [He2 H2]. split.
  - now rewrite He2, He1, app_assoc.
  - rewrite forallb_app. intros Hc. apply andb_prop in Hc as [Hc1 Hc2].
    destruct (H1 Hc1) as (Herr1 & Ht1 & added1 & Hs1 & Hq1).
    destruct (H2 Hc2) as (Herr2 & Ht2 & added2 & Hs2 & Hq2).
    rewrite !map_app, length_app. unfold Spec.sum_Z in *.
    rewrite !fold_right_app.
    assert (Hfold : forall l1 l2 : list Z,
               fold_right Z.add (fold_right Z.add 0 l2) l1
               = fold_right Z.add 0 l1 + fold_right Z.add 0 l2).
    { intros l1 l2. induction l1 as [|x l1 IH]; cbn; lia. }
    rewrite !Hfold. split; [lia|]. split; [lia|].
    exists (added1 ++ added2). split.
    + now rewrite Hs2, Hs1, app_assoc.
    + now apply sum_stats_app.
Qed.

(** One batch of a worker: it ends with one event, accounted for, or it
    dies of an exception outside [Exception], leaving no event. *)
Lemma worker_batch_accounts (cfg : pq_config) (gen : generator)
    (db : nat -> list value -> list blob -> reply)
    (start end_ : Z) (i : nat) (st : pq_state) :
  let run := worker_batch cfg gen db start end_ i st in
  (snd run = Ok tt
   /\ exists ev,
       Spec.accounts st (fst run) [ev]
       /\ (Spec.clean ev = true ->
           Spec.records_of ev = length (Spec.batch_of cfg gen start end_ i)))
  \/ (exists e, snd run = Raise e /\ st_events (fst run) = st_events st).
Proof.
  cbv zeta. unfold worker_batch, do_batch.
  fold (Spec.batch_of cfg gen start end_ i).
  set (data := Spec.batch_of cfg gen start end_ i).
  set (bs := start + Z.of_nat i * batchsize cfg).
  set (be := Z.min (bs + batchsize cfg) end_).
  assert (Hfail : forall (st0 : pq_state) (e : exn),
             st_events st0 = st_events st ->
             let run := if is_Exception e
                        then ({| st_heap := st_heap st0;
                                 st_times_arr := st_times_arr st0;
                                 st_actual_stats := st_actual_stats st0;
                                 st_error_counter := st_error_counter st0 + 1;
                                 st_events := st_events st0 ++ [Failed bs be e] |},
                              Ok tt)
                        else (st0, Raise e) in
             (snd run = Ok tt
              /\ exists ev,
                  Spec.accounts st (fst run) [ev]
                  /\ (Spec.clean ev = true ->
                      Spec.records_of ev = length data))
             \/ (exists e', snd run = Raise e'
                            /\ st_events (fst run) = st_events st)).
  { intros st0 e Hev. cbv zeta. destruct (is_Exception e); cbn [fst snd].
    - left. split; [reflexivity|]. exists (Failed bs be e). split.
      + split; [cbn [st_events]; now rewrite Hev|discriminate].
      + discriminate.
    - right. exists e. auto. }
  destruct (generate_batch data (st_heap st)) as [hp [[q blobs]|e]].
  2:{ apply (Hfail (with_heap st hp) e). reflexivity. }
  destruct (dry_run cfg).
  { cbn [fst snd]. left. split; [reflexivity|].
    exists (DryRun bs (length data)). split.
    - split; [reflexivity|discriminate].
    - discriminate. }
  destruct (response_handler_of gen) as [response_handler|e].
  2:{ apply (Hfail (with_heap st hp) e). reflexivity. }
  destruct (snd (execute_batch _ _ _ _ _ _ _ _ _)) as [[[code r] b]|e].
  2:{ apply (Hfail (with_heap st hp) e). reflexivity. }
  destruct (worker_stats_of cfg code q data r) as [ws|e] eqn:Hws.
  2:{ apply (Hfail (if code =? 1 then count_error (with_heap st hp)
                    else with_heap st hp) e).
      now destruct (code =? 1). }
  cbn [fst snd]. left. split; [reflexivity|].
  exists (Executed bs (length data) code). split; [|reflexivity].
  split; [now destruct (code =? 1)|].
  cbn [forallb Spec.clean]. rewrite andb_true_r. intros Hclean.
  unfold worker_stats_of in Hws.
  cbn [map Spec.error_of Spec.queries_of Spec.sum_Z fold_right length].
  destruct (Z.eqb_spec code 0) as [->|H0].
  - cbn [Z.eqb] in *. split; [cbn; lia|].
    split; [cbn; rewrite length_app; cbn; lia|].
    exists [ws]. split; [reflexivity|].
    destruct (sum_status 2 r) as [existed|]; cbn [Py.bind] in Hws;
      [|discriminate].
    injection Hws as <-. cbn. first [reflexivity | f_equal; lia].
  - destruct (Z.eqb_spec code 1) as [->|H1]; [|discriminate].
    cbn [Z.eqb] in *. split; [cbn; lia|].
    split; [cbn; rewrite length_app; cbn; lia|].
    exists [ws]. split; [reflexivity|].
    injection Hws as <-. reflexivity.
Qed.

(** The batches of a worker: their events in order, all of them when the
    worker does not die, and then accounted for. *)
Lemma worker_loop_accounts (cfg : pq_config) (gen : generator)
    (db : nat -> list value -> list blob -> reply)
    (start end_ : Z) (idxs : list nat) :
  forall st,
    let run := worker_loop cfg gen db start end_ idxs st in
    exists new,
      st_events (fst run) = st_events st ++ new
      /\ (length new <= length idxs)%nat
      /\ (length new = length idxs ->
          Spec.accounts st (fst run) new
          /\ (forallb Spec.clean new = true ->
              map Spec.records_of new
              = map (fun i => length (Spec.batch_of cfg gen start end_ i))
                  idxs)).
Proof.
  induction idxs as [|i rest IH]; intros st; cbv zeta; cbn [worker_loop].
  - exists []. cbn [fst mret]. split; [now rewrite app_nil_r|].
    split; [reflexivity|]. intros _. split; [apply accounts_nil|reflexivity].
  - unfold mbind.
    destruct (worker_batch_accounts cfg gen db start end_ i st)
      as [[Hok (ev & Hacc & Hrec)] | (e & Hraise & Hev)].
    + destruct (worker_batch cfg gen db start end_ i st) as [st1 r1].
      cbn [fst snd] in *. subst r1.
      destruct (IH st1) as (new & Hev' & Hlen & Hfull).
      exists (ev :: new). split.
      * rewrite Hev'. destruct Hacc as [-> _]. now rewrite <- app_assoc.
      * split; [cbn [length]; lia|].
        cbn [length]. intros Hall. injection Hall as Hall.
        destruct (Hfull Hall) as [Hacc' Hrec'].
        split; [apply (accounts_trans st st1 _ [ev] new); assumption|].
        cbn [forallb map]. intros Hc. apply andb_prop in Hc as [Hc1 Hc2].
        now rewrite (Hrec Hc1), (Hrec' Hc2).
    + destruct (worker_batch cfg gen db start end_ i st) as [st1 r1].
      cbn [fst snd] in *. subst r1.
      exists []. cbn [fst length]. split; [now rewrite app_nil_r|].
      split; [lia|discriminate].
Qed.

Lemma worker_accounts (cfg : pq_config) (gen : generator)
    (db : nat -> list value -> list blob -> reply)
    (start end_ : Z) (st : pq_state) :
  batchsize cfg <> 0 ->
  let run := worker cfg gen db start end_ st in
  let n := Z.to_nat (total_batches (batchsize cfg) start end_) in
  exists new,
    st_events (fst run) = st_events st ++ new
    /\ (length new <= n)%nat
    /\ (length new = n ->
        Spec.accounts st (fst run) new
        /\ (forallb Spec.clean new = true ->
            map Spec.records_of new
            = map (fun i => length (Spec.batch_of cfg gen start end_ i))
                (seq 0 n))).
Proof.
  intros Hbs. cbv zeta. unfold worker.
  destruct (Z.eqb_spec (batchsize cfg) 0) as [?|_]; [contradiction|].
  destruct (worker_loop_accounts cfg gen db start end_
              (seq 0 (Z.to_nat (total_batches (batchsize cfg) start end_))) st)
    as (new & Hev & Hlen & Hfull).
  rewrite length_seq in Hlen, Hfull. exists new. auto.
Qed.

(** Two workers, one after the other. *)
Lemma two_workers_accounts (cfg : pq_config) (gen : generator)
    (dbs : nat -> nat -> list value -> list blob -> reply)
    (s1 e1 s2 e2 : Z) (st : pq_state) :
  batchsize cfg <> 0 ->
  let st' := Parallelizer.run_workers cfg gen dbs 0 [(s1, e1); (s2, e2)] st in
  let n1 := Z.to_nat (total_batches (batchsize cfg) s1 e1) in
  let n2 := Z.to_nat (total_batches (batchsize cfg) s2 e2) in
  exists new,
    st_events st' = st_events st ++ new
    /\ (length new <= n1 + n2)%nat
    /\ (length new = (n1 + n2)%nat ->
        Spec.accounts st st' new
        /\ (forallb Spec.clean new = true ->
            map Spec.records_of new
            = map (fun i => length (Spec.batch_of cfg gen s1 e1 i)) (seq 0 n1)
              ++ map (fun i => length (Spec.batch_of cfg gen s2 e2 i))
                   (seq 0 n2))).
Proof.
  intros Hbs. cbv zeta. cbn [Parallelizer.run_workers].
  destruct (worker_accounts cfg gen (dbs 0%nat) s1 e1 st Hbs)
    as (new1 & Hev1 & Hlen1 & Hfull1).
  set (st1 := fst (worker cfg gen (dbs 0%nat) s1 e1 st)) in *.
  destruct (worker_accounts cfg gen (dbs 1%nat) s2 e2 st1 Hbs)
    as (new2 & Hev2 & Hlen2 & Hfull2).
  exists (new1 ++ new2). split.
  - now rewrite Hev2, Hev1, app_assoc.
  - rewrite length_app. split; [lia|]. intros Hall.
    destruct Hfull1 as [Hacc1 Hrec1]; [lia|].
    destruct Hfull2 as [Hacc2 Hrec2]; [lia|].
    split; [now apply (accounts_trans st st1)|].
    rewrite forallb_app. intros Hc. apply andb_prop in Hc as [Hc1 Hc2].
    now rewrite map_app, (Hrec1 Hc1), (Hrec2 Hc2).
Qed.

Lemma py_slice_length_nat {A : Type} (l : list A) (a b : Z) :
  0 <= a <= b -> b <= Z.of_nat (length l) ->
  length (py_slice l a b) = Z.to_nat (b - a).
Proof.
  intros Hab Hb. pose proof (py_slice_length l a b Hab Hb). lia.
Qed.

(** Ten records in batches of four over the worker ranges [0, a) and
    [a, 10): three or four batches, of one to four records each, ten
    records in all; four batches for the even split. *)
Lemma ten_records_batches (cfg : pq_config) (gen : generator) (a : Z) :
  batchsize cfg = 4 ->
  length (gen_records gen) = 10%nat ->
  0 <= a <= 10 ->
  let n1 := Z.to_nat (total_batches 4 0 a) in
  let n2 := Z.to_nat (total_batches 4 a 10) in
  let sizes :=
    map (fun i => length (Spec.batch_of cfg gen 0 a i)) (seq 0 n1)
    ++ map (fun i => length (Spec.batch_of cfg gen a 10 i)) (seq 0 n2) in
  ((n1 + n2 = 3)%nat \/ (n1 + n2 = 4)%nat)
  /\ (a = 5 -> (n1 + n2 = 4)%nat)
  /\ (a = 4 \/ a = 8 -> (n1 + n2 = 3)%nat)
  /\ fold_right Nat.add 0%nat sizes = 10%nat
  /\ Forall (fun x => (1 <= x <= 4)%nat) sizes.
Proof.
  intros Hbs Hlen Ha.
  assert (Hslice : forall x y,
             0 <= x <= y -> y <= 10 ->
             length (py_slice (gen_records gen) x y) = Z.to_nat (y - x)).
  { intros x y Hxy Hy. apply py_slice_length_nat; [exact Hxy|].
    rewrite Hlen. lia. }
  unfold Spec.batch_of. rewrite Hbs.
  assert (Hcases : a = 0 \/ a = 1 \/ a = 2 \/ a = 3 \/ a = 4 \/ a = 5
                   \/ a = 6 \/ a = 7 \/ a = 8 \/ a = 9 \/ a = 10) by lia.
  destruct Hcases as [->|[->|[->|[->|[->|[->|[->|[->|[->|[->| ->]]]]]]]]]];
    cbv zeta;
    match goal with
    | |- context [Z.to_nat (total_batches 4 0 ?x)] =>
        let v := eval vm_compute in (Z.to_nat (total_batches 4 0 x)) in
        change (Z.to_nat (total_batches 4 0 x)) with v
    end;
    match goal with
    | |- context [Z.to_nat (total_batches 4 ?x 10)] =>
        let v := eval vm_compute in (Z.to_nat (total_batches 4 x 10)) in
        change (Z.to_nat (total_batches 4 x 10)) with v
    end;
    cbn [seq map app Nat.add];
    rewrite ?Hslice by lia;
    (split; [lia|]); (split; [lia|]); (split; [lia|]);
    (split; [vm_compute; reflexivity|]);
    repeat constructor; vm_compute; lia.
Qed.

Lemma sum_Z_app (l1 l2 : list Z) :
  Spec.sum_Z (l1 ++ l2) = Spec.sum_Z l1 + Spec.sum_Z l2.
Proof.
  unfold Spec.sum_Z. induction l1 as [|x l1 IH]; cbn; [reflexivity|].
  rewrite IH. lia.
Qed.

Lemma fold_add_app (l1 l2 : list nat) :
  fold_right Nat.add 0%nat (l1 ++ l2)
  = (fold_right Nat.add 0%nat l1 + fold_right Nat.add 0%nat l2)%nat.
Proof.
  induction l1 as [|x l1 IH]; cbn; [reflexivity|]. rewrite IH. lia.
Qed.

(** Batches that succeeded in full count no error and all their records. *)
Lemma succeeded_batches (l : list batch_event) :
  forallb Spec.succeeded l = true ->
  forallb Spec.clean l = true
  /\ Spec.sum_Z (map Spec.error_of l) = 0
  /\ Spec.sum_Z (map Spec.queries_of l)
     = Z.of_nat (fold_right Nat.add 0%nat (map Spec.records_of l)).
Proof.
  induction l as [|ev l IH]; cbn [forallb map]; [intros _; now cbn|].
  intros H. apply andb_prop in H as [Hev Hl].
  destruct (IH Hl) as (Hc & He & Hq).
  destruct ev as [bs n code| |]; try discriminate.
  cbn [Spec.succeeded] in Hev. apply Z.eqb_eq in Hev. subst code.
  cbn [Spec.clean Spec.error_of Spec.queries_of Spec.records_of Z.eqb orb andb].
  split; [exact Hc|]. unfold Spec.sum_Z in *. cbn [fold_right].
  rewrite He, Hq. split; lia.
Qed.

(** C7, as the code has it.  Ten records in batches of four, for two
    workers on the ranges [0, a) and [a, 10): the workers execute
    [ceil(a / 4) + ceil((10 - a) / 4)] batches, which is three or four,
    four for the even split [a = 5] and three for [a = 4] and [a = 8].
    When all of them are executed, exactly one with result 1 and the
    others with result 0, the error counter is 1, [print_stats] counts
    that many batches, the queries recorded as succeeded are the ten
    records less those of the failed batch, which has one to four, and the
    error percentage is 100 over the number of batches. *)
Theorem C7_ten_records
    (cfg : pq_config) (gen : generator)
    (dbs : nat -> nat -> list value -> list blob -> reply)
    (hp : heap) (a : Z) :
  batchsize cfg = 4 ->
  length (gen_records gen) = 10%nat ->
  0 <= a <= 10 ->
  let st := Parallelizer.run_workers cfg gen dbs 0 [(0, a); (a, 10)]
              (Parallelizer.fresh hp) in
  let nb := (Z.to_nat (total_batches 4 0 a)
             + Z.to_nat (total_batches 4 a 10))%nat in
  ((nb = 3 \/ nb = 4)%nat
   /\ (a = 5 -> nb = 4%nat)
   /\ (a = 4 \/ a = 8 -> nb = 3%nat))
  /\ (length (st_events st) <= nb)%nat
  /\ forall before bs n after,
      st_events st = before ++ Executed bs n 1 :: after ->
      forallb Spec.succeeded (before ++ after) = true ->
      length (st_events st) = nb ->
      st_error_counter st = 1
      /\ total_queries_exec st = Z.of_nat nb
      /\ get_succeeded_queries st = Ok (10 - Z.of_nat n)
      /\ err_perc st = Some (100 # Z.to_pos (Z.of_nat nb))
      /\ (1 <= n <= 4)%nat.
Proof.
  intros Hbs Hlen Ha st nb.
  destruct (ten_records_batches cfg gen a Hbs Hlen Ha)
    as (Hnb & Heven & Haligned & Hsum & Hsizes).
  fold nb in Hnb, Heven, Haligned.
  assert (Hbs0 : batchsize cfg <> 0) by lia.
  destruct (two_workers_accounts cfg gen dbs 0 a a 10 (Parallelizer.fresh hp)
              Hbs0) as (new & Hev & Hle & Hfull).
  rewrite Hbs in Hle, Hfull. fold st in Hev, Hfull. fold nb in Hle, Hfull.
  cbn [Parallelizer.fresh st_events app] in Hev.
  split; [auto|]. split; [now rewrite Hev|].
  intros before bs n after Hevents Hothers Hall.
  rewrite Hev in Hevents, Hall. clear Hev. subst new.
  destruct (Hfull Hall) as [[_ Hacc] Hrec].
  rewrite forallb_app in Hothers. apply andb_prop in Hothers as [Hb Haf].
  destruct (succeeded_batches before Hb) as (Hcb & Heb & Hqb).
  destruct (succeeded_batches after Haf) as (Hca & Hea & Hqa).
  assert (Hclean : forallb Spec.clean (before ++ Executed bs n 1 :: after)
                   = true).
  { rewrite forallb_app. cbn [forallb Spec.clean Z.eqb orb andb].
    now rewrite Hcb, Hca. }
  destruct (Hacc Hclean) as (Herr & Htimes & added & Hstats & Hqueries).
  specialize (Hrec Hclean).
  cbn [Parallelizer.fresh st_error_counter st_times_arr st_actual_stats
         length app Nat.add Z.add] in Herr, Htimes, Hstats.
  rewrite !map_app, !sum_Z_app in Herr, Hqueries.
  cbn [map Spec.error_of Spec.queries_of Z.eqb] in Herr, Hqueries.
  unfold Spec.sum_Z at 2 in Herr. unfold Spec.sum_Z at 2 in Hqueries.
  cbn [fold_right] in Herr, Hqueries.
  fold (Spec.sum_Z (map Spec.error_of after)) in Herr.
  fold (Spec.sum_Z (map Spec.queries_of after)) in Hqueries.
  rewrite Heb, Hea in Herr. rewrite Hqb, Hqa in Hqueries.
  cbn [Pos.eqb] in Herr.
  assert (Hten : (fold_right Nat.add 0 (map Spec.records_of before) + n
                  + fold_right Nat.add 0 (map Spec.records_of after) = 10)%nat).
  { rewrite <- Hsum, <- Hrec, map_app, fold_add_app.
    cbn [map Spec.records_of fold_right]. lia. }
  assert (Hn : (1 <= n <= 4)%nat).
  { rewrite Forall_forall in Hsizes. apply Hsizes. rewrite <- Hrec.
    rewrite map_app. apply in_or_app. right. now left. }
  assert (Htotal : total_queries_exec st = Z.of_nat nb).
  { unfold total_queries_exec. rewrite Htimes. now rewrite Hall. }
  split; [lia|]. split; [exact Htotal|]. split; [|split; [|exact Hn]].
  - unfold get_succeeded_queries. rewrite Hstats, Hqueries. f_equal. lia.
  - unfold err_perc. rewrite Htotal.
    destruct (Z.eqb_spec (Z.of_nat nb) 0) as [H0|_]; [lia|].
    replace (st_error_counter st) with 1 by lia. reflexivity.
Qed.

(** Ten records of one command each; every connection accepts every
    query, but for the batch [failing] of worker [thid] that the transport
    rejects. *)
Module Example_run.

Definition command : value := VDict [("AddEntity", VDict [("class", VStr "x")])].

Definition hp : heap := repeat command 10.

Definition gen : generator :=
  {| gen_records := map (fun a => ([a], [])) (seq 0 10);
     gen_response_handler := None;
     gen_strict_response_validation := None |}.

Definition cfg : pq_config :=
  {| dry_run := false;
     commands_per_query := 1;
     blobs_per_query := 0;
     batchsize := 4;
     success_statuses := [0; 2] |}.

Definition accepted (q : list value) : reply :=
  mk_reply
    (VList (map (fun _ => VDict [("AddEntity", VDict [("status", VInt 0)])]) q))
    [] true 0%Q.

Definition rejected : reply :=
  mk_reply (VDict [("status", VInt (-1)); ("info", VStr "rejected")])
    [] false 0%Q.

Definition dbs (thid failing : nat)
  : nat -> nat -> list value -> list blob -> reply :=
  fun t i q _ =>
    if ((t =? thid) && (i =? failing))%nat then rejected else accepted q.

End Example_run.

Lemma C7_ten_records_witness :
  let cfg := Example_run.cfg in
  let gen := Example_run.gen in
  let dbs := Example_run.dbs 1 0 in
  let st := Parallelizer.run_workers cfg gen dbs 0 [(0, 5); (5, 10)]
              (Parallelizer.fresh Example_run.hp) in
  let nb := (Z.to_nat (total_batches 4 0 5)
             + Z.to_nat (total_batches 4 5 10))%nat in
  (batchsize cfg = 4 /\ length (gen_records gen) = 10%nat /\ 0 <= 5 <= 10)
  /\ ((nb = 3 \/ nb = 4)%nat
      /\ (5 = 5 -> nb = 4%nat)
      /\ (5 = 4 \/ 5 = 8 -> nb = 3%nat))
  /\ (length (st_events st) <= nb)%nat
  /\ forall before bs n after,
      st_events st = before ++ Executed bs n 1 :: after ->
      forallb Spec.succeeded (before ++ after) = true ->
      length (st_events st) = nb ->
      st_error_counter st = 1
      /\ total_queries_exec st = Z.of_nat nb
      /\ get_succeeded_queries st = Ok (10 - Z.of_nat n)
      /\ err_perc st = Some (100 # Z.to_pos (Z.of_nat nb))
      /\ (1 <= n <= 4)%nat.
Proof.
  cbv zeta. split.
  - split; [reflexivity|]. split; [reflexivity|]. lia.
  - apply (C7_ten_records Example_run.cfg Example_run.gen
             (Example_run.dbs 1 0) Example_run.hp 5);
      [reflexivity|reflexivity|lia].
Defined.

(** C7, as stated, fails.  With the workers on the equal ranges [0, 5) and
    [5, 10), four batches are executed, not three, and one failed batch
    is a quarter of them.  With the workers on [0, 8) and [8, 10), three
    batches are executed, and when the one that fails is the last, of two
    records, eight queries are recorded as succeeded, not six. *)
Lemma C7_counterexample :
  let even := Parallelizer.run Example_run.cfg Example_run.gen
                (Example_run.dbs 1 0) 2 Example_run.hp in
  let aligned := Parallelizer.run_workers Example_run.cfg Example_run.gen
                   (Example_run.dbs 1 0) 0 [(0, 8); (8, 10)]
                   (Parallelizer.fresh Example_run.hp) in
  (Parallelizer.ranges 10 2 = [(0, 5); (5, 10)]
   /\ st_events even
      = [Executed 0 4 0; Executed 4 1 0; Executed 5 4 1; Executed 9 1 0]
   /\ st_error_counter even = 1
   /\ get_succeeded_queries even = Ok 6
   /\ total_queries_exec even = 4
   /\ err_perc even = Some (100 # 4))
  /\ (st_events aligned = [Executed 0 4 0; Executed 4 4 0; Executed 8 2 1]
      /\ st_error_counter aligned = 1
      /\ get_succeeded_queries aligned = Ok 8
      /\ total_queries_exec aligned = 3
      /\ err_perc aligned = Some (100 # 3)).
Proof. cbv zeta. repeat split; vm_compute; reflexivity. Qed.

(** Three batches of which the second, of four records, fails: the run the
    claim has in mind, with the workers on [0, 8) and [8, 10). *)
Example three_batches_example :
  let st := Parallelizer.run_workers Example_run.cfg Example_run.gen
              (Example_run.dbs 0 1) 0 [(0, 8); (8, 10)]
              (Parallelizer.fresh Example_run.hp) in
  st_events st = [Executed 0 4 0; Executed 4 4 1; Executed 8 2 0]
  /\ st_error_counter st = 1
  /\ get_succeeded_queries st = Ok 6
  /\ err_perc st = Some (100 # 3).
Proof. cbv zeta. repeat split; vm_compute; reflexivity. Qed.

(* ===================================================================== *)
(** ** The demultiplexer on other shapes of input                         *)
(* ===================================================================== *)

(** A response that is not a list has no counts to read: every width and
    every cursor is 0. *)
Lemma group_b_count_whole (query : list value) (response : value) (c i : Z) :
  is_list response = false -> group_b_count query response c i = Ok 0.
Proof. destruct response; try reflexivity. discriminate. Qed.

Lemma computed_width_whole (query : list value) (response : value) (c : Z)
    (i : nat) :
  is_list response = false -> Spec.computed_width query response c i = 0.
Proof.
  intros H. unfold Spec.computed_width. now rewrite group_b_count_whole.
Qed.

Lemma computed_cursor_whole (query : list value) (response : value) (c : Z)
    (i : nat) :
  is_list response = false -> Spec.computed_cursor query response c i = 0.
Proof.
  intros H. induction i as [|i IH]; cbn [Spec.computed_cursor].
  - reflexivity.
  - now rewrite IH, computed_width_whole.
Qed.

Lemma py_slice_empty {A : Type} (l : list A) (a : Z) :
  0 <= a -> py_slice l a a = [].
Proof.
  intros Ha. rewrite py_slice_nonneg by lia.
  now rewrite Z.sub_diag.
Qed.



Lemma ceil_div_nonpos (n c : Z) : 0 <= n -> c < 0 -> ceil_div n c <= 0.
Proof.
  intros Hn Hc. unfold ceil_div.
  assert (0 <= - n / c); [|lia].
  replace c with (- - c) by lia. rewrite Z.div_opp_opp by lia.
  apply Z.div_pos; lia.
Qed.

(** X2. Without commands, or with a negative [commands_per_query], the
    range of groups is empty: the handler is not called and nothing is
    raised, whatever the response and the blobs are. *)
Theorem no_group_no_call
    (h : handler) (query : list value) (query_blobs : list blob)
    (response : value) (response_blobs : list blob) (c k : Z)
    (off : option Z) :
  c <> 0 ->
  query = [] \/ c < 0 ->
  map_response_to_handler h query query_blobs response response_blobs c k off
  = ([], Ok tt).
Proof.
  intros Hc Hcase. unfold map_response_to_handler.
  destruct (Z.eqb_spec c 0) as [?|_]; [contradiction|].
  assert (Hn : ceil_div (Z.of_nat (length query)) c <= 0).
  { destruct Hcase as [->|Hneg].
    - unfold ceil_div. cbn [length Z.of_nat Z.opp]. now rewrite Z.div_0_l.
    - apply ceil_div_nonpos; lia. }
  unfold py_range.
  replace (Z.to_nat (ceil_div (Z.of_nat (length query)) c)) with 0%nat by lia.
  reflexivity.
Qed.

Lemma no_group_no_call_witness :
  (-2 <> 0 /\ (Example_demux.query = [] \/ -2 < 0))
  /\ map_response_to_handler (fun _ _ => Some KeyError) Example_demux.query []
       (VList Example_demux.resps) Example_demux.response_blobs (-2) 0 None
     = ([], Ok tt).
Proof.
  split.
  - split; [lia|right; lia].
  - apply (no_group_no_call (fun _ _ => Some KeyError) Example_demux.query []
             (VList Example_demux.resps) Example_demux.response_blobs (-2) 0
             None); [lia|right; lia].
Defined.

Section DemuxStops.

Variable h : handler.
Variables (query : list value) (query_blobs : list blob).
Variables (response : value) (response_blobs : list blob).
Variables (c k : Z).
Variable off : option Z.

Let call_of :=
  Spec.call_of query query_blobs response response_blobs c k off.
Let loop := demux_loop h query query_blobs response response_blobs c k off.

(** The handler has returned from the calls for the groups from [i0] up to
    [j], [j] left out. *)
Let returned (i0 j : nat) : Prop :=
  forall i, (i0 <= i < j)%nat ->
            (exists b, group_b_count query response c (Z.of_nat i) = Ok b)
            /\ h (map call_of (seq 0 i)) (call_of i) = None.

Lemma demux_loop_handler_raises (n : nat) :
  forall i0 j e,
    (i0 <= j < i0 + n)%nat ->
    returned i0 j ->
    (exists b, group_b_count query response c (Z.of_nat j) = Ok b) ->
    h (map call_of (seq 0 j)) (call_of j) = Some e ->
    loop (map Z.of_nat (seq i0 n)) (Spec.computed_cursor query response c i0)
      (map call_of (seq 0 i0))
    = (map call_of (seq 0 (S j)), Raise e).
Proof.
  subst loop returned.
  induction n as [|n IH]; intros i0 j e Hj Hret Hcount Hraise; [lia|].
  set (target := map call_of (seq 0 (S j))).
  cbn [seq map demux_loop]. subst target.
  destruct (Nat.eq_dec i0 j) as [->|Hne].
  - destruct Hcount as [b Hb]. rewrite Hb.
    assert (Hw : Spec.computed_width query response c j = b)
      by (unfold Spec.computed_width; now rewrite Hb).
    replace (group_call query query_blobs response response_blobs c k off
               (Z.of_nat j) (Spec.computed_cursor query response c j) b)
      with (call_of j)
      by (subst call_of; unfold Spec.call_of; now rewrite Hw).
    rewrite Hraise. now rewrite seq_S, map_app.
  - destruct (Hret i0 ltac:(lia)) as [[b Hb] Hnone]. rewrite Hb.
    assert (Hw : Spec.computed_width query response c i0 = b)
      by (unfold Spec.computed_width; now rewrite Hb).
    replace (group_call query query_blobs response response_blobs c k off
               (Z.of_nat i0) (Spec.computed_cursor query response c i0) b)
      with (call_of i0)
      by (subst call_of; unfold Spec.call_of; now rewrite Hw).
    rewrite Hnone.
    replace (map call_of (seq 0 i0) ++ [call_of i0])
      with (map call_of (seq 0 (S i0)))
      by (now rewrite seq_S, map_app).
    replace (Spec.computed_cursor query response c i0 + b)
      with (Spec.computed_cursor query response c (S i0))
      by (cbn [Spec.computed_cursor]; now rewrite Hw).
    apply IH; [lia| |exact Hcount|exact Hraise].
    intros i Hi. apply Hret. lia.
Qed.

Lemma demux_loop_count_raises (n : nat) :
  forall i0 j e,
    (i0 <= j < i0 + n)%nat ->
    returned i0 j ->
    group_b_count query response c (Z.of_nat j) = Raise e ->
    loop (map Z.of_nat (seq i0 n)) (Spec.computed_cursor query response c i0)
      (map call_of (seq 0 i0))
    = (map call_of (seq 0 j), Raise e).
Proof.
  subst loop returned.
  induction n as [|n IH]; intros i0 j e Hj Hret Hcount; [lia|].
  cbn [seq map demux_loop].
  destruct (Nat.eq_dec i0 j) as [->|Hne].
  - now rewrite Hcount.
  - destruct (Hret i0 ltac:(lia)) as [[b Hb] Hnone]. rewrite Hb.
    assert (Hw : Spec.computed_width query response c i0 = b)
      by (unfold Spec.computed_width; now rewrite Hb).
    replace (group_call query query_blobs response response_blobs c k off
               (Z.of_nat i0) (Spec.computed_cursor query response c i0) b)
      with (call_of i0)
      by (subst call_of; unfold Spec.call_of; now rewrite Hw).
    rewrite Hnone.
    replace (map call_of (seq 0 i0) ++ [call_of i0])
      with (map call_of (seq 0 (S i0)))
      by (now rewrite seq_S, map_app).
    replace (Spec.computed_cursor query response c i0 + b)
      with (Spec.computed_cursor query response c (S i0))
      by (cbn [Spec.computed_cursor]; now rewrite Hw).
    apply IH; [lia| |exact Hcount].
    intros i Hi. apply Hret. lia.
Qed.

End DemuxStops.


(** A handler that raises [e] from its second call. *)
Definition raises_second (e : exn) : handler :=
  fun past _ => match past with [_] => Some e | _ => None end.




(* ===================================================================== *)
(** ** The executor and the success-status set                            *)
(* ===================================================================== *)

Lemma is_success_incl (ss ss' : list Z) (k : key) :
  incl ss ss' -> is_success ss k = true -> is_success ss' k = true.
Proof.
  intros Hincl. destruct k as [|z|s]; cbn [is_success]; try discriminate.
  rewrite !existsb_exists. intros (x & Hx & Hz). exists x. auto.
Qed.

Lemma warn_list_incl (ss ss' : list Z) (st : statuses_t) :
  incl ss ss' -> warn_list ss st = [] -> warn_list ss' st = [].
Proof.
  intros Hincl. induction st as [|[k results] st IH]; cbn [warn_list].
  - reflexivity.
  - destruct (is_success ss k) eqn:Hk.
    + rewrite (is_success_incl ss ss' k Hincl Hk). exact IH.
    + intros H. apply app_eq_nil in H as [-> H].
      destruct (is_success ss' k); cbn [app]; auto.
Qed.

(** The codes of one response under a success-status set and a larger one. *)
Definition code_kept (a b : Z) : Prop :=
  (a = 0 -> b = 0) /\ (a = 1 <-> b = 1) /\ (b = 2 -> a = 2).

Lemma classify_incl (ss ss' : list Z) (r : value) (result0 : Z) :
  incl ss ss' ->
  match classify ss r result0, classify ss' r result0 with
  | Ok a, Ok b => code_kept a b
  | Raise e, Raise e' => e = e'
  | _, _ => False
  end.
Proof.
  intros Hincl. unfold classify.
  match goal with |- context [Py.bind ?x _] => destruct x as [[st r1]|e] end;
    cbn [Py.bind]; [|reflexivity].
  destruct (negb (r1 =? 1)) eqn:Hr1; [|unfold code_kept; lia].
  apply negb_true_iff, Z.eqb_neq in Hr1.
  pose proof (warn_list_incl ss ss' st Hincl) as Hmono.
  destruct (warn_list ss st) as [|w ws];
    destruct (warn_list ss' st) as [|w' ws']; unfold code_kept;
    try lia.
  specialize (Hmono eq_refl). discriminate.
Qed.

(** X5. Declaring more statuses as successes never turns a success into a
    failure: between a success-status set and a larger one, the calls of
    the handler and any exception are the same, a result 0 stays 0, a
    result 1 stays 1 and is 1 under neither or both, and a result 2 under
    the larger set was a result 2 under the smaller one. *)
Theorem success_statuses_monotone
    (q : list value) (blobs : list blob)
    (db : list value -> list blob -> reply) (ss ss' : list Z)
    (response_handler : option handler) (c k : Z) (strict : bool)
    (idx : option Z) :
  incl ss ss' ->
  let run := execute_batch q blobs db ss response_handler c k strict idx in
  let run' := execute_batch q blobs db ss' response_handler c k strict idx in
  fst run' = fst run
  /\ (forall e, snd run = Raise e <-> snd run' = Raise e)
  /\ (forall r b, snd run = Ok (0, r, b) -> snd run' = Ok (0, r, b))
  /\ (forall r b, snd run = Ok (1, r, b) <-> snd run' = Ok (1, r, b))
  /\ (forall r b, snd run' = Ok (2, r, b) -> snd run = Ok (2, r, b)).
Proof.
  intros Hincl. cbv zeta. unfold execute_batch.
  match goal with |- context [let '(trace, first) := ?x in _] =>
    destruct x as [trace [result0|e]] end; cbn [fst snd Py.bind].
  - pose proof (classify_incl ss ss' (rp_response (db q blobs)) result0 Hincl)
      as Hcl.
    destruct (classify ss _ result0) as [a|e];
      destruct (classify ss' _ result0) as [b|e']; cbn [Py.bind];
      try contradiction.
    + destruct Hcl as (H0 & H1 & H2).
      split; [reflexivity|]. split; [split; discriminate|].
      split; [|split].
      * intros r b' [= -> <- <-]. now rewrite H0.
      * intros r b'. split; intros [= E <- <-].
        -- apply H1 in E. now subst b.
        -- apply H1 in E. now subst a.
      * intros r b' [= -> <- <-]. now rewrite H2.
    + subst e'. repeat split; try discriminate; auto.
  - repeat split; try discriminate; auto.
Qed.

Lemma success_statuses_monotone_witness :
  let db := fun (_ : list value) (_ : list blob) =>
              mk_reply (VList [VDict [("AddEntity", VDict [("status", VInt 2)])]])
                [] true 0%Q in
  let run := execute_batch [] [] db [2] None 1 0 false None in
  let run' := execute_batch [] [] db [0; 2] None 1 0 false None in
  incl [2] [0; 2]
  /\ fst run' = fst run
  /\ (forall e, snd run = Raise e <-> snd run' = Raise e)
  /\ (forall r b, snd run = Ok (0, r, b) -> snd run' = Ok (0, r, b))
  /\ (forall r b, snd run = Ok (1, r, b) <-> snd run' = Ok (1, r, b))
  /\ (forall r b, snd run' = Ok (2, r, b) -> snd run = Ok (2, r, b)).
Proof.
  cbv zeta.
  assert (Hincl : incl [2] [0; 2]) by (intros x [<-|[]]; cbn; auto).
  split; [exact Hincl|].
  apply (success_statuses_monotone [] []
           (fun _ _ =>
              mk_reply
                (VList [VDict [("AddEntity", VDict [("status", VInt 2)])]])
                [] true 0%Q)
           [2] [0; 2] None 1 0 false None Hincl).
Defined.

Lemma collect_keys_read (d : dict) (cmds : list string) :
  forall st st',
    collect_keys (VDict d) cmds st = Ok st' ->
    forallb (fun cmd => match dict_get d cmd with
                        | Some entry => Spec.readable_entry entry
                        | None => false
                        end) cmds = true.
Proof.
  induction cmds as [|cmd cmds IH]; intros st st'; cbn [collect_keys forallb].
  - reflexivity.
  - cbn [py_getitem]. destruct (dict_get d cmd) as [entry|];
      cbn [Py.bind]; [|discriminate].
    destruct entry as [| | | | |e]; cbn [py_getitem Py.bind];
      try discriminate.
    cbn [Spec.readable_entry].
    destruct (dict_get e "status") as [s|]; cbn [Py.bind]; [|discriminate].
    destruct s; cbn [hash_key Py.bind Spec.hashable andb];
      try discriminate; apply IH.
Qed.

Lemma collect_statuses_read (rs : list value) :
  forall st st',
    collect_statuses rs st = Ok st' ->
    forall d, In (VDict d) rs -> Spec.readable_result (VDict d) = true.
Proof.
  induction rs as [|res rs IH]; intros st st' Hrun d Hin; [contradiction|].
  cbn [collect_statuses] in Hrun.
  destruct (collect_result res st) as [st1|e] eqn:Hres; cbn [Py.bind] in Hrun;
    [|discriminate].
  destruct Hin as [->|Hin].
  - cbn [collect_result] in Hres. cbn [Spec.readable_result].
    now apply collect_keys_read in Hres.
  - now apply (IH st1 st').
Qed.

(** X6. A result code vouches for the statuses: when [execute_batch]
    returns, a dict-shaped response carried a hashable ['status'], and in
    a list-shaped response every command of every dict-shaped result
    carried one; a response of another shape gives result 1.  A status
    that is missing makes [execute_batch] raise instead. *)
Theorem returned_code_has_read_every_status
    (q : list value) (blobs : list blob)
    (db : list value -> list blob -> reply) (ss : list Z)
    (response_handler : option handler) (c k : Z) (strict : bool)
    (idx : option Z) (code : Z) (r : value) (b : list blob) :
  snd (execute_batch q blobs db ss response_handler c k strict idx)
  = Ok (code, r, b) ->
  match r with
  | VDict _ => Spec.readable_entry r = true
  | VList rs =>
      forall d, In (VDict d) rs -> Spec.readable_result (VDict d) = true
  | _ => code = 1
  end.
Proof.
  intros Hrun.
  destruct (execute_batch_result q blobs db ss response_handler c k strict idx)
    as [H | (h & e & _ & _ & _ & _ & H)]; rewrite H in Hrun; [|discriminate].
  destruct (classify ss _ _) as [code'|e] eqn:Hcl; cbn [Py.bind] in Hrun;
    [|discriminate].
  injection Hrun as -> <- _.
  unfold classify in Hcl.
  destruct (rp_response (db q blobs)) as [| | | |rs|d];
    cbn [Py.bind negb Z.eqb Pos.eqb] in Hcl; try congruence.
  - destruct (collect_statuses rs []) as [st|e] eqn:Hst;
      cbn [Py.bind] in Hcl; [|discriminate].
    exact (collect_statuses_read rs [] st Hst).
  - cbn [py_getitem] in Hcl. cbn [Spec.readable_entry].
    destruct (dict_get d "status") as [s|]; cbn [Py.bind] in Hcl;
      [|discriminate].
    destruct s; cbn [hash_key Py.bind] in Hcl; try discriminate; reflexivity.
Qed.

Lemma returned_code_has_read_every_status_witness :
  let response :=
    VList [VDict [("AddEntity", VDict [("status", VInt 0)])];
           VDict [("AddImage", VDict [("status", VInt 2)])]] in
  let db := fun (_ : list value) (_ : list blob) =>
              mk_reply response ["png"] true 0%Q in
  snd (execute_batch [] [] db [0; 2] None 1 0 false None)
  = Ok (0, response, ["png"])
  /\ forall d, In (VDict d)
                 [VDict [("AddEntity", VDict [("status", VInt 0)])];
                  VDict [("AddImage", VDict [("status", VInt 2)])]] ->
               Spec.readable_result (VDict d) = true.
Proof.
  cbv zeta. split; [reflexivity|].
  exact (returned_code_has_read_every_status [] []
           (fun _ _ =>
              mk_reply
                (VList [VDict [("AddEntity", VDict [("status", VInt 0)])];
                        VDict [("AddImage", VDict [("status", VInt 2)])]])
                ["png"] true 0%Q)
           [0; 2] None 1 0 false None 0
           (VList [VDict [("AddEntity", VDict [("status", VInt 0)])];
                   VDict [("AddImage", VDict [("status", VInt 2)])]])
           ["png"] eq_refl).
Defined.

(* ===================================================================== *)
(** ** The exceptions of batch assembly                                   *)
(* ===================================================================== *)

(** Code whose exceptions are instances of [Exception], the ones the
    [except Exception] of [worker] catches. *)
Definition tame {S A : Type} (c : M S A) : Prop :=
  forall s e, snd (c s) = Raise e -> is_Exception e = true.

Lemma tame_bind {S A B : Type} (c : M S A) (f : A -> M S B) :
  tame c -> (forall a, tame (f a)) -> tame (mbind c f).
Proof.
  intros Hc Hf s e. unfold mbind. specialize (Hc s).
  destruct (c s) as [s' [a|e']]; [apply Hf|].
  cbn [snd] in *. intros [= ->]. now apply Hc.
Qed.

Lemma tame_mret {S A : Type} (a : A) : tame (@mret S A a).
Proof. intros s e. discriminate. Qed.

Lemma tame_contains (k : string) : tame (contains k).
Proof. intros [| | | | |] e; cbn; intros [= <-]; reflexivity. Qed.

Lemma tame_getitem (k : string) : tame (getitem k).
Proof.
  intros [| | | | |d] e; cbn; try (intros [= <-]; reflexivity).
  destruct (dict_get d k); intros [= <-]; reflexivity.
Qed.

Lemma tame_setitem (k : string) (x : value) : tame (setitem k x).
Proof. intros [| | | | |] e; cbn; intros [= <-]; reflexivity. Qed.

Lemma hash_key_exception (v : value) (e : exn) :
  hash_key v = Raise e -> is_Exception e = true.
Proof. destruct v; cbn; intros [= <-]; reflexivity. Qed.

Lemma tame_lookup (u : updates_t) (v : value) :
  tame (@lift value Z (lookup u v)).
Proof.
  intros s e. unfold lift, lookup. cbn [snd].
  destruct (hash_key v) as [k|e'] eqn:Hk.
  - destruct (updates_get u k); intros [= <-]; reflexivity.
  - intros [= <-]. now apply (hash_key_exception v).
Qed.

Lemma tame_within {A : Type} (k : string) (c : M value A) :
  tame c -> tame (within k c).
Proof.
  intros Hc [| | | | |d] e; cbn [within snd];
    try (intros [= <-]; reflexivity).
  destruct (dict_get d k) as [sub|]; [|intros [= <-]; reflexivity].
  specialize (Hc sub e). now destruct (c sub).
Qed.

Lemma tame_remap (u : updates_t) (f : string) : tame (remap u f).
Proof.
  apply tame_bind; [apply tame_getitem|]. intros old.
  apply tame_bind; [apply tame_lookup|]. intros p. apply tame_setitem.
Qed.

Lemma tame_remap_if_present (u : updates_t) (f : string) :
  tame (remap_if_present u f).
Proof.
  apply tame_bind; [apply tame_contains|].
  intros [|]; [apply tame_remap|apply tame_mret].
Qed.

Lemma remap_members_tame (u : updates_t) (l : list value) (e : exn) :
  snd (remap_members u l) = Raise e -> is_Exception e = true.
Proof.
  induction l as [|x l IH]; cbn [remap_members]; [discriminate|].
  pose proof (tame_remap_if_present u "ref" x e) as Hx.
  destruct (remap_if_present u "ref" x) as [x' [t|e']]; [|exact Hx].
  now destruct (remap_members u l).
Qed.

Lemma tame_remap_items (u : updates_t) : tame (remap_items u).
Proof.
  intros [| | | |l|[|]] e; cbn [remap_items snd];
    try (intros [= <-]; reflexivity); try discriminate.
  pose proof (remap_members_tame u l e).
  now destruct (remap_members u l).
Qed.

Lemma tame_remap_op (u : updates_t) (op : string) : tame (remap_op u op).
Proof.
  apply tame_bind; [apply tame_contains|].
  intros [|]; [apply tame_within, tame_remap_items|apply tame_mret].
Qed.

Lemma tame_remap_nested_ref (u : updates_t) (f : string) :
  tame (remap_nested_ref u f).
Proof.
  apply tame_bind; [apply tame_within, tame_contains|].
  intros [|]; [apply tame_within, tame_remap|apply tame_mret].
Qed.

Lemma tame_update_pointers (u : updates_t) : tame (update_pointers u).
Proof.
  unfold update_pointers.
  repeat first
    [ apply tame_remap_if_present
    | apply tame_remap_nested_ref
    | apply tame_remap_op
    | apply tame_contains
    | apply tame_mret
    | apply tame_within
    | apply tame_bind
    | intros [|]
    | intros _ ].
Qed.

Lemma tame_define_ref (i : nat) : tame (define_ref i).
Proof.
  intros [values u] e. unfold define_ref.
  destruct (py_contains "_ref" values) as [[|]|e'] eqn:Hc; cbn [snd];
    try discriminate.
  2:{ intros [= <-].
      destruct values; cbn in Hc; try discriminate;
        injection Hc as <-; reflexivity. }
  destruct (Py.bind (py_getitem values "_ref") hash_key) as [k|e'] eqn:Hk;
    cbn [snd].
  2:{ intros [= <-].
      destruct values as [| | | | |d]; cbn in Hk;
        try (injection Hk as <-; reflexivity).
      destruct (dict_get d "_ref") as [v|]; cbn in Hk;
        [|injection Hk as <-; reflexivity].
      now apply (hash_key_exception v). }
  destruct values as [| | | | |d]; cbn [setitem snd];
    try (intros [= <-]; reflexivity).
  cbn [py_getitem]. rewrite dict_get_set. cbn [String.eqb Ascii.eqb Bool.eqb].
  destruct (Z.of_nat i + 1 <? 100000); cbn [snd];
    [discriminate|intros [= <-]; reflexivity].
Qed.

Lemma tame_update_values (i : nat) : tame (update_values i).
Proof.
  unfold update_values. apply tame_bind; [apply tame_define_ref|].
  intros _ [values u] e.
  pose proof (tame_update_pointers u values e) as H.
  now destruct (update_pointers u values).
Qed.

Lemma tame_update_refs_loop (l : list addr) :
  forall i, tame (update_refs_loop i l).
Proof.
  induction l as [|a rest IH]; intros i [hp u] e; cbn [update_refs_loop].
  - discriminate.
  - destruct (deref hp a) as [| | | |l|[|[op values] others]]; cbn [snd];
      try (intros [= <-]; reflexivity); try discriminate.
    pose proof (tame_update_values i (values, u) e) as Hv.
    destruct (update_values i (values, u)) as [[values' u'] [t|e']];
      cbn [snd] in *; [apply IH|exact Hv].
Qed.

Lemma generate_batch_exception (data : list record) (hp : heap) (e : exn) :
  snd (generate_batch data hp) = Raise e -> is_Exception e = true.
Proof.
  unfold generate_batch, update_refs.
  pose proof (tame_update_refs_loop (flat_map fst data) 0
                (hp, ([] : updates_t)) e) as H.
  destruct (update_refs_loop 0 (flat_map fst data) _) as [[hp' u'] [t|e']];
    cbn [snd] in *; [discriminate|]. intros [= ->]. now apply H.
Qed.

Lemma update_refs_loop_length (l : list addr) :
  forall i hp u,
    length (fst (fst (update_refs_loop i l (hp, u)))) = length hp.
Proof.
  induction l as [|a rest IH]; intros i hp u; cbn [update_refs_loop].
  - reflexivity.
  - destruct (deref hp a) as [| | | |l|[|[op values] others]];
      cbn [fst snd]; try reflexivity.
    destruct (update_values i (values, u)) as [[values' u'] [t|e]];
      cbn [fst snd].
    + rewrite IH. apply length_store.
    + apply length_store.
Qed.


(** The fields [update_refs] looks at. *)
Definition ref_fields : list string :=
  ["_ref"; "image_ref"; "video_ref"; "is_connected_to"; "connect";
   "src"; "dst"; "ref"].

(** A dict command whose first body is a dict with none of these fields. *)
Definition plain (cmd : value) : bool :=
  match cmd with
  | VDict ((_, VDict body) :: _) =>
      forallb (fun f => negb (dict_has body f)) ref_fields
  | _ => false
  end.

Lemma update_values_plain (i : nat) (body : dict) (u : updates_t) :
  forallb (fun f => negb (dict_has body f)) ref_fields = true ->
  update_values i (VDict body, u) = ((VDict body, u), Ok tt).
Proof.
  cbn [forallb ref_fields]. rewrite !andb_true_iff, !negb_true_iff.
  intros (H1 & H2 & H3 & H4 & H5 & H6 & H7 & H8 & _).
  unfold update_values, mbind, define_ref. cbn [py_contains]. rewrite H1.
  unfold update_pointers, remap_if_present, mbind, contains, mret.
  repeat (cbn [py_contains];
          match goal with
          | H : dict_has body _ = false |- _ => rewrite H
          end).
  reflexivity.
Qed.

Lemma update_refs_loop_plain (l : list addr) (hp : heap) (u : updates_t) :
  forallb plain (map (deref hp) l) = true ->
  forall i, update_refs_loop i l (hp, u) = ((hp, u), Ok tt).
Proof.
  induction l as [|a rest IH]; cbn [map forallb update_refs_loop];
    intros Hplain i; [reflexivity|].
  apply andb_true_iff in Hplain as [Ha Hrest].
  assert (Hvalid : (a < length hp)%nat)
    by (apply deref_valid; destruct (deref hp a); discriminate).
  destruct (deref hp a) as [| | | | |[|[op [| | | | |body]] others]] eqn:Hderef;
    try discriminate.
  cbn [plain] in Ha. rewrite (update_values_plain i body u Ha).
  rewrite <- Hderef, store_same by exact Hvalid.
  now apply IH.
Qed.

(** X8. Commands without refs pass through unchanged: when no command of
    the batch holds ["_ref"] or a pointer field, [generate_batch] returns
    the commands and blobs of the records in order and changes no object,
    however many commands there are. *)
Theorem plain_batch_is_unchanged (data : list record) (hp : heap) :
  forallb plain (map (deref hp) (flat_map fst data)) = true ->
  generate_batch data hp = (hp, Ok (flat_map fst data, flat_map snd data)).
Proof.
  intros Hplain. unfold generate_batch, update_refs.
  now rewrite (update_refs_loop_plain _ hp [] Hplain).
Qed.

Lemma plain_batch_is_unchanged_witness :
  forallb plain
    (map (deref Example_run.hp) (flat_map fst (gen_records Example_run.gen)))
  = true
  /\ generate_batch (gen_records Example_run.gen) Example_run.hp
     = (Example_run.hp,
        Ok (flat_map fst (gen_records Example_run.gen),
            flat_map snd (gen_records Example_run.gen))).
Proof.
  split; [reflexivity|].
  apply (plain_batch_is_unchanged (gen_records Example_run.gen)
           Example_run.hp).
  reflexivity.
Defined.

(* ===================================================================== *)
(** ** Batches that send nothing                                          *)
(* ===================================================================== *)

Lemma sum_stats_empty_entry (k : string) (l : list stats) :
  sum_stats k (l ++ [[]]) = Raise KeyError.
Proof.
  induction l as [|s l IH]; cbn [app sum_stats stats_get]; [reflexivity|].
  destruct (stats_get s k); [|reflexivity]. now rewrite IH.
Qed.

(** X9. A dry run sends nothing and leaves statistics that cannot be
    summed: when [dry_run] is set and the batch is assembled, [do_batch]
    returns without consulting the connection or the generator's handler,
    appends the time 1 and an empty [worker_stats] dict and counts no
    error; the empty dict makes [get_succeeded_queries],
    [get_succeeded_commands] and [get_objects_existed] raise [KeyError]
    from then on. *)
Theorem dry_run_sends_nothing
    (cfg : pq_config) (gen : generator)
    (db : list value -> list blob -> reply) (batch_start : Z)
    (data : list record) (st : pq_state)
    (hp : heap) (q : list addr) (blobs : list blob) :
  dry_run cfg = true ->
  generate_batch data (st_heap st) = (hp, Ok (q, blobs)) ->
  let run := do_batch cfg gen db batch_start data st in
  snd run = Ok tt
  /\ (forall gen' db', do_batch cfg gen' db' batch_start data st = run)
  /\ st_heap (fst run) = hp
  /\ st_times_arr (fst run) = st_times_arr st ++ [1%Q]
  /\ st_actual_stats (fst run) = st_actual_stats st ++ [[]]
  /\ st_error_counter (fst run) = st_error_counter st
  /\ get_succeeded_queries (fst run) = Raise KeyError
  /\ get_succeeded_commands (fst run) = Raise KeyError
  /\ get_objects_existed (fst run) = Raise KeyError.
Proof.
  intros Hdry Hgen. cbv zeta.
  assert (Hrun : forall gen' db',
            do_batch cfg gen' db' batch_start data st
            = (record_batch (with_heap st hp) 1%Q []
                 (DryRun batch_start (length data)), Ok tt))
    by (intros gen' db'; unfold do_batch; now rewrite Hgen, Hdry).
  rewrite (Hrun gen db). cbn [fst snd record_batch with_heap st_heap
    st_times_arr st_actual_stats st_error_counter].
  unfold get_succeeded_queries, get_succeeded_commands, get_objects_existed.
  cbn [st_actual_stats record_batch with_heap].
  rewrite !sum_stats_empty_entry.
  repeat split. intros gen' db'. apply Hrun.
Qed.

Lemma dry_run_sends_nothing_witness :
  let cfg := mk_config true 1 0 4 [0; 2] in
  let st := Parallelizer.fresh Example_run.hp in
  let data := py_slice (gen_records Example_run.gen) 0 4 in
  let run := do_batch cfg Example_run.gen (Example_run.dbs 0 0 0%nat 0%nat) 0
               data st in
  (dry_run cfg = true
   /\ generate_batch data (st_heap st)
      = (Example_run.hp, Ok ([0; 1; 2; 3]%nat, [])))
  /\ snd run = Ok tt
  /\ (forall gen' db', do_batch cfg gen' db' 0 data st = run)
  /\ st_heap (fst run) = Example_run.hp
  /\ st_times_arr (fst run) = st_times_arr st ++ [1%Q]
  /\ st_actual_stats (fst run) = st_actual_stats st ++ [[]]
  /\ st_error_counter (fst run) = st_error_counter st
  /\ get_succeeded_queries (fst run) = Raise KeyError
  /\ get_succeeded_commands (fst run) = Raise KeyError
  /\ get_objects_existed (fst run) = Raise KeyError.
Proof.
  cbv zeta. split.
  - split; reflexivity.
  - apply (dry_run_sends_nothing (mk_config true 1 0 4 [0; 2]) Example_run.gen
             (Example_run.dbs 0 0 0%nat 0%nat) 0
             (py_slice (gen_records Example_run.gen) 0 4)
             (Parallelizer.fresh Example_run.hp) Example_run.hp
             [0; 1; 2; 3]%nat []); reflexivity.
Defined.

(** A handler whose signature [do_batch] rejects: fewer than four or more
    than five parameters. *)
Definition bad_signature (gen : generator) : Prop :=
  exists n f,
    gen_response_handler gen = Some (n, f) /\ ((n < 4)%nat \/ (5 < n)%nat).

Lemma response_handler_of_bad (gen : generator) :
  bad_signature gen ->
  response_handler_of gen
  = Raise (UserException "Bad Signature for response_handler").
Proof.
  intros (n & f & Hh & Hn). unfold response_handler_of. rewrite Hh.
  destruct Hn as [Hn|Hn].
  - destruct (Nat.ltb_spec n 4); [reflexivity|lia].
  - destruct (Nat.ltb_spec n 4); [reflexivity|].
    destruct (Nat.ltb_spec 5 n); [reflexivity|lia].
Qed.

(** With such a handler a batch that is not a dry run raises an instance
    of [Exception] before anything is sent or recorded. *)
Lemma do_batch_bad_signature (cfg : pq_config) (gen : generator)
    (db : list value -> list blob -> reply) (batch_start : Z)
    (data : list record) (st : pq_state) :
  dry_run cfg = false ->
  bad_signature gen ->
  exists hp e,
    is_Exception e = true
    /\ forall db', do_batch cfg gen db' batch_start data st
                   = (with_heap st hp, Raise e).
Proof.
  intros Hdry Hbad. unfold do_batch.
  pose proof (generate_batch_exception data (st_heap st)) as Hexn.
  destruct (generate_batch data (st_heap st)) as [hp [[q blobs]|e]].
  - exists hp, (UserException "Bad Signature for response_handler").
    split; [reflexivity|]. intros db'.
    now rewrite Hdry, (response_handler_of_bad gen Hbad).
  - exists hp, e. split; [now apply Hexn|reflexivity].
Qed.

Lemma worker_loop_bad_signature (cfg : pq_config) (gen : generator)
    (db : nat -> list value -> list blob -> reply) (start end_ : Z)
    (idxs : list nat) :
  dry_run cfg = false ->
  bad_signature gen ->
  forall st,
    let run := worker_loop cfg gen db start end_ idxs st in
    snd run = Ok tt
    /\ st_times_arr (fst run) = st_times_arr st
    /\ st_actual_stats (fst run) = st_actual_stats st
    /\ st_error_counter (fst run)
       = st_error_counter st + Z.of_nat (length idxs)
    /\ forall db', worker_loop cfg gen db' start end_ idxs st = run.
Proof.
  intros Hdry Hbad. induction idxs as [|i rest IH]; intros st run; subst run.
  - cbn [worker_loop mret fst snd length]. repeat split. lia.
  - cbn [worker_loop]. unfold mbind, worker_batch.
    destruct (do_batch_bad_signature cfg gen (db i)
                (start + Z.of_nat i * batchsize cfg)
                (py_slice (gen_records gen)
                   (start + Z.of_nat i * batchsize cfg)
                   (Z.min (start + Z.of_nat i * batchsize cfg + batchsize cfg)
                      end_))
                st Hdry Hbad) as (hp & e & He & Hrun).
    rewrite (Hrun (db i)), He. cbn [with_heap st_heap st_times_arr
      st_actual_stats st_error_counter st_events].
    match goal with |- context [worker_loop cfg gen db start end_ rest ?s] =>
      destruct (IH s) as (Hok & Ht & Hs & Herr & Hdb) end.
    cbn [st_times_arr st_actual_stats st_error_counter] in Ht, Hs, Herr.
    rewrite Hok, Ht, Hs, Herr. cbn [length].
    split; [reflexivity|]. split; [reflexivity|]. split; [reflexivity|].
    split; [lia|].
    intros db'. rewrite (Hrun (db' i)), He.
    cbn [with_heap st_heap st_times_arr st_actual_stats st_error_counter
         st_events].
    apply Hdb.
Qed.

(** X10. A response handler with fewer than four or more than five
    parameters fails every batch before anything is sent: the worker runs
    to its end, whatever the connection would answer, counts one error
    for each of its batches and records no time and no statistics, so
    that [print_stats] has as many queries as before and, from the state
    of a new run, has none and no error percentage. *)
Theorem bad_signature_fails_every_batch
    (cfg : pq_config) (gen : generator)
    (db : nat -> list value -> list blob -> reply) (start end_ : Z)
    (st : pq_state) :
  batchsize cfg <> 0 ->
  dry_run cfg = false ->
  bad_signature gen ->
  let run := worker cfg gen db start end_ st in
  snd run = Ok tt
  /\ st_times_arr (fst run) = st_times_arr st
  /\ st_actual_stats (fst run) = st_actual_stats st
  /\ st_error_counter (fst run)
     = st_error_counter st
       + Z.of_nat (Z.to_nat (total_batches (batchsize cfg) start end_))
  /\ (forall db', worker cfg gen db' start end_ st = run)
  /\ (st_times_arr st = [] ->
      total_queries_exec (fst run) = 0 /\ err_perc (fst run) = None).
Proof.
  intros Hbs Hdry Hbad run. subst run. unfold worker.
  destruct (Z.eqb_spec (batchsize cfg) 0) as [?|_]; [contradiction|].
  destruct (worker_loop_bad_signature cfg gen db start end_
              (seq 0 (Z.to_nat (total_batches (batchsize cfg) start end_)))
              Hdry Hbad st) as (Hok & Ht & Hs & Herr & Hdb).
  rewrite length_seq in Herr.
  split; [exact Hok|]. split; [exact Ht|]. split; [exact Hs|].
  split; [exact Herr|]. split; [exact Hdb|].
  intros Hnew. unfold err_perc, total_queries_exec. rewrite Ht, Hnew.
  split; reflexivity.
Qed.

Lemma bad_signature_fails_every_batch_witness :
  let gen := mk_generator (gen_records Example_run.gen)
               (Some (3%nat, Example_demux.quiet)) None in
  let st := Parallelizer.fresh Example_run.hp in
  let run := worker Example_run.cfg gen (Example_run.dbs 0 0 0%nat) 0 10 st in
  (batchsize Example_run.cfg <> 0
   /\ dry_run Example_run.cfg = false
   /\ bad_signature gen)
  /\ snd run = Ok tt
  /\ st_times_arr (fst run) = st_times_arr st
  /\ st_actual_stats (fst run) = st_actual_stats st
  /\ st_error_counter (fst run)
     = st_error_counter st
       + Z.of_nat (Z.to_nat (total_batches (batchsize Example_run.cfg) 0 10))
  /\ (forall db', worker Example_run.cfg gen db' 0 10 st = run)
  /\ (st_times_arr st = [] ->
      total_queries_exec (fst run) = 0 /\ err_perc (fst run) = None).
Proof.
  cbv zeta.
  assert (Hbad : bad_signature
                   (mk_generator (gen_records Example_run.gen)
                      (Some (3%nat, Example_demux.quiet)) None)).
  { exists 3%nat, Example_demux.quiet. split; [reflexivity|left; lia]. }
  split.
  - split; [discriminate|]. split; [reflexivity|exact Hbad].
  - apply (bad_signature_fails_every_batch Example_run.cfg
             (mk_generator (gen_records Example_run.gen)
                (Some (3%nat, Example_demux.quiet)) None)
             (Example_run.dbs 0 0 0%nat) 0 10
             (Parallelizer.fresh Example_run.hp));
      [discriminate|reflexivity|exact Hbad].
Defined.

(* ===================================================================== *)
(** ** The exceptions of a batch, and the worker that outlives them       *)
(* ===================================================================== *)

(** A result whose exception, if any, is an instance of [Exception]. *)
Definition mild {A : Type} (x : result A) : Prop :=
  forall e, x = Raise e -> is_Exception e = true.

Lemma mild_ok {A : Type} (a : A) : mild (Ok a).
Proof. intros e. discriminate. Qed.

Lemma mild_raise {A : Type} (e : exn) :
  is_Exception e = true -> mild (@Raise A e).
Proof. intros He e' [= <-]. exact He. Qed.

Lemma mild_bind {A B : Type} (x : result A) (f : A -> result B) :
  mild x -> (forall a, mild (f a)) -> mild (Py.bind x f).
Proof.
  intros Hx Hf. destruct x as [a|e]; cbn [Py.bind]; [apply Hf|].
  intros e' [= <-]. now apply Hx.
Qed.

Lemma mild_py_getitem (v : value) (k : string) : mild (py_getitem v k).
Proof.
  destruct v as [| | | | |d]; cbn [py_getitem];
    try (apply mild_raise; reflexivity).
  destruct (dict_get d k); [apply mild_ok|apply mild_raise; reflexivity].
Qed.

Lemma mild_py_contains (k : string) (v : value) : mild (py_contains k v).
Proof.
  destruct v; cbn [py_contains];
    first [apply mild_ok | apply mild_raise; reflexivity].
Qed.

Lemma mild_as_int (v : value) : mild (as_int v).
Proof.
  destruct v; cbn [as_int];
    first [apply mild_ok | apply mild_raise; reflexivity].
Qed.

Lemma mild_hash_key (v : value) : mild (hash_key v).
Proof.
  destruct v; cbn [hash_key];
    first [apply mild_ok | apply mild_raise; reflexivity].
Qed.

(** Steps of a proof that a result is mild. *)
Ltac mild_step :=
  first
    [ apply mild_ok
    | apply mild_raise; reflexivity
    | apply mild_py_getitem
    | apply mild_py_contains
    | apply mild_as_int
    | apply mild_hash_key
    | apply mild_bind; [|intro] ].

Lemma mild_count_key (req resp : value) (k : string) (n : Z) :
  mild (count_key req resp k n).
Proof.
  unfold count_key. destruct (is_blob_returning k); [|apply mild_ok].
  apply mild_bind; [apply mild_py_getitem|]. intros body.
  apply mild_bind; [apply mild_py_contains|]. intros [|]; [|apply mild_ok].
  apply mild_bind; [apply mild_py_getitem|]. intros flag.
  destruct (truthy flag); [|apply mild_ok].
  repeat mild_step.
Qed.

Lemma mild_count_keys (req resp : value) (ks : list string) :
  forall n, mild (count_keys req resp ks n).
Proof.
  induction ks as [|k ks IH]; intros n; cbn [count_keys].
  - apply mild_ok.
  - apply mild_bind; [apply mild_count_key|]. intros m. apply IH.
Qed.

Lemma mild_count_members (l : list value) (n : Z) : mild (count_members l n).
Proof.
  induction l as [|x l IH]; cbn [count_members]; [apply mild_ok|].
  destruct x; try exact IH.
  destruct (is_blob_returning s); [apply mild_raise; reflexivity|exact IH].
Qed.

Lemma mild_count_request (req resp : value) (n : Z) :
  mild (count_request req resp n).
Proof.
  destruct req; cbn [count_request];
    first [ apply mild_ok | apply mild_raise; reflexivity
          | apply mild_count_members | apply mild_count_keys ].
Qed.

Lemma mild_count_group (reqs : list value) :
  forall resps n, mild (count_group reqs resps n).
Proof.
  induction reqs as [|req reqs IH]; intros [|resp resps] n;
    cbn [count_group]; try apply mild_ok.
  apply mild_bind; [apply mild_count_request|]. intros m. apply IH.
Qed.

Lemma mild_group_b_count (query : list value) (response : value) (c i : Z) :
  mild (group_b_count query response c i).
Proof.
  unfold group_b_count. destruct response; try apply mild_ok.
  apply mild_count_group.
Qed.

(** A handler whose exceptions are instances of [Exception]. *)
Definition raises_exceptions (h : handler) : Prop :=
  forall past call e, h past call = Some e -> is_Exception e = true.

Lemma mild_demux_loop (h : handler) (query : list value)
    (query_blobs : list blob) (response : value) (response_blobs : list blob)
    (c k : Z) (off : option Z) (idxs : list Z) :
  raises_exceptions h ->
  forall br tr,
    mild (snd (demux_loop h query query_blobs response response_blobs c k off
                 idxs br tr)).
Proof.
  intros Hh. induction idxs as [|i rest IH]; intros br tr;
    cbn [demux_loop].
  - apply mild_ok.
  - pose proof (mild_group_b_count query response c i) as Hb.
    destruct (group_b_count query response c i) as [b|e]; cbn [snd].
    + destruct (h tr _) as [e|] eqn:Hcall; cbn [snd]; [|apply IH].
      apply mild_raise. now apply (Hh _ _ _ Hcall).
    + intros e' [= <-]. now apply Hb.
Qed.

Lemma mild_map_response_to_handler (h : handler) (query : list value)
    (query_blobs : list blob) (response : value) (response_blobs : list blob)
    (c k : Z) (off : option Z) :
  raises_exceptions h ->
  mild (snd (map_response_to_handler h query query_blobs response
               response_blobs c k off)).
Proof.
  intros Hh. unfold map_response_to_handler.
  destruct (c =? 0); [apply mild_raise; reflexivity|].
  now apply mild_demux_loop.
Qed.

Lemma mild_collect_keys (res : value) (cmds : list string) :
  forall st, mild (collect_keys res cmds st).
Proof.
  induction cmds as [|cmd cmds IH]; intros st; cbn [collect_keys].
  - apply mild_ok.
  - repeat mild_step. apply IH.
Qed.

Lemma mild_collect_members (res : value) (l cmds : list value) :
  forall st, mild (collect_members res l cmds st).
Proof.
  induction cmds as [|cmd cmds IH]; intros st; cbn [collect_members].
  - apply mild_ok.
  - apply mild_bind; [apply mild_as_int|]. intros i.
    destruct (py_index l i); [|apply mild_raise; reflexivity].
    repeat mild_step. apply IH.
Qed.

Lemma mild_collect_result (res : value) (st : statuses_t) :
  mild (collect_result res st).
Proof.
  destruct res; cbn [collect_result];
    first [ apply mild_raise; reflexivity
          | apply mild_collect_members | apply mild_collect_keys | idtac ].
  destruct (String.eqb s ""); [apply mild_ok|apply mild_raise; reflexivity].
Qed.

Lemma mild_collect_statuses (rs : list value) :
  forall st, mild (collect_statuses rs st).
Proof.
  induction rs as [|res rs IH]; intros st; cbn [collect_statuses].
  - apply mild_ok.
  - apply mild_bind; [apply mild_collect_result|]. intros st'. apply IH.
Qed.

Lemma mild_classify (ss : list Z) (r : value) (result0 : Z) :
  mild (classify ss r result0).
Proof.
  unfold classify. apply mild_bind.
  - destruct r; try apply mild_ok.
    + apply mild_bind; [apply mild_collect_statuses|]. intros st.
      apply mild_ok.
    + repeat mild_step.
  - intros [st r1]. destruct (negb (r1 =? 1)); [|apply mild_ok].
    destruct (warn_list ss st); apply mild_ok.
Qed.

Lemma mild_execute_batch (q : list value) (blobs : list blob)
    (db : list value -> list blob -> reply) (ss : list Z)
    (response_handler : option handler) (c k : Z) (strict : bool)
    (idx : option Z) :
  (forall h, response_handler = Some h -> strict = true ->
             raises_exceptions h) ->
  mild (snd (execute_batch q blobs db ss response_handler c k strict idx)).
Proof.
  intros Hh.
  destruct (execute_batch_result q blobs db ss response_handler c k strict idx)
    as [H | (h & e & Hsome & Hstrict & _ & Hmap & H)]; rewrite H.
  - apply mild_bind; [apply mild_classify|]. intros code. apply mild_ok.
  - apply mild_raise.
    apply (mild_map_response_to_handler h q blobs _ _ c k idx
             (Hh h Hsome Hstrict) e Hmap).
Qed.

Lemma mild_count_status (n : Z) (items : dict) : mild (count_status n items).
Proof.
  induction items as [|[k v] items IH]; cbn [count_status].
  - apply mild_ok.
  - apply mild_bind; [apply mild_py_getitem|]. intros s.
    apply mild_bind; [exact IH|]. intros rest. apply mild_ok.
Qed.

Lemma mild_count_status_strict (n : Z) (rs : list value) :
  mild (count_status_strict n rs).
Proof.
  induction rs as [|r rs IH]; cbn [count_status_strict].
  - apply mild_ok.
  - destruct r; try (apply mild_raise; reflexivity).
    apply mild_bind; [apply mild_count_status|]. intros here.
    apply mild_bind; [exact IH|]. intros rest. apply mild_ok.
Qed.

Lemma mild_sum_status (n : Z) (r : value) : mild (sum_status n r).
Proof.
  destruct r as [| | |s|rs|[|]]; cbn [sum_status];
    first [ apply mild_ok | apply mild_raise; reflexivity
          | apply mild_count_status_strict | idtac ].
  destruct (String.eqb s ""); [apply mild_ok|apply mild_raise; reflexivity].
Qed.

Lemma mild_count_status_groups (n : Z) (rs : list value) :
  mild (count_status_groups n rs).
Proof.
  induction rs as [|g rs IH]; cbn [count_status_groups].
  - apply mild_ok.
  - apply mild_bind; [apply mild_count_status|]. intros here.
    apply mild_bind; [exact IH|]. intros rest. apply mild_ok.
Qed.

Lemma mild_sum_status_filtered (n : Z) (r : value) :
  mild (sum_status_filtered n r).
Proof.
  destruct r; cbn [sum_status_filtered];
    first [ apply mild_ok | apply mild_raise; reflexivity
          | apply mild_count_status_groups ].
Qed.

Lemma mild_py_len (r : value) : mild (py_len r).
Proof.
  destruct r; cbn [py_len];
    first [apply mild_ok | apply mild_raise; reflexivity].
Qed.

Lemma mild_py_range_step (n step : Z) : mild (py_range_step n step).
Proof.
  unfold py_range_step.
  destruct (step =? 0); [apply mild_raise; reflexivity|].
  destruct (step <? 0); apply mild_ok.
Qed.

Lemma mild_count_succeeded_queries (cpq : Z) (r : value) (idxs : list Z) :
  forall sq, mild (count_succeeded_queries cpq r idxs sq).
Proof.
  induction idxs as [|i rest IH]; intros sq; cbn [count_succeeded_queries].
  - apply mild_ok.
  - destruct r; try apply IH.
    apply mild_bind; [apply mild_count_status_groups|]. intros zeros.
    apply IH.
Qed.

Lemma mild_worker_stats_of (cfg : pq_config) (code : Z) (q : list addr)
    (data : list record) (r : value) :
  mild (worker_stats_of cfg code q data r).
Proof.
  unfold worker_stats_of.
  destruct (code =? 0).
  - apply mild_bind; [apply mild_sum_status|]. intros x. apply mild_ok.
  - destruct (code =? 1); [apply mild_ok|].
    destruct (code =? 2); [|apply mild_ok].
    apply mild_bind; [apply mild_sum_status_filtered|]. intros succeeded.
    apply mild_bind; [apply mild_sum_status_filtered|]. intros existed.
    apply mild_bind; [apply mild_py_len|]. intros n.
    apply mild_bind; [apply mild_py_range_step|]. intros idxs.
    apply mild_bind; [apply mild_count_succeeded_queries|]. intros sq.
    apply mild_ok.
Qed.

(** A generator whose handler, when its exceptions are passed on, raises
    instances of [Exception] only.  A generator without a handler or
    without strict validation is one. *)
Definition catchable (gen : generator) : Prop :=
  forall n f,
    gen_response_handler gen = Some (n, f) ->
    strict_of gen = true ->
    raises_exceptions f.

Lemma response_handler_of_catchable (gen : generator) (h : handler) :
  catchable gen ->
  response_handler_of gen = Ok (Some h) ->
  strict_of gen = true ->
  raises_exceptions h.
Proof.
  intros Hgen. unfold response_handler_of.
  destruct (gen_response_handler gen) as [[n f]|] eqn:Hh; [|discriminate].
  destruct ((n <? 4)%nat || (5 <? n)%nat); [discriminate|].
  intros Hrh Hstrict. specialize (Hgen n f Hh Hstrict).
  destruct (n =? 4)%nat; injection Hrh as <-; [|exact Hgen].
  intros past call e. apply Hgen.
Qed.

Lemma mild_response_handler_of (gen : generator) :
  mild (response_handler_of gen).
Proof.
  unfold response_handler_of.
  destruct (gen_response_handler gen) as [[n f]|]; [|apply mild_ok].
  destruct ((n <? 4)%nat || (5 <? n)%nat); [apply mild_raise; reflexivity|].
  destruct (n =? 4)%nat; apply mild_ok.
Qed.

(** What a batch leaves in the collections and the counter: one time and
    one [worker_stats], with an error counted or not; or nothing. *)
Definition recorded (st st' : pq_state) : Prop :=
  exists t ws,
    st_times_arr st' = st_times_arr st ++ [t]
    /\ st_actual_stats st' = st_actual_stats st ++ [ws]
    /\ (st_error_counter st' = st_error_counter st
        \/ st_error_counter st' = st_error_counter st + 1).

Definition unrecorded (st st' : pq_state) : Prop :=
  st_times_arr st' = st_times_arr st
  /\ st_actual_stats st' = st_actual_stats st.

Lemma do_batch_outcome (cfg : pq_config) (gen : generator)
    (db : list value -> list blob -> reply) (batch_start : Z)
    (data : list record) (st : pq_state) :
  catchable gen ->
  let run := do_batch cfg gen db batch_start data st in
  (snd run = Ok tt /\ recorded st (fst run))
  \/ (exists e,
         snd run = Raise e /\ is_Exception e = true
         /\ unrecorded st (fst run)
         /\ st_error_counter (fst run) = st_error_counter st).
Proof.
  intros Hgen. cbv zeta. unfold do_batch.
  pose proof (generate_batch_exception data (st_heap st)) as Hasm.
  destruct (generate_batch data (st_heap st)) as [hp [[q blobs]|e]];
    cbn [snd] in Hasm.
  2:{ right. exists e. cbn [fst snd]. repeat split. now apply Hasm. }
  destruct (dry_run cfg).
  { left. cbn [fst snd]. split; [reflexivity|].
    exists 1%Q, []. cbn. auto. }
  pose proof (mild_response_handler_of gen) as Hrh.
  destruct (response_handler_of gen) as [rh|e] eqn:Hrhe.
  2:{ right. exists e. cbn [fst snd]. repeat split. now apply Hrh. }
  assert (Hexec : mild (snd (execute_batch (map (deref hp) q) blobs db
                               (success_statuses cfg) rh
                               (commands_per_query cfg) (blobs_per_query cfg)
                               (strict_of gen) (Some batch_start)))).
  { apply mild_execute_batch. intros h -> Hstrict.
    now apply (response_handler_of_catchable gen). }
  destruct (snd (execute_batch _ _ _ _ _ _ _ _ _)) as [[[code r] b]|e].
  2:{ right. exists e. cbn [fst snd]. repeat split. now apply Hexec. }
  pose proof (mild_worker_stats_of cfg code q data r) as Hws.
  destruct (worker_stats_of cfg code q data r) as [ws|e] eqn:Hwse.
  - left. cbn [fst snd]. split; [reflexivity|].
    eexists _, ws. cbn [record_batch st_times_arr st_actual_stats
      st_error_counter].
    destruct (code =? 1); cbn; auto.
  - right. exists e. cbn [fst snd].
    destruct (Z.eqb_spec code 1) as [->|Hcode].
    + discriminate.
    + repeat split. now apply Hws.
Qed.

Lemma worker_batch_outcome (cfg : pq_config) (gen : generator)
    (db : nat -> list value -> list blob -> reply)
    (start end_ : Z) (i : nat) (st : pq_state) :
  catchable gen ->
  let run := worker_batch cfg gen db start end_ i st in
  snd run = Ok tt
  /\ (recorded st (fst run)
      \/ (unrecorded st (fst run)
          /\ st_error_counter (fst run) = st_error_counter st + 1)).
Proof.
  intros Hgen. cbv zeta. unfold worker_batch.
  destruct (do_batch_outcome cfg gen (db i)
              (start + Z.of_nat i * batchsize cfg)
              (py_slice (gen_records gen)
                 (start + Z.of_nat i * batchsize cfg)
                 (Z.min (start + Z.of_nat i * batchsize cfg + batchsize cfg)
                    end_))
              st Hgen) as [[Hok Hrec] | (e & Hraise & He & [Ht Hs] & Herr)];
    destruct (do_batch _ _ _ _ _ _) as [st' [t|e']]; cbn [fst snd] in *;
    try discriminate.
  - split; [reflexivity|now left].
  - injection Hraise as ->. rewrite He. cbn [fst snd].
    split; [reflexivity|]. right. unfold unrecorded.
    cbn [st_times_arr st_actual_stats st_error_counter].
    rewrite Ht, Hs, Herr. auto.
Qed.

(** The state [st'] is [st] after [n] batches, each of which was recorded
    or counted as an error, if not both. *)
Definition after_batches (n : nat) (st st' : pq_state) : Prop :=
  exists ts wss,
    st_times_arr st' = st_times_arr st ++ ts
    /\ st_actual_stats st' = st_actual_stats st ++ wss
    /\ length wss = length ts
    /\ (length ts <= n)%nat
    /\ Z.of_nat n - Z.of_nat (length ts)
       <= st_error_counter st' - st_error_counter st <= Z.of_nat n.

Lemma worker_loop_outcome (cfg : pq_config) (gen : generator)
    (db : nat -> list value -> list blob -> reply)
    (start end_ : Z) (idxs : list nat) :
  catchable gen ->
  forall st,
    let run := worker_loop cfg gen db start end_ idxs st in
    snd run = Ok tt /\ after_batches (length idxs) st (fst run).
Proof.
  intros Hgen. induction idxs as [|i rest IH]; intros st; cbv zeta.
  - cbn [worker_loop mret fst snd length]. split; [reflexivity|].
    exists [], []. rewrite !app_nil_r. cbn [length]. repeat split; lia.
  - cbn [worker_loop]. unfold mbind.
    destruct (worker_batch_outcome cfg gen db start end_ i st Hgen)
      as [Hok Hstep].
    destruct (worker_batch cfg gen db start end_ i st) as [st1 r1];
      cbn [fst snd] in Hok, Hstep. subst r1.
    destruct (IH st1) as [Hok' (ts & wss & Ht & Hs & Hlen & Hn & Herr)].
    split; [exact Hok'|]. cbn [length].
    destruct Hstep as [(t & ws & Ht1 & Hs1 & Herr1) | [[Ht1 Hs1] Herr1]].
    + exists (t :: ts), (ws :: wss).
      rewrite Ht, Hs, Ht1, Hs1, <- !app_assoc. cbn [app length].
      repeat split; lia.
    + exists ts, wss. rewrite Ht, Hs, Ht1, Hs1. repeat split; lia.
Qed.

(** X11. A worker outlives its batches.  Without a handler, without
    strict validation, or with a handler that raises instances of
    [Exception] only, [worker] runs to the end of its range whatever the
    commands, the responses and the handler do: each of its batches
    appends one time and one [worker_stats], or is counted as an error,
    or both.  Times and statistics stay aligned, and the errors counted
    are at least the batches that were not recorded and at most the
    batches. *)
Theorem worker_outlives_its_batches
    (cfg : pq_config) (gen : generator)
    (db : nat -> list value -> list blob -> reply) (start end_ : Z)
    (st : pq_state) :
  batchsize cfg <> 0 ->
  catchable gen ->
  let run := worker cfg gen db start end_ st in
  let n := Z.to_nat (total_batches (batchsize cfg) start end_) in
  snd run = Ok tt
  /\ exists ts wss,
      st_times_arr (fst run) = st_times_arr st ++ ts
      /\ st_actual_stats (fst run) = st_actual_stats st ++ wss
      /\ length wss = length ts
      /\ (length ts <= n)%nat
      /\ Z.of_nat n - Z.of_nat (length ts)
         <= st_error_counter (fst run) - st_error_counter st <= Z.of_nat n.
Proof.
  intros Hbs Hgen run n. subst run n. unfold worker.
  destruct (Z.eqb_spec (batchsize cfg) 0) as [?|_]; [contradiction|].
  destruct (worker_loop_outcome cfg gen db start end_
              (seq 0 (Z.to_nat (total_batches (batchsize cfg) start end_)))
              Hgen st) as [Hok Hafter].
  rewrite length_seq in Hafter. split; [exact Hok|exact Hafter].
Qed.

Lemma worker_outlives_its_batches_witness :
  let st := Parallelizer.fresh Example_run.hp in
  let run := worker Example_run.cfg Example_run.gen (Example_run.dbs 0 1 0%nat)
               0 10 st in
  let n := Z.to_nat (total_batches (batchsize Example_run.cfg) 0 10) in
  (batchsize Example_run.cfg <> 0 /\ catchable Example_run.gen)
  /\ snd run = Ok tt
  /\ exists ts wss,
      st_times_arr (fst run) = st_times_arr st ++ ts
      /\ st_actual_stats (fst run) = st_actual_stats st ++ wss
      /\ length wss = length ts
      /\ (length ts <= n)%nat
      /\ Z.of_nat n - Z.of_nat (length ts)
         <= st_error_counter (fst run) - st_error_counter st <= Z.of_nat n.
Proof.
  cbv zeta.
  assert (Hgen : catchable Example_run.gen) by (intros n f; discriminate).
  split.
  - split; [discriminate|exact Hgen].
  - apply (worker_outlives_its_batches Example_run.cfg Example_run.gen
             (Example_run.dbs 0 1 0%nat) 0 10
             (Parallelizer.fresh Example_run.hp));
      [discriminate|exact Hgen].
Defined.

(* ===================================================================== *)
(** ** The batches of a worker                                            *)
(* ===================================================================== *)

Lemma total_batches_bounds (bs start end_ : Z) :
  0 < bs -> start <= end_ ->
  let n := total_batches bs start end_ in
  0 <= n /\ end_ - start <= n * bs /\ (n - 1) * bs < end_ - start + bs
  /\ (start < end_ -> (n - 1) * bs < end_ - start).
Proof.
  intros Hbs Hd. cbv zeta. unfold total_batches.
  pose proof (Z.div_mod (end_ - start) bs ltac:(lia)) as E.
  pose proof (Z.mod_pos_bound (end_ - start) bs Hbs) as B.
  assert (0 <= (end_ - start) / bs) by (apply Z.div_pos; lia).
  destruct (Z.gtb_spec ((end_ - start) mod bs) 0); repeat split; nia.
Qed.

Lemma total_batches_is_ceil (bs start end_ : Z) :
  0 < bs -> start <= end_ ->
  total_batches bs start end_ = ceil_div (end_ - start) bs.
Proof.
  intros Hbs Hd. unfold total_batches, ceil_div.
  pose proof (Z.div_mod (end_ - start) bs ltac:(lia)) as E.
  pose proof (Z.mod_pos_bound (end_ - start) bs Hbs) as B.
  pose proof (Z.div_mod (- (end_ - start)) bs ltac:(lia)) as E'.
  pose proof (Z.mod_pos_bound (- (end_ - start)) bs Hbs) as B'.
  destruct (Z.gtb_spec ((end_ - start) mod bs) 0); nia.
Qed.

(** Batch [i] of a worker, as a chunk of the records of its range. *)
Lemma batch_is_chunk (cfg : pq_config) (gen : generator) (start end_ : Z)
    (i : nat) :
  0 < batchsize cfg ->
  0 <= start <= end_ ->
  end_ <= Z.of_nat (length (gen_records gen)) ->
  Z.of_nat i * batchsize cfg <= end_ - start ->
  Spec.batch_of cfg gen start end_ i
  = firstn (Z.to_nat (batchsize cfg))
      (skipn (i * Z.to_nat (batchsize cfg))
         (py_slice (gen_records gen) start end_)).
Proof.
  intros Hbs Hse Hlen Hi. unfold Spec.batch_of.
  set (bs := batchsize cfg) in *. set (recs := gen_records gen) in *.
  rewrite !py_slice_nonneg by lia.
  rewrite skipn_firstn_comm, firstn_firstn, skipn_skipn.
  f_equal; [|f_equal]; nia.
Qed.

(** The turns of the loop of a worker lie within its range. *)
Lemma batch_within_range (bs start end_ : Z) (i : nat) :
  0 < bs -> start <= end_ ->
  (i < Z.to_nat (total_batches bs start end_))%nat ->
  Z.of_nat i * bs < end_ - start.
Proof.
  intros Hbs Hse Hi.
  destruct (total_batches_bounds bs start end_ Hbs Hse)
    as (_ & _ & _ & Hlast).
  destruct (Z.eq_dec start end_) as [->|Hne].
  - unfold total_batches in Hi. rewrite Z.sub_diag in Hi.
    rewrite Z.mod_0_l, Z.div_0_l in Hi by lia. cbn in Hi. lia.
  - specialize (Hlast ltac:(lia)).
    assert (Z.of_nat i <= total_batches bs start end_ - 1) by lia.
    nia.
Qed.

(** Put together in order, the batches of a worker are the records of its
    range. *)
Lemma batches_concat (cfg : pq_config) (gen : generator) (start end_ : Z) :
  0 < batchsize cfg ->
  0 <= start <= end_ ->
  end_ <= Z.of_nat (length (gen_records gen)) ->
  concat (map (Spec.batch_of cfg gen start end_)
            (seq 0 (Z.to_nat (total_batches (batchsize cfg) start end_))))
  = py_slice (gen_records gen) start end_.
Proof.
  intros Hbs Hse Hlen.
  destruct (total_batches_bounds (batchsize cfg) start end_ Hbs ltac:(lia))
    as (Hn0 & Hcover & _).
  rewrite (map_ext_in (Spec.batch_of cfg gen start end_)
             (fun i => firstn (Z.to_nat (batchsize cfg))
                         (skipn (i * Z.to_nat (batchsize cfg))
                            (py_slice (gen_records gen) start end_)))).
  - rewrite chunks_concat. apply firstn_all2.
    rewrite py_slice_length_nat by lia. nia.
  - intros i Hi. apply in_seq in Hi.
    apply (batch_is_chunk cfg gen start end_ i Hbs Hse Hlen).
    pose proof (batch_within_range (batchsize cfg) start end_ i Hbs
                  ltac:(lia) ltac:(lia)).
    lia.
Qed.

(** X12. The batches of a worker cut its range into consecutive pieces:
    for a positive batch size and a range within the generator, the
    slices [generator[batch_start:batch_end]] of the [total_batches]
    turns of the loop, put together in order, are the records of the
    range, each record in one batch; every batch holds at least one
    record and at most [batchsize], and [total_batches] is the ceiling
    of the length of the range over the batch size. *)
Theorem batches_cut_the_range
    (cfg : pq_config) (gen : generator) (start end_ : Z) :
  0 < batchsize cfg ->
  0 <= start <= end_ ->
  end_ <= Z.of_nat (length (gen_records gen)) ->
  let batch (i : nat) :=
    let batch_start := start + Z.of_nat i * batchsize cfg in
    let batch_end := Z.min (batch_start + batchsize cfg) end_ in
    py_slice (gen_records gen) batch_start batch_end in
  let n := Z.to_nat (total_batches (batchsize cfg) start end_) in
  concat (map batch (seq 0 n)) = py_slice (gen_records gen) start end_
  /\ (forall i, (i < n)%nat ->
                1 <= Z.of_nat (length (batch i)) <= batchsize cfg)
  /\ total_batches (batchsize cfg) start end_
     = ceil_div (end_ - start) (batchsize cfg).
Proof.
  intros Hbs Hse Hlen batch n. split; [|split].
  - exact (batches_concat cfg gen start end_ Hbs Hse Hlen).
  - intros i Hi. subst batch. cbv beta zeta.
    pose proof (batch_within_range (batchsize cfg) start end_ i Hbs
                  ltac:(lia) Hi).
    rewrite py_slice_length by lia. lia.
  - now apply total_batches_is_ceil; lia.
Qed.

Lemma batches_cut_the_range_witness :
  let cfg := Example_run.cfg in
  let gen := Example_run.gen in
  let batch (i : nat) :=
    let batch_start := 5 + Z.of_nat i * batchsize cfg in
    let batch_end := Z.min (batch_start + batchsize cfg) 10 in
    py_slice (gen_records gen) batch_start batch_end in
  let n := Z.to_nat (total_batches (batchsize cfg) 5 10) in
  (0 < batchsize cfg /\ 0 <= 5 <= 10
   /\ 10 <= Z.of_nat (length (gen_records gen)))
  /\ concat (map batch (seq 0 n)) = py_slice (gen_records gen) 5 10
  /\ (forall i, (i < n)%nat ->
                1 <= Z.of_nat (length (batch i)) <= batchsize cfg)
  /\ total_batches (batchsize cfg) 5 10 = ceil_div (10 - 5) (batchsize cfg).
Proof.
  cbv zeta. split.
  - split; [reflexivity|]. split; [lia|]. cbn. lia.
  - apply (batches_cut_the_range Example_run.cfg Example_run.gen 5 10);
      [reflexivity|lia|cbn; lia].
Defined.

(** X13. A worker without work does nothing: on an empty or reversed
    range with a positive batch size, and on any range that is not
    reversed with a negative one, [total_batches] is not positive, no
    batch is assembled or sent, and the state is as it was. *)
Theorem idle_worker
    (cfg : pq_config) (gen : generator)
    (db : nat -> list value -> list blob -> reply) (start end_ : Z)
    (st : pq_state) :
  (0 < batchsize cfg /\ end_ <= start)
  \/ (batchsize cfg < 0 /\ start <= end_) ->
  total_batches (batchsize cfg) start end_ <= 0
  /\ worker cfg gen db start end_ st = (st, Ok tt).
Proof.
  intros Hcase.
  assert (Hn : total_batches (batchsize cfg) start end_ <= 0).
  { unfold total_batches.
    pose proof (Z.div_mod (end_ - start) (batchsize cfg) ltac:(lia)) as E.
    destruct Hcase as [[Hbs Hd]|[Hbs Hd]].
    - pose proof (Z.mod_pos_bound (end_ - start) (batchsize cfg) Hbs) as B.
      destruct (Z.gtb_spec ((end_ - start) mod batchsize cfg) 0); nia.
    - pose proof (Z.mod_neg_bound (end_ - start) (batchsize cfg) Hbs) as B.
      destruct (Z.gtb_spec ((end_ - start) mod batchsize cfg) 0); nia. }
  split; [exact Hn|]. unfold worker.
  destruct (Z.eqb_spec (batchsize cfg) 0) as [?|_]; [lia|].
  replace (Z.to_nat (total_batches (batchsize cfg) start end_)) with 0%nat
    by lia.
  reflexivity.
Qed.

Lemma idle_worker_witness :
  ((0 < batchsize Example_run.cfg /\ 7 <= 9)
   \/ (batchsize Example_run.cfg < 0 /\ 9 <= 7))
  /\ total_batches (batchsize Example_run.cfg) 9 7 <= 0
  /\ worker Example_run.cfg Example_run.gen (Example_run.dbs 0 0 0%nat) 9 7
       (Parallelizer.fresh Example_run.hp)
     = (Parallelizer.fresh Example_run.hp, Ok tt).
Proof.
  assert (H : (0 < batchsize Example_run.cfg /\ 7 <= 9)
              \/ (batchsize Example_run.cfg < 0 /\ 9 <= 7))
    by (left; split; [reflexivity|lia]).
  split; [exact H|].
  apply (idle_worker Example_run.cfg Example_run.gen
           (Example_run.dbs 0 0 0%nat) 9 7
           (Parallelizer.fresh Example_run.hp) H).
Defined.

(* ===================================================================== *)
(** ** A run that the database accepts                                    *)
(* ===================================================================== *)

(** A reply that accepts every command: the transport reports success and
    the response is a list of dicts whose entries all carry an integer
    status of the success-status set. *)
Definition accepted_entry (ss : list Z) (entry : value) : bool :=
  match entry with
  | VDict e =>
      match dict_get e "status" with
      | Some (VInt s) => existsb (Z.eqb s) ss
      | _ => false
      end
  | _ => false
  end.

Definition accepted_result (ss : list Z) (res : value) : bool :=
  match res with
  | VDict d => forallb (fun kv => accepted_entry ss (snd kv)) d
  | _ => false
  end.

Definition accepting (ss : list Z) (rp : reply) : Prop :=
  rp_ok rp = true
  /\ exists rs,
      rp_response rp = VList rs /\ forallb (accepted_result ss) rs = true.

Lemma dict_get_In (d : dict) (k : string) (v : value) :
  dict_get d k = Some v -> In (k, v) d.
Proof.
  induction d as [|[k' v'] d IH]; cbn [dict_get]; [discriminate|].
  destruct (String.eqb_spec k' k) as [->|_].
  - intros [= ->]. now left.
  - intros H. right. now apply IH.
Qed.

Lemma accepted_result_entry (ss : list Z) (d : dict) (cmd : string) :
  forallb (fun kv => accepted_entry ss (snd kv)) d = true ->
  In cmd (map fst d) ->
  exists e s,
    dict_get d cmd = Some (VDict e)
    /\ dict_get e "status" = Some (VInt s)
    /\ existsb (Z.eqb s) ss = true.
Proof.
  intros Hd Hcmd.
  assert (Hsome : exists entry, dict_get d cmd = Some entry).
  { clear Hd. induction d as [|[k v] d IH]; [contradiction|].
    cbn [dict_get]. destruct (String.eqb_spec k cmd) as [_|Hne]; [eauto|].
    destruct Hcmd as [Hk|Hin]; [contradiction|auto]. }
  destruct Hsome as [entry Hget].
  pose proof (dict_get_In d cmd entry Hget) as Hin.
  rewrite forallb_forall in Hd. specialize (Hd _ Hin). cbn [snd] in Hd.
  destruct entry as [| | | | |e]; try discriminate. cbn in Hd.
  destruct (dict_get e "status") as [[| |s| | |]|] eqn:Hs; try discriminate.
  eauto.
Qed.

Lemma accepted_readable (ss : list Z) (rs : list value) :
  forallb (accepted_result ss) rs = true ->
  forallb Spec.readable_result rs = true.
Proof.
  rewrite !forallb_forall. intros Hrs res Hres. specialize (Hrs res Hres).
  destruct res as [| | | | |d]; try discriminate.
  cbn [accepted_result] in Hrs. cbn [Spec.readable_result].
  apply forallb_forall. intros cmd Hcmd.
  destruct (accepted_result_entry ss d cmd Hrs Hcmd) as (e & s & -> & Hs & _).
  cbn [Spec.readable_entry]. now rewrite Hs.
Qed.

Lemma accepted_all_succeeded (ss : list Z) (rs : list value) :
  forallb (accepted_result ss) rs = true ->
  Spec.all_succeeded ss (VList rs) = true.
Proof.
  intros Hrs. unfold Spec.all_succeeded. cbn [Spec.response_statuses].
  apply forallb_forall. intros s Hs.
  apply in_flat_map in Hs as (res & Hres & Hs).
  rewrite forallb_forall in Hrs. specialize (Hrs res Hres).
  destruct res as [| | | | |d]; try contradiction.
  cbn [accepted_result] in Hrs. cbn [Spec.result_statuses] in Hs.
  unfold Spec.command_statuses in Hs.
  apply in_flat_map in Hs as (cmd & Hcmd & Hs).
  destruct (accepted_result_entry ss d cmd Hrs Hcmd)
    as (e & z & Hget & Hz & Hin).
  rewrite Hget in Hs. cbn [Spec.entry_status] in Hs. rewrite Hz in Hs.
  destruct Hs as [<-|[]]. exact Hin.
Qed.

Lemma accepted_classify (ss : list Z) (rs : list value) :
  forallb (accepted_result ss) rs = true ->
  classify ss (VList rs) 0 = Ok 0.
Proof.
  intros Hrs.
  destruct (classify_returns ss (VList rs) 0) as [code Hcode].
  { cbn [Spec.readable_response]. now apply (accepted_readable ss). }
  rewrite Hcode. f_equal.
  destruct (classify_code ss (VList rs) 0 code (or_introl eq_refl) Hcode)
    as (_ & H0 & _).
  apply H0. split; [reflexivity|]. split; [reflexivity|].
  now apply accepted_all_succeeded.
Qed.

Lemma accepted_count_status (ss : list Z) (n : Z) (d : dict) :
  forallb (fun kv => accepted_entry ss (snd kv)) d = true ->
  exists k, count_status n d = Ok k.
Proof.
  induction d as [|[cmd entry] d IH]; cbn [forallb count_status snd].
  - eauto.
  - intros H. apply andb_true_iff in H as [He Hd].
    destruct (IH Hd) as [k ->].
    destruct entry as [| | | | |e]; try discriminate. cbn in He.
    cbn [py_getitem].
    destruct (dict_get e "status") as [s|]; [|discriminate].
    cbn [Py.bind]. eauto.
Qed.

Lemma accepted_sum_status (ss : list Z) (n : Z) (rs : list value) :
  forallb (accepted_result ss) rs = true ->
  exists k, sum_status n (VList rs) = Ok k.
Proof.
  cbn [sum_status].
  induction rs as [|res rs IH]; cbn [forallb count_status_strict].
  - eauto.
  - intros H. apply andb_true_iff in H as [Hres Hrs].
    destruct (IH Hrs) as [k ->].
    destruct res as [| | | | |d]; try discriminate.
    destruct (accepted_count_status ss n d Hres) as [k' ->].
    cbn [Py.bind]. eauto.
Qed.

Lemma py_slice_In {A : Type} (l : list A) (a b : Z) (x : A) :
  In x (py_slice l a b) -> In x l.
Proof.
  unfold py_slice.
  set (n := Z.to_nat (clamp (Z.of_nat (length l)) a)).
  set (m := Z.to_nat _). intros H.
  rewrite <- (firstn_skipn n l). apply in_or_app. right.
  rewrite <- (firstn_skipn m (skipn n l)). apply in_or_app. now left.
Qed.

(** The records of a batch are records of the generator, and their
    commands are plain when those of the generator are. *)
Lemma plain_batch (gen : generator) (hp : heap) (a b : Z) :
  forallb plain (map (deref hp) (flat_map fst (gen_records gen))) = true ->
  forallb plain
    (map (deref hp) (flat_map fst (py_slice (gen_records gen) a b))) = true.
Proof.
  rewrite !forallb_forall. intros Hall cmd Hcmd.
  apply in_map_iff in Hcmd as (ad & <- & Had).
  apply in_flat_map in Had as (rec & Hrec & Had).
  apply Hall. apply in_map. apply in_flat_map.
  exists rec. split; [|exact Had].
  now apply py_slice_In in Hrec.
Qed.

Lemma do_batch_accepted (cfg : pq_config) (gen : generator)
    (db : list value -> list blob -> reply) (batch_start : Z)
    (data : list record) (st : pq_state) (rh : option handler) :
  dry_run cfg = false ->
  strict_of gen = false ->
  response_handler_of gen = Ok rh ->
  forallb plain (map (deref (st_heap st)) (flat_map fst data)) = true ->
  (forall q blobs, accepting (success_statuses cfg) (db q blobs)) ->
  exists t k,
    do_batch cfg gen db batch_start data st
    = (record_batch (with_heap st (st_heap st)) t
         [("succeeded_commands", Z.of_nat (length (flat_map fst data)));
          ("succeeded_queries", Z.of_nat (length data));
          ("objects_existed", k)]
         (Executed batch_start (length data) 0), Ok tt).
Proof.
  intros Hdry Hstrict Hrh Hplain Hdb. unfold do_batch.
  unfold generate_batch, update_refs.
  rewrite (update_refs_loop_plain _ (st_heap st) [] Hplain).
  rewrite Hdry, Hrh, Hstrict, execute_batch_not_strict.
  destruct (Hdb (map (deref (st_heap st)) (flat_map fst data))
              (flat_map snd data)) as [Hok (rs & Hr & Hrs)].
  rewrite Hok, Hr, (accepted_classify _ rs Hrs). cbn [Py.bind Z.eqb].
  unfold worker_stats_of. cbn [Z.eqb].
  destruct (accepted_sum_status (success_statuses cfg) 2 rs Hrs) as [k ->].
  cbn [Py.bind]. eauto.
Qed.

Lemma sum_lengths {A : Type} (f : nat -> list A) (l : list nat) :
  Spec.sum_Z (map (fun i => Z.of_nat (length (f i))) l)
  = Z.of_nat (length (concat (map f l))).
Proof.
  induction l as [|i l IH]; cbn [map concat Spec.sum_Z fold_right].
  - reflexivity.
  - fold (Spec.sum_Z (map (fun i => Z.of_nat (length (f i))) l)).
    rewrite IH, length_app. lia.
Qed.

Lemma sum_command_lengths (f : nat -> list record) (l : list nat) :
  Spec.sum_Z (map (fun i => Z.of_nat (length (flat_map fst (f i)))) l)
  = Z.of_nat (length (flat_map fst (concat (map f l)))).
Proof.
  induction l as [|i l IH]; cbn [map concat Spec.sum_Z fold_right].
  - reflexivity.
  - fold (Spec.sum_Z
            (map (fun i => Z.of_nat (length (flat_map fst (f i)))) l)).
    rewrite IH, flat_map_app, length_app. symmetry. apply Nat2Z.inj_add.
Qed.

Lemma worker_loop_accepted (cfg : pq_config) (gen : generator)
    (db : nat -> list value -> list blob -> reply) (start end_ : Z)
    (rh : option handler) (idxs : list nat) :
  dry_run cfg = false ->
  strict_of gen = false ->
  response_handler_of gen = Ok rh ->
  (forall i q blobs, accepting (success_statuses cfg) (db i q blobs)) ->
  forall st,
    forallb plain
      (map (deref (st_heap st)) (flat_map fst (gen_records gen))) = true ->
    let run := worker_loop cfg gen db start end_ idxs st in
    snd run = Ok tt
    /\ st_heap (fst run) = st_heap st
    /\ st_error_counter (fst run) = st_error_counter st
    /\ exists ts added,
        st_times_arr (fst run) = st_times_arr st ++ ts
        /\ length ts = length idxs
        /\ st_actual_stats (fst run) = st_actual_stats st ++ added
        /\ length added = length idxs
        /\ sum_stats "succeeded_queries" added
           = Ok (Spec.sum_Z
                   (map (fun i => Z.of_nat
                                    (length (Spec.batch_of cfg gen start end_ i)))
                      idxs))
        /\ sum_stats "succeeded_commands" added
           = Ok (Spec.sum_Z
                   (map (fun i =>
                           Z.of_nat
                             (length (flat_map fst
                                        (Spec.batch_of cfg gen start end_ i))))
                      idxs)).
Proof.
  intros Hdry Hstrict Hrh Hdb.
  induction idxs as [|i rest IH]; intros st Hplain; cbv zeta.
  - cbn [worker_loop mret fst snd]. repeat split.
    exists [], []. rewrite !app_nil_r. repeat split.
  - cbn [worker_loop]. unfold mbind, worker_batch.
    fold (Spec.batch_of cfg gen start end_ i).
    destruct (do_batch_accepted cfg gen (db i)
                (start + Z.of_nat i * batchsize cfg)
                (Spec.batch_of cfg gen start end_ i) st rh Hdry Hstrict Hrh
                (plain_batch gen (st_heap st) _ _ Hplain) (Hdb i))
      as (t & k & ->).
    match goal with |- context [worker_loop cfg gen db start end_ rest ?s] =>
      destruct (IH s Hplain)
        as (Hok & Hheap & Herr & ts & added & Ht & Hlt & Hs & Hla & Hq & Hc)
    end.
    cbn [record_batch with_heap st_heap st_times_arr st_actual_stats
         st_error_counter] in Hheap, Herr, Ht, Hs.
    split; [exact Hok|]. split; [exact Hheap|]. split; [exact Herr|].
    eexists (t :: ts), (_ :: added).
    rewrite Ht, Hs, <- !app_assoc. cbn [app length map].
    split; [reflexivity|]. split; [now rewrite Hlt|].
    split; [reflexivity|]. split; [now rewrite Hla|].
    cbn [sum_stats stats_get String.eqb Ascii.eqb Bool.eqb].
    rewrite Hq, Hc. cbn [Py.bind Spec.sum_Z fold_right].
    split; reflexivity.
Qed.

(** X14. No record is lost or counted twice.  Take a generator of plain
    commands (no refs to renumber), no strict validation, a handler of an
    accepted signature or none, and a connection that accepts every
    query with statuses of the success-status set.  Then a worker on a
    range of the generator runs to the end and changes no command,
    counts no error, and appends one time and one [worker_stats] for
    each of its [total_batches] batches; their ["succeeded_queries"] sum
    to the number of records of the range and their
    ["succeeded_commands"] to the number of its commands. *)
Theorem accepted_run_counts_every_record
    (cfg : pq_config) (gen : generator)
    (db : nat -> list value -> list blob -> reply) (start end_ : Z)
    (rh : option handler) (st : pq_state) :
  0 < batchsize cfg ->
  0 <= start <= end_ ->
  end_ <= Z.of_nat (length (gen_records gen)) ->
  dry_run cfg = false ->
  strict_of gen = false ->
  response_handler_of gen = Ok rh ->
  (forall i q blobs, accepting (success_statuses cfg) (db i q blobs)) ->
  forallb plain
    (map (deref (st_heap st)) (flat_map fst (gen_records gen))) = true ->
  let run := worker cfg gen db start end_ st in
  let n := Z.to_nat (total_batches (batchsize cfg) start end_) in
  snd run = Ok tt
  /\ st_heap (fst run) = st_heap st
  /\ st_error_counter (fst run) = st_error_counter st
  /\ exists ts added,
      st_times_arr (fst run) = st_times_arr st ++ ts
      /\ length ts = n
      /\ st_actual_stats (fst run) = st_actual_stats st ++ added
      /\ length added = n
      /\ sum_stats "succeeded_queries" added = Ok (end_ - start)
      /\ sum_stats "succeeded_commands" added
         = Ok (Z.of_nat
                 (length (flat_map fst
                            (py_slice (gen_records gen) start end_)))).
Proof.
  intros Hbs Hse Hlen Hdry Hstrict Hrh Hdb Hplain run n. subst run n.
  unfold worker.
  destruct (Z.eqb_spec (batchsize cfg) 0) as [?|_]; [lia|].
  destruct (worker_loop_accepted cfg gen db start end_ rh
              (seq 0 (Z.to_nat (total_batches (batchsize cfg) start end_)))
              Hdry Hstrict Hrh Hdb st Hplain)
    as (Hok & Hheap & Herr & ts & added & Ht & Hlt & Hs & Hla & Hq & Hc).
  rewrite length_seq in Hlt, Hla.
  rewrite sum_lengths, batches_concat in Hq by assumption.
  rewrite sum_command_lengths, batches_concat in Hc by assumption.
  rewrite py_slice_length in Hq by lia.
  split; [exact Hok|]. split; [exact Hheap|]. split; [exact Herr|].
  exists ts, added. auto 10.
Qed.

Lemma accepted_run_counts_every_record_witness :
  let cfg := Example_run.cfg in
  let gen := Example_run.gen in
  let db := fun (_ : nat) (q : list value) (_ : list blob) =>
              Example_run.accepted q in
  let st := Parallelizer.fresh Example_run.hp in
  let run := worker cfg gen db 2 9 st in
  let n := Z.to_nat (total_batches (batchsize cfg) 2 9) in
  (0 < batchsize cfg
   /\ 0 <= 2 <= 9
   /\ 9 <= Z.of_nat (length (gen_records gen))
   /\ dry_run cfg = false
   /\ strict_of gen = false
   /\ response_handler_of gen = Ok None
   /\ (forall i q blobs, accepting (success_statuses cfg) (db i q blobs))
   /\ forallb plain
        (map (deref (st_heap st)) (flat_map fst (gen_records gen))) = true)
  /\ snd run = Ok tt
  /\ st_heap (fst run) = st_heap st
  /\ st_error_counter (fst run) = st_error_counter st
  /\ exists ts added,
      st_times_arr (fst run) = st_times_arr st ++ ts
      /\ length ts = n
      /\ st_actual_stats (fst run) = st_actual_stats st ++ added
      /\ length added = n
      /\ sum_stats "succeeded_queries" added = Ok (9 - 2)
      /\ sum_stats "succeeded_commands" added
         = Ok (Z.of_nat
                 (length (flat_map fst (py_slice (gen_records gen) 2 9)))).
Proof.
  cbv zeta.
  assert (Hdb : forall (i : nat) (q : list value) (blobs : list blob),
            accepting (success_statuses Example_run.cfg)
              (Example_run.accepted q)).
  { intros _ q _. split; [reflexivity|]. eexists. split; [reflexivity|].
    induction q as [|c q IH]; [reflexivity|exact IH]. }
  split.
  - split; [reflexivity|]. split; [lia|]. split; [cbn; lia|].
    repeat (split; [reflexivity|]). split; [exact Hdb|reflexivity].
  - apply (accepted_run_counts_every_record Example_run.cfg Example_run.gen
             (fun _ q _ => Example_run.accepted q) 2 9 None
             (Parallelizer.fresh Example_run.hp));
      [reflexivity|lia|cbn; lia|reflexivity|reflexivity|reflexivity
      |exact Hdb|reflexivity].
Defined.

(* ===================================================================== *)
(** ** [query]: the shape of a record, and the handler calls of a batch   *)
(* ===================================================================== *)

Module Query.

(** [ParallelQuery.query] on a generator without [use_dask], on an object
    of the class itself (no [query_setup], no [verify_generator]), up to
    its call of [self.run]: [commands_per_query] and [blobs_per_query]
    are read off the first record, the latter only when that record has
    blobs.  The records of the model are pairs of lists, as the two
    [isinstance] tests ask. *)
Definition query_structure (cfg : pq_config) (gen : generator) : pq_config :=
  match gen_records gen with
  | [] => cfg
  | (cmds, blobs) :: _ =>
      {| dry_run := dry_run cfg;
         commands_per_query := Z.of_nat (length cmds);
         blobs_per_query :=
           if (length blobs =? 0)%nat then blobs_per_query cfg
           else Z.of_nat (length blobs);
         batchsize := batchsize cfg;
         success_statuses := success_statuses cfg |}
  end.

(** Every record has as many commands and blobs as the first, which has
    a command. *)
Definition uniform (gen : generator) : bool :=
  match gen_records gen with
  | [] => true
  | (cmds, blobs) :: _ =>
      negb (length cmds =? 0)%nat
      && forallb (fun r => (length (fst r) =? length cmds)%nat
                           && (length (snd r) =? length blobs)%nat)
           (gen_records gen)
  end.

End Query.

Lemma uniform_chunk {A B : Type} (f : A -> list B) (c : nat) (data : list A) :
  (forall x, In x data -> length (f x) = c) ->
  forall i r,
    nth_error data i = Some r ->
    firstn c (skipn (i * c) (flat_map f data)) = f r.
Proof.
  induction data as [|x data IH]; intros Hlen i r Hnth.
  - destruct i; discriminate.
  - cbn [flat_map].
    pose proof (Hlen x (or_introl eq_refl)) as Hx.
    destruct i as [|i]; cbn [nth_error] in Hnth.
    + injection Hnth as <-. cbn [Nat.mul skipn].
      rewrite firstn_app, Hx, Nat.sub_diag, firstn_O, app_nil_r.
      apply firstn_all2. lia.
    + replace (S i * c)%nat with (c + i * c)%nat by lia.
      rewrite skipn_app, Hx.
      rewrite skipn_all2 by lia. cbn [app].
      replace (c + i * c - c)%nat with (i * c)%nat by lia.
      apply IH; [|exact Hnth]. intros y Hy. apply Hlen. now right.
Qed.

Lemma uniform_length {A B : Type} (f : A -> list B) (c : nat) (data : list A) :
  (forall x, In x data -> length (f x) = c) ->
  length (flat_map f data) = (length data * c)%nat.
Proof.
  induction data as [|x data IH]; intros Hlen; cbn [flat_map length].
  - reflexivity.
  - rewrite length_app, (Hlen x (or_introl eq_refl)), IH; [lia|].
    intros y Hy. apply Hlen. now right.
Qed.

Lemma ceil_div_mul (n c : Z) : 0 < c -> ceil_div (n * c) c = n.
Proof.
  intros Hc. unfold ceil_div.
  replace (- (n * c)) with (- n * c) by lia.
  rewrite Z.div_mul by lia. lia.
Qed.

Lemma py_slice_nth_error {A : Type} (l : list A) (a b : Z) (i : nat) (x : A) :
  0 <= a <= b ->
  nth_error (py_slice l a b) i = Some x ->
  nth_error l (Z.to_nat a + i) = Some x.
Proof.
  intros Hab. rewrite py_slice_nonneg by exact Hab.
  rewrite nth_error_firstn.
  destruct (i <? Z.to_nat (b - a))%nat; [|discriminate].
  now rewrite nth_error_skipn.
Qed.

(** The calls of the handler in [execute_batch] are those of the
    demultiplexer, made when the transport reports success. *)
Lemma execute_batch_trace (q : list value) (blobs : list blob)
    (db : list value -> list blob -> reply) (ss : list Z) (h : handler)
    (c k : Z) (strict : bool) (idx : option Z) :
  fst (execute_batch q blobs db ss (Some h) c k strict idx)
  = if rp_ok (db q blobs)
    then fst (map_response_to_handler h q blobs (rp_response (db q blobs))
                (rp_blobs (db q blobs)) c k idx)
    else [].
Proof.
  unfold execute_batch. destruct (rp_ok (db q blobs)); [|reflexivity].
  destruct (map_response_to_handler _ _ _ _ _ _ _ _) as [tr [u|e]];
    [reflexivity|].
  now destruct strict.
Qed.

(** X15. One call of the handler per record.  Let [query] have read
    [commands_per_query] and [blobs_per_query] off the first record of a
    generator whose records all have as many commands and as many blobs
    as the first ([blobs_per_query] being 0 before, as [__init__] leaves
    it, when the records have no blobs).  Then in the batch
    [generator[batch_start:batch_end]] call [i] of the handler receives
    the commands and the blobs of record [batch_start + i] of the
    generator, and that index; there are at most as many calls as records
    in the batch, and as many when the transport reports success, the
    handler returns and the counts can be read. *)
Theorem one_handler_call_per_record
    (cfg : pq_config) (gen : generator)
    (db : list value -> list blob -> reply) (h : handler) (strict : bool)
    (hp : heap) (batch_start batch_end : Z)
    (cmds0 : list addr) (blobs0 : list blob) (rest : list record) :
  let cfg' := Query.query_structure cfg gen in
  let data := py_slice (gen_records gen) batch_start batch_end in
  let q := map (deref hp) (flat_map fst data) in
  let blobs := flat_map snd data in
  let run := execute_batch q blobs db (success_statuses cfg') (Some h)
               (commands_per_query cfg') (blobs_per_query cfg') strict
               (Some batch_start) in
  gen_records gen = (cmds0, blobs0) :: rest ->
  Query.uniform gen = true ->
  (blobs0 = [] -> blobs_per_query cfg = 0) ->
  0 <= batch_start <= batch_end ->
  (length (fst run) <= length data)%nat
  /\ (forall i call,
         nth_error (fst run) i = Some call ->
         exists r,
           nth_error (gen_records gen) (Z.to_nat batch_start + i) = Some r
           /\ hc_query call = map (deref hp) (fst r)
           /\ hc_query_blobs call = snd r
           /\ hc_index call = Some (batch_start + Z.of_nat i))
  /\ (rp_ok (db q blobs) = true ->
      Spec.returns h ->
      (forall i, (i < length data)%nat ->
                 exists b,
                   group_b_count q (rp_response (db q blobs))
                     (commands_per_query cfg') (Z.of_nat i) = Ok b) ->
      length (fst run) = length data).
Proof.
  intros cfg' data q blobs run Hrecs Huni Hblobs Hrange.
  set (c0 := length cmds0). set (k0 := length blobs0).
  assert (Hc : commands_per_query cfg' = Z.of_nat c0)
    by (subst cfg'; unfold Query.query_structure; now rewrite Hrecs).
  assert (Hk : blobs_per_query cfg' = Z.of_nat k0).
  { subst cfg'. unfold Query.query_structure. rewrite Hrecs.
    cbn [blobs_per_query]. fold k0.
    destruct (Nat.eqb_spec k0 0) as [E|_]; [|reflexivity].
    rewrite E. apply Hblobs. subst k0. now destruct blobs0. }
  unfold Query.uniform in Huni. rewrite Hrecs in Huni. rewrite <- Hrecs in Huni.
  apply andb_true_iff in Huni as [Hpos Hall].
  fold c0 k0 in Hpos, Hall.
  apply negb_true_iff, Nat.eqb_neq in Hpos.
  assert (Hlen : forall r, In r data ->
            length (fst r) = c0 /\ length (snd r) = k0).
  { intros r Hr. apply py_slice_In in Hr.
    rewrite forallb_forall in Hall. specialize (Hall r Hr).
    apply andb_true_iff in Hall as [H1 H2].
    now apply Nat.eqb_eq in H1, H2. }
  assert (Hq : length q = (length data * c0)%nat).
  { subst q. rewrite length_map.
    apply uniform_length. intros r Hr. now apply Hlen. }
  assert (Htotal : Spec.group_total q (commands_per_query cfg') = length data).
  { unfold Spec.group_total. rewrite Hc, Hq, Nat2Z.inj_mul.
    rewrite ceil_div_mul by lia. lia. }
  assert (Hcne : commands_per_query cfg' <> 0) by lia.
  subst run. rewrite execute_batch_trace.
  destruct (rp_ok (db q blobs)) eqn:Hok.
  2:{ cbn [length]. split; [lia|]. split; [|discriminate].
      intros i call Hnth. destruct i; discriminate. }
  destruct (run_trace h q blobs (rp_response (db q blobs))
              (rp_blobs (db q blobs)) (commands_per_query cfg')
              (blobs_per_query cfg') (Some batch_start) Hcne)
    as (m & Hm & Htr & _).
  rewrite Htotal in Hm.
  split; [|split].
  - rewrite Htr, length_map, length_seq. exact Hm.
  - intros i call Hnth. rewrite Htr in Hnth.
    apply nth_error_map_seq in Hnth as [Hi ->].
    destruct (nth_error data i) as [r|] eqn:Hr.
    2:{ apply nth_error_None in Hr. lia. }
    exists r. split; [now apply (py_slice_nth_error _ _ batch_end)|].
    unfold Spec.call_of, group_call.
    cbn [hc_query hc_query_blobs hc_index].
    rewrite Hc, Hk, !chunk_is_slice, !Nat2Z.id by lia.
    split; [|split; [|reflexivity]].
    + subst q. rewrite skipn_map, firstn_map. f_equal.
      apply uniform_chunk; [|exact Hr]. intros x Hx. now apply Hlen.
    + subst blobs. apply uniform_chunk; [|exact Hr].
      intros x Hx. now apply Hlen.
  - intros _ Hh Hcount.
    rewrite (run_complete h q blobs (rp_response (db q blobs))
               (rp_blobs (db q blobs)) (commands_per_query cfg')
               (blobs_per_query cfg') (Some batch_start) Hcne Hh).
    + cbn [fst]. now rewrite length_map, length_seq.
    + intros i Hi. apply Hcount. lia.
Qed.

Lemma one_handler_call_per_record_witness :
  let cfg := Example_run.cfg in
  let gen := Example_run.gen in
  let db := fun (q : list value) (_ : list blob) => Example_run.accepted q in
  let h := Example_demux.quiet in
  let hp := Example_run.hp in
  let cfg' := Query.query_structure cfg gen in
  let data := py_slice (gen_records gen) 4 8 in
  let q := map (deref hp) (flat_map fst data) in
  let blobs := flat_map snd data in
  let run := execute_batch q blobs db (success_statuses cfg') (Some h)
               (commands_per_query cfg') (blobs_per_query cfg') false
               (Some 4) in
  (gen_records gen
   = ([0%nat], []) :: map (fun a => ([a], [])) (seq 1 9)
   /\ Query.uniform gen = true
   /\ (([] : list blob) = [] -> blobs_per_query cfg = 0)
   /\ 0 <= 4 <= 8)
  /\ (length (fst run) <= length data)%nat
  /\ (forall i call,
         nth_error (fst run) i = Some call ->
         exists r,
           nth_error (gen_records gen) (Z.to_nat 4 + i) = Some r
           /\ hc_query call = map (deref hp) (fst r)
           /\ hc_query_blobs call = snd r
           /\ hc_index call = Some (4 + Z.of_nat i))
  /\ (rp_ok (db q blobs) = true ->
      Spec.returns h ->
      (forall i, (i < length data)%nat ->
                 exists b,
                   group_b_count q (rp_response (db q blobs))
                     (commands_per_query cfg') (Z.of_nat i) = Ok b) ->
      length (fst run) = length data).
Proof.
  cbv zeta. split.
  - split; [reflexivity|]. split; [reflexivity|].
    split; [reflexivity|lia].
  - apply (one_handler_call_per_record Example_run.cfg Example_run.gen
             (fun q _ => Example_run.accepted q) Example_demux.quiet false
             Example_run.hp 4 8 [0%nat] []
             (map (fun a => ([a], [])) (seq 1 9)));
      [reflexivity|reflexivity|reflexivity|lia].
Defined.

(* ===================================================================== *)
(** ** [debug_sample]                                                     *)
(* ===================================================================== *)

Module Sample.

(** What [debug_sample] prints: the heading and the records. *)
Inductive line : Type :=
| Heading
| Printed (r : record).

(** [for i in range(sample_count): print(self.generator[i])]; [out] holds
    the lines printed so far. *)
Fixpoint print_loop (gen : generator) (idxs : list Z) (out : list line)
  : list line * result unit :=
  match idxs with
  | [] => (out, Ok tt)
  | i :: rest =>
      match py_index (gen_records gen) i with
      | None => (out, Raise IndexError)
      | Some r => print_loop gen rest (out ++ [Printed r])
      end
  end.

(** [debug_sample]; [sample_count] is the keyword argument of that name
    when it is given. *)
Definition debug_sample (gen : generator) (sample_count : option Z)
  : list line * result unit :=
  let n := match sample_count with
           | Some n => n
           | None => Z.of_nat (length (gen_records gen))
           end in
  if n >? 0 then print_loop gen (py_range n) [Heading] else ([], Ok tt).

End Sample.

Lemma print_loop_prints (gen : generator) (m : nat) :
  forall i0 out,
    (i0 <= length (gen_records gen))%nat ->
    Sample.print_loop gen (map Z.of_nat (seq i0 m)) out
    = (out ++ map Sample.Printed (firstn m (skipn i0 (gen_records gen))),
       if (i0 + m <=? length (gen_records gen))%nat
       then Ok tt else Raise IndexError).
Proof.
  induction m as [|m IH]; intros i0 out Hi0; cbn [seq map Sample.print_loop].
  - rewrite firstn_O, app_nil_r.
    destruct (Nat.leb_spec (i0 + 0) (length (gen_records gen))); [|lia].
    reflexivity.
  - unfold py_index.
    destruct (Z.ltb_spec (Z.of_nat i0) 0) as [?|_]; [lia|].
    rewrite Nat2Z.id.
    destruct (nth_error (gen_records gen) i0) as [r|] eqn:Hr.
    + assert (Hlt : (i0 < length (gen_records gen))%nat)
        by (apply nth_error_Some; congruence).
      rewrite IH by lia.
      rewrite <- app_assoc. cbn [app].
      replace (skipn i0 (gen_records gen))
        with (r :: skipn (S i0) (gen_records gen)).
      * cbn [firstn map].
        replace (S i0 + m)%nat with (i0 + S m)%nat by lia. reflexivity.
      * clear -Hr. revert i0 Hr.
        induction (gen_records gen) as [|x l IHl]; intros [|i0] Hr;
          cbn in *; try discriminate.
        -- now injection Hr as ->.
        -- now apply IHl.
    + apply nth_error_None in Hr.
      rewrite skipn_all2 by lia. rewrite firstn_nil, app_nil_r.
      destruct (Nat.leb_spec (i0 + S m) (length (gen_records gen))); [lia|].
      reflexivity.
Qed.

(** X16. [debug_sample] prints the heading and the first [sample_count]
    records, all records by default, and nothing at all, the heading
    included, for a count that is not positive or an empty generator;
    asked for more records than the generator holds, it prints all of
    them and then raises [IndexError]. *)
Theorem debug_sample_prints (gen : generator) (sample_count : option Z) :
  let records := gen_records gen in
  let n := match sample_count with
           | Some n => n
           | None => Z.of_nat (length records)
           end in
  Sample.debug_sample gen sample_count
  = if n <=? 0 then ([], Ok tt)
    else (Sample.Heading
            :: map Sample.Printed (firstn (Z.to_nat n) records),
          if n <=? Z.of_nat (length records)
          then Ok tt else Raise IndexError).
Proof.
  cbv zeta. unfold Sample.debug_sample.
  set (n := match sample_count with
            | Some n => n
            | None => Z.of_nat (length (gen_records gen))
            end).
  destruct (Z.gtb_spec n 0); destruct (Z.leb_spec n 0); try lia;
    [|reflexivity].
  unfold py_range. rewrite print_loop_prints by lia.
  cbn [skipn app Nat.add]. f_equal.
  destruct (Nat.leb_spec (Z.to_nat n) (length (gen_records gen)));
    destruct (Z.leb_spec n (Z.of_nat (length (gen_records gen))));
    try lia; reflexivity.
Qed.

(* ===================================================================== *)
(** ** aperturedb/CommonLibrary.py: connectors and modules                *)
(* ===================================================================== *)

Module Connectors.

(** The fields of a [Configuration] that [__create_connector] reads. *)
Record Configuration : Type := mk_configuration {
  host : string;
  port : Z;
  username : string;
  password : string;
  use_ssl : bool;
  use_rest : bool
}.

(** The connector objects: the class and the arguments of the call. *)
Inductive connector : Type :=
| Connector (host : string) (port : Z) (user password : string)
    (use_ssl : bool) (config : Configuration)
| ConnectorRest (host : string) (port : Z) (user password : string)
    (use_ssl : bool) (config : Configuration).

Definition create (configuration : Configuration) : connector :=
  if use_rest configuration then
    ConnectorRest (host configuration) (port configuration)
      (username configuration) (password configuration)
      (use_ssl configuration) configuration
  else
    Connector (host configuration) (port configuration)
      (username configuration) (password configuration)
      (use_ssl configuration) configuration.

(** The dict that [ls(log_to_console=False)] returns, as
    [create_connector] reads it: the configurations by name under
    ["global"] and ["local"], and the name of the active one under
    ["active"], each of the three keys present or not. *)
Record configs : Type := mk_configs {
  global : option (list (string * Configuration));
  local : option (list (string * Configuration));
  active : option string
}.

Fixpoint find (l : list (string * Configuration)) (name : string)
  : option Configuration :=
  match l with
  | [] => None
  | (n, c) :: l' => if String.eqb n name then Some c else find l' name
  end.

(** [lookup_config_by_name]. *)
Definition lookup_config_by_name (all_configs : configs) (name : string)
  : result Configuration :=
  match match global all_configs with
        | Some g => find g name
        | None => None
        end with
  | Some c => Ok c
  | None =>
      match match local all_configs with
            | Some l => find l name
            | None => None
            end with
      | Some c => Ok c
      | None => Raise AssertionError
      end
  end.

(** [create_connector(name)]; [environ] is the value of
    [APERTUREDB_CONFIG] in [os.environ], when it is set. *)
Definition create_connector (all_configs : configs) (environ : option string)
    (name : option string) : result connector :=
  Py.bind
    match name with
    | Some n => lookup_config_by_name all_configs n
    | None =>
        match environ with
        | Some (String c s) => lookup_config_by_name all_configs (String c s)
        | _ =>
            match active all_configs with
            | Some n => lookup_config_by_name all_configs n
            | None => Raise AssertionError
            end
        end
    end
    (fun config => Ok (create config)).

End Connectors.

(** X17. The configuration of a connector.  A name given to
    [create_connector] is the only one looked up: found among the global
    configurations, the connector is built from that configuration (its
    host, port, user, password and SSL flag, as a REST connector when
    the configuration says so) whatever the local configurations, the
    environment and the active configuration are; found in neither the
    global nor the local ones, [AssertionError] is raised without falling
    back on the environment or the active configuration.  Without a
    name, a non-empty [APERTUREDB_CONFIG] decides and the active
    configuration is not looked at, and an empty one counts as unset. *)
Theorem create_connector_configuration
    (g : list (string * Connectors.Configuration)) (name : string)
    (c : Connectors.Configuration) :
  Connectors.find g name = Some c ->
  (forall l a environ,
      Connectors.create_connector (Connectors.mk_configs (Some g) l a)
        environ (Some name)
      = Ok (Connectors.create c))
  /\ (forall g' l' a environ missing,
         Connectors.find g' missing = None ->
         Connectors.find l' missing = None ->
         Connectors.create_connector
           (Connectors.mk_configs (Some g') (Some l') a) environ (Some missing)
         = Raise AssertionError)
  /\ (forall l a a' ch rest,
         name = String ch rest ->
         Connectors.create_connector (Connectors.mk_configs (Some g) l a)
           (Some name) None
         = Ok (Connectors.create c)
         /\ Connectors.create_connector (Connectors.mk_configs (Some g) l a')
              (Some name) None
            = Ok (Connectors.create c))
  /\ (forall all,
         Connectors.create_connector all (Some "") None
         = Connectors.create_connector all None None).
Proof.
  intros Hfind.
  assert (Hlook : forall l a,
            Connectors.lookup_config_by_name
              (Connectors.mk_configs (Some g) l a) name = Ok c).
  { intros l a. unfold Connectors.lookup_config_by_name.
    cbn [Connectors.global]. now rewrite Hfind. }
  split; [|split; [|split]].
  - intros l a environ. unfold Connectors.create_connector.
    now rewrite Hlook.
  - intros g' l' a environ missing Hg Hl.
    unfold Connectors.create_connector, Connectors.lookup_config_by_name.
    cbn [Connectors.global Connectors.local]. now rewrite Hg, Hl.
  - intros l a a' ch rest ->. unfold Connectors.create_connector.
    now rewrite !Hlook.
  - reflexivity.
Qed.

Lemma create_connector_configuration_witness :
  let remote := Connectors.mk_configuration "db.example" 55555 "admin" "pw"
                  true true in
  Connectors.find [("prod", remote)] "prod" = Some remote
  /\ (forall l a environ,
         Connectors.create_connector
           (Connectors.mk_configs (Some [("prod", remote)]) l a)
           environ (Some "prod")
         = Ok (Connectors.create remote))
  /\ (forall g' l' a environ missing,
         Connectors.find g' missing = None ->
         Connectors.find l' missing = None ->
         Connectors.create_connector
           (Connectors.mk_configs (Some g') (Some l') a) environ (Some missing)
         = Raise AssertionError)
  /\ (forall l a a' ch rest,
         "prod" = String ch rest ->
         Connectors.create_connector
           (Connectors.mk_configs (Some [("prod", remote)]) l a)
           (Some "prod") None
         = Ok (Connectors.create remote)
         /\ Connectors.create_connector
              (Connectors.mk_configs (Some [("prod", remote)]) l a')
              (Some "prod") None
            = Ok (Connectors.create remote))
  /\ (forall all,
         Connectors.create_connector all (Some "") None
         = Connectors.create_connector all None None).
Proof.
  cbv zeta. split; [reflexivity|].
  apply (create_connector_configuration
           [("prod",
             Connectors.mk_configuration "db.example" 55555 "admin" "pw"
               true true)]
           "prod"
           (Connectors.mk_configuration "db.example" 55555 "admin" "pw"
              true true)).
  reflexivity.
Defined.

Module Modules.

Fixpoint has_slash (s : string) : bool :=
  match s with
  | EmptyString => false
  | String c s' => Ascii.eqb c "/" || has_slash s'
  end.

(** [os.path.basename] on a POSIX system: what follows the last slash. *)
Fixpoint basename (p : string) : string :=
  match p with
  | EmptyString => EmptyString
  | String c p' =>
      if has_slash p' then basename p'
      else if Ascii.eqb c "/" then p' else p
  end.

(** [os.path.basename(filepath)[:-3]]. *)
Definition module_name (filepath : string) : string :=
  string_of_list_ascii
    (py_slice (list_ascii_of_string (basename filepath)) 0 (-3)).

Section Importing.

(** Module objects, [importlib.util.spec_from_file_location] followed by
    [module_from_spec], and [spec.loader.exec_module]: the import
    machinery, which may raise. *)
Variable module : Type.
Variable module_from_file : string -> string -> result module.
Variable exec_module : module -> result unit.

(** [sys.modules]. *)
Definition sys_modules : Type := list (string * module).

Fixpoint loaded (sys : sys_modules) (name : string) : option module :=
  match sys with
  | [] => None
  | (n, m) :: sys' => if String.eqb n name then Some m else loaded sys' name
  end.

Fixpoint register (sys : sys_modules) (name : string) (m : module)
  : sys_modules :=
  match sys with
  | [] => [(name, m)]
  | (n, m') :: sys' =>
      if String.eqb n name then (n, m) :: sys'
      else (n, m') :: register sys' name m
  end.

Definition import_module_by_path (filepath : string) : M sys_modules module :=
  fun sys =>
    match module_from_file (module_name filepath) filepath with
    | Raise e => (sys, Raise e)
    | Ok m =>
        let sys' := register sys (module_name filepath) m in
        match exec_module m with
        | Raise e => (sys', Raise e)
        | Ok _ => (sys', Ok m)
        end
    end.

End Importing.

End Modules.

Lemma has_slash_app (a b : string) :
  Modules.has_slash (a ++ b) = Modules.has_slash a || Modules.has_slash b.
Proof.
  induction a as [|c a IH]; cbn [String.append Modules.has_slash].
  - reflexivity.
  - now rewrite IH, orb_assoc.
Qed.

Lemma basename_plain (base : string) :
  Modules.has_slash base = false -> Modules.basename base = base.
Proof.
  destruct base as [|c base]; cbn [Modules.has_slash Modules.basename].
  - reflexivity.
  - intros H. apply orb_false_iff in H as [Hc Hb]. now rewrite Hb, Hc.
Qed.

Lemma basename_dir (dir base : string) :
  Modules.has_slash base = false ->
  Modules.basename (dir ++ String "/" base) = base.
Proof.
  intros Hbase. induction dir as [|c dir IH];
    cbn [String.append Modules.basename].
  - now rewrite Hbase.
  - rewrite has_slash_app. cbn [Modules.has_slash Ascii.eqb Bool.eqb].
    rewrite orb_true_r. exact IH.
Qed.

Lemma list_ascii_of_string_app (a b : string) :
  list_ascii_of_string (a ++ b)
  = (list_ascii_of_string a ++ list_ascii_of_string b)%list.
Proof.
  induction a as [|c a IH]; cbn [String.append list_ascii_of_string app].
  - reflexivity.
  - now rewrite IH.
Qed.

Lemma length_list_ascii_of_string (s : string) :
  length (list_ascii_of_string s) = String.length s.
Proof.
  induction s as [|c s IH]; cbn [list_ascii_of_string length String.length].
  - reflexivity.
  - now rewrite IH.
Qed.

Lemma drop_extension (stem ext : string) :
  String.length ext = 3%nat ->
  string_of_list_ascii
    (py_slice (list_ascii_of_string (stem ++ ext)) 0 (-3))
  = stem.
Proof.
  intros Hext. unfold py_slice, clamp.
  rewrite list_ascii_of_string_app, length_app,
    !length_list_ascii_of_string, Hext.
  cbn [Z.ltb Z.compare].
  replace (Z.to_nat (Z.max 0 (-3 + Z.of_nat (String.length stem + 3))
                     - Z.min 0 (Z.of_nat (String.length stem + 3))))
    with (String.length stem) by lia.
  replace (Z.to_nat (Z.min 0 (Z.of_nat (String.length stem + 3))))
    with 0%nat by lia.
  cbn [skipn].
  rewrite firstn_app, length_list_ascii_of_string, Nat.sub_diag, firstn_O,
    app_nil_r.
  rewrite firstn_all2 by (rewrite length_list_ascii_of_string; lia).
  apply string_of_list_ascii_of_string.
Qed.

Lemma loaded_register (module : Type) (sys : Modules.sys_modules module)
    (name other : string) (m : module) :
  Modules.loaded module (Modules.register module sys name m) other
  = if String.eqb name other then Some m else Modules.loaded module sys other.
Proof.
  induction sys as [|[n m'] sys IH]; cbn [Modules.register Modules.loaded].
  - reflexivity.
  - destruct (String.eqb_spec n name) as [->|Hn]; cbn [Modules.loaded].
    + destruct (String.eqb_spec name other); reflexivity.
    + rewrite IH. destruct (String.eqb_spec n other) as [->|_];
        [|reflexivity].
      destruct (String.eqb_spec name other); [congruence|reflexivity].
Qed.



(* ===================================================================== *)
(** ** [query] on a generator that asks for Dask                          *)
(* ===================================================================== *)

Module Dask.

(** What [query] reads of a result of [DaskManager.run]. *)
Record partition_result : Type := mk_result {
  pr_times_arr : list Q;
  pr_error_counter : Z;
  pr_succeeded_queries : Z;
  pr_succeeded_commands : Z;
  pr_objects_existed : Z
}.

(** The body of [for result in results], [None] results being skipped. *)
Definition merge_result (st : pq_state) (result : option partition_result)
  : pq_state :=
  match result with
  | None => st
  | Some r =>
      {| st_heap := st_heap st;
         st_times_arr := st_times_arr st ++ pr_times_arr r;
         st_actual_stats :=
           st_actual_stats st
           ++ [[("succeeded_queries", pr_succeeded_queries r);
                ("succeeded_commands", pr_succeeded_commands r);
                ("objects_existed", pr_objects_existed r)]];
         st_error_counter := st_error_counter st + pr_error_counter r;
         st_events := st_events st |}
  end.

(** [self.actual_stats = []] and the loop over the results. *)
Definition merge_results (results : list (option partition_result))
    (st : pq_state) : pq_state :=
  fold_left merge_result results
    {| st_heap := st_heap st;
       st_times_arr := st_times_arr st;
       st_actual_stats := [];
       st_error_counter := st_error_counter st;
       st_events := st_events st |}.

(** The results that are not [None]. *)
Definition present (results : list (option partition_result))
  : list partition_result :=
  flat_map (fun r => match r with Some x => [x] | None => [] end) results.

End Dask.

Lemma merge_results_fold (results : list (option Dask.partition_result)) :
  forall st,
    let st' := fold_left Dask.merge_result results st in
    st_times_arr st'
    = st_times_arr st
      ++ concat (map Dask.pr_times_arr (Dask.present results))
    /\ st_error_counter st'
       = st_error_counter st
         + Spec.sum_Z (map Dask.pr_error_counter (Dask.present results))
    /\ st_actual_stats st'
       = st_actual_stats st
         ++ map (fun r => [("succeeded_queries", Dask.pr_succeeded_queries r);
                           ("succeeded_commands", Dask.pr_succeeded_commands r);
                           ("objects_existed", Dask.pr_objects_existed r)])
              (Dask.present results).
Proof.
  induction results as [|[r|] results IH]; intros st; cbv zeta;
    cbn [fold_left Dask.present flat_map app map concat].
  - rewrite !app_nil_r. cbn. repeat split. lia.
  - destruct (IH (Dask.merge_result st (Some r))) as (Ht & He & Hs).
    rewrite Ht, He, Hs.
    cbn [Dask.merge_result st_times_arr st_error_counter st_actual_stats].
    rewrite <- !app_assoc. cbn [app].
    unfold Spec.sum_Z. cbn [fold_right].
    repeat split. symmetry. apply Z.add_assoc.
  - apply (IH st).
Qed.

Lemma sum_stats_entries (k : string) (f : Dask.partition_result -> Z)
    (entry : Dask.partition_result -> stats)
    (l : list Dask.partition_result) :
  (forall r, stats_get (entry r) k = Some (f r)) ->
  sum_stats k (map entry l) = Ok (Spec.sum_Z (map f l)).
Proof.
  intros Hentry. induction l as [|r l IH];
    cbn [map sum_stats Spec.sum_Z fold_right]; [reflexivity|].
  rewrite Hentry, IH. reflexivity.
Qed.

(** X19. The statistics of a Dask run are the sums over its partitions.
    After [query] has merged the results of [DaskManager.run], the times
    are those held before followed by those of the partitions in order,
    the error counter has grown by the errors of the partitions, the
    statistics held before are dropped, and [get_succeeded_queries],
    [get_succeeded_commands] and [get_objects_existed] return the sums of
    the partitions' figures; results that are [None] count for nothing. *)
Theorem dask_results_are_summed
    (results : list (option Dask.partition_result)) (st : pq_state) :
  let st' := Dask.merge_results results st in
  let parts := Dask.present results in
  st_times_arr st'
  = st_times_arr st ++ concat (map Dask.pr_times_arr parts)
  /\ st_error_counter st'
     = st_error_counter st + Spec.sum_Z (map Dask.pr_error_counter parts)
  /\ length (st_actual_stats st') = length parts
  /\ get_succeeded_queries st'
     = Ok (Spec.sum_Z (map Dask.pr_succeeded_queries parts))
  /\ get_succeeded_commands st'
     = Ok (Spec.sum_Z (map Dask.pr_succeeded_commands parts))
  /\ get_objects_existed st'
     = Ok (Spec.sum_Z (map Dask.pr_objects_existed parts)).
Proof.
  cbv zeta. unfold Dask.merge_results.
  match goal with |- context [fold_left Dask.merge_result results ?s] =>
    destruct (merge_results_fold results s) as (Ht & He & Hs) end.
  cbn [st_times_arr st_error_counter st_actual_stats app] in Ht, He, Hs.
  unfold get_succeeded_queries, get_succeeded_commands, get_objects_existed.
  rewrite Ht, He, Hs, length_map.
  split; [reflexivity|]. split; [reflexivity|]. split; [reflexivity|].
  split; [|split]; apply sum_stats_entries; reflexivity.
Qed.

(* ===================================================================== *)
(** ** The statistics of a batch that failed in part                      *)
(* ===================================================================== *)

Lemma eq_int_exclusive (s : value) :
  (if eq_int s 0 then 1 else 0) + (if eq_int s 2 then 1 else 0) <= 1.
Proof.
  destruct s as [| [|] |z| | |]; cbn [eq_int]; try (cbn; lia).
  destruct (Z.eqb_spec z 0); destruct (Z.eqb_spec z 2); lia.
Qed.

Lemma count_status_bounds (d : dict) :
  forall a b,
    count_status 0 d = Ok a -> count_status 2 d = Ok b ->
    0 <= a /\ 0 <= b /\ a + b <= Z.of_nat (length d).
Proof.
  induction d as [|[k v] d IH]; intros a b; cbn [count_status length].
  - intros [= <-] [= <-]. lia.
  - destruct (py_getitem v "status") as [s|e]; cbn [Py.bind];
      [|discriminate].
    destruct (count_status 0 d) as [a'|]; cbn [Py.bind]; [|discriminate].
    destruct (count_status 2 d) as [b'|]; cbn [Py.bind]; [|discriminate].
    intros [= <-] [= <-]. destruct (IH a' b' eq_refl eq_refl) as (? & ? & ?).
    pose proof (eq_int_exclusive s).
    destruct (eq_int s 0); destruct (eq_int s 2); lia.
Qed.

Lemma count_status_groups_bounds (rs : list value) :
  forall a b,
    count_status_groups 0 rs = Ok a -> count_status_groups 2 rs = Ok b ->
    0 <= a /\ 0 <= b
    /\ a + b <= Z.of_nat (length (flat_map filter_per_group rs)).
Proof.
  induction rs as [|g rs IH]; intros a b;
    cbn [count_status_groups flat_map].
  - intros [= <-] [= <-]. cbn. lia.
  - destruct (count_status 0 (filter_per_group g)) as [a1|] eqn:Ha;
      cbn [Py.bind]; [|discriminate].
    destruct (count_status_groups 0 rs) as [a2|]; cbn [Py.bind];
      [|discriminate].
    destruct (count_status 2 (filter_per_group g)) as [b1|] eqn:Hb;
      cbn [Py.bind]; [|discriminate].
    destruct (count_status_groups 2 rs) as [b2|]; cbn [Py.bind];
      [|discriminate].
    intros [= <-] [= <-].
    destruct (IH a2 b2 eq_refl eq_refl) as (? & ? & ?).
    destruct (count_status_bounds _ a1 b1 Ha Hb) as (? & ? & ?).
    rewrite length_app. lia.
Qed.

Lemma count_succeeded_queries_bounds (cpq : Z) (r : value) (idxs : list Z) :
  forall sq sq',
    count_succeeded_queries cpq r idxs sq = Ok sq' ->
    sq <= sq' <= sq + Z.of_nat (length idxs).
Proof.
  induction idxs as [|i rest IH]; intros sq sq';
    cbn [count_succeeded_queries length].
  - intros [= <-]. lia.
  - destruct r as [| | | |rs|]; try (intros H; apply IH in H; lia).
    destruct (count_status_groups 0 _) as [zeros|]; cbn [Py.bind];
      [|discriminate].
    intros H. apply IH in H.
    destruct (zeros =? _); lia.
Qed.

Lemma length_range_from (from step : Z) (count : nat) :
  length (range_from from step count) = count.
Proof.
  revert from; induction count as [|count IH]; intros from;
    cbn [range_from length]; [reflexivity|now rewrite IH].
Qed.

(** X20. The figures of a batch that failed in part.  When
    [execute_batch] gives result 2 on a list-shaped response and
    [do_batch] gets to record the batch, it records the query time 0
    (the time of the connection is read for result 0 only) and counts no
    error; ["succeeded_queries"] is at most the number of groups of
    [commands_per_query] responses, and ["succeeded_commands"] and
    ["objects_existed"] together are at most the number of entries of
    the dict-shaped responses. *)
Theorem partly_failed_batch_figures
    (cfg : pq_config) (gen : generator)
    (db : list value -> list blob -> reply) (batch_start : Z)
    (data : list record) (st : pq_state)
    (hp : heap) (q : list addr) (blobs : list blob) (rh : option handler)
    (rs : list value) (b : list blob) :
  dry_run cfg = false ->
  0 < commands_per_query cfg ->
  generate_batch data (st_heap st) = (hp, Ok (q, blobs)) ->
  response_handler_of gen = Ok rh ->
  snd (execute_batch (map (deref hp) q) blobs db (success_statuses cfg) rh
         (commands_per_query cfg) (blobs_per_query cfg) (strict_of gen)
         (Some batch_start))
  = Ok (2, VList rs, b) ->
  let run := do_batch cfg gen db batch_start data st in
  snd run = Ok tt ->
  exists sc oe sq,
    st_actual_stats (fst run)
    = st_actual_stats st
      ++ [[("succeeded_commands", sc); ("objects_existed", oe);
           ("succeeded_queries", sq)]]
    /\ st_times_arr (fst run) = st_times_arr st ++ [0%Q]
    /\ st_error_counter (fst run) = st_error_counter st
    /\ 0 <= sq <= ceil_div (Z.of_nat (length rs)) (commands_per_query cfg)
    /\ 0 <= sc /\ 0 <= oe
    /\ sc + oe <= Z.of_nat (length (flat_map filter_per_group rs)).
Proof.
  intros Hdry Hcpq Hgen Hrh Hexec run. subst run.
  unfold do_batch. rewrite Hgen, Hdry, Hrh, Hexec.
  cbn [Z.eqb Pos.eqb]. unfold worker_stats_of. cbn [Z.eqb Pos.eqb].
  cbn [sum_status_filtered py_len].
  destruct (count_status_groups 0 rs) as [sc|e] eqn:Hsc; cbn [Py.bind];
    [|discriminate].
  destruct (count_status_groups 2 rs) as [oe|e] eqn:Hoe; cbn [Py.bind];
    [|discriminate].
  unfold py_range_step.
  destruct (Z.eqb_spec (commands_per_query cfg) 0); [lia|].
  destruct (Z.ltb_spec (commands_per_query cfg) 0); [lia|].
  cbn [Py.bind].
  destruct (count_succeeded_queries _ _ _ 0) as [sq|e] eqn:Hsq;
    cbn [Py.bind snd fst]; [|discriminate].
  intros _. exists sc, oe, sq.
  cbn [record_batch with_heap st_actual_stats st_times_arr st_error_counter].
  apply count_succeeded_queries_bounds in Hsq.
  rewrite length_range_from in Hsq.
  pose proof (ceil_div_covers (Z.of_nat (length rs)) (commands_per_query cfg)
                Hcpq ltac:(lia)) as [_ Hn].
  destruct (count_status_groups_bounds rs sc oe Hsc Hoe) as (? & ? & ?).
  repeat split; try reflexivity; lia.
Qed.

(** A connection that accepts the first command of a query and rejects
    the second with status 7. *)
Definition half_accepting (_ : list value) (_ : list blob) : reply :=
  mk_reply
    (VList [VDict [("AddEntity", VDict [("status", VInt 0)])];
            VDict [("AddEntity", VDict [("status", VInt 7)])]])
    [] true (1 # 2)%Q.

Lemma partly_failed_batch_figures_witness :
  let cfg := Example_run.cfg in
  let gen := Example_run.gen in
  let st := Parallelizer.fresh Example_run.hp in
  let data := py_slice (gen_records gen) 0 2 in
  let rs := [VDict [("AddEntity", VDict [("status", VInt 0)])];
             VDict [("AddEntity", VDict [("status", VInt 7)])]] in
  let run := do_batch cfg gen half_accepting 0 data st in
  (dry_run cfg = false
   /\ 0 < commands_per_query cfg
   /\ generate_batch data (st_heap st)
      = (Example_run.hp, Ok ([0; 1]%nat, []))
   /\ response_handler_of gen = Ok None
   /\ snd (execute_batch (map (deref Example_run.hp) [0; 1]%nat) []
             half_accepting (success_statuses cfg) None
             (commands_per_query cfg) (blobs_per_query cfg) (strict_of gen)
             (Some 0))
      = Ok (2, VList rs, [])
   /\ snd run = Ok tt)
  /\ exists sc oe sq,
      st_actual_stats (fst run)
      = st_actual_stats st
        ++ [[("succeeded_commands", sc); ("objects_existed", oe);
             ("succeeded_queries", sq)]]
      /\ st_times_arr (fst run) = st_times_arr st ++ [0%Q]
      /\ st_error_counter (fst run) = st_error_counter st
      /\ 0 <= sq <= ceil_div (Z.of_nat (length rs)) (commands_per_query cfg)
      /\ 0 <= sc /\ 0 <= oe
      /\ sc + oe <= Z.of_nat (length (flat_map filter_per_group rs)).
Proof.
  cbv zeta. split.
  - repeat split; try reflexivity.
  - apply (partly_failed_batch_figures Example_run.cfg Example_run.gen
             half_accepting 0 (py_slice (gen_records Example_run.gen) 0 2)
             (Parallelizer.fresh Example_run.hp) Example_run.hp
             [0; 1]%nat [] None
             [VDict [("AddEntity", VDict [("status", VInt 0)])];
              VDict [("AddEntity", VDict [("status", VInt 7)])]]
             []); reflexivity.
Defined.

(* ===================================================================== *)
(** ** Assembling an assembled batch                                      *)
(* ===================================================================== *)

(** What a pointer holding [r] holds after the rewriting with table [u]. *)
Definition image (u : updates_t) (r : Z) : Z :=
  match updates_get u (KInt r) with
  | Some p => p
  | None => r
  end.

(** The table [v] maps the pointers [refs] to themselves. *)
Definition fixes (v : updates_t) (refs : list Z) : Prop :=
  forall p, In p refs -> updates_get v (KInt p) = Some p.

Lemma fixes_app (v : updates_t) (l1 l2 : list Z) :
  fixes v (l1 ++ l2) <-> fixes v l1 /\ fixes v l2.
Proof.
  unfold fixes. split.
  - intros H. split; intros p Hp; apply H, in_or_app; auto.
  - intros [H1 H2] p Hp. apply in_app_or in Hp as [Hp|Hp]; auto.
Qed.

Ltac peel_rewrites :=
  repeat first
    [ rewrite dict_get_remap_dict by discriminate
    | rewrite dict_get_remap_nested by discriminate
    | rewrite dict_get_remap_links by discriminate ].

Lemma rewrite_pointers_get_ref (u : updates_t) (b : dict) :
  dict_get (Spec.rewrite_pointers u b) "_ref" = dict_get b "_ref".
Proof. unfold Spec.rewrite_pointers. now peel_rewrites. Qed.

Lemma rewrite_pointers_get_simple (u : updates_t) (b : dict) (f : string) :
  In f ["image_ref"; "video_ref"; "src"; "dst"; "ref"] ->
  dict_get (Spec.rewrite_pointers u b) f
  = match dict_get b f with
    | Some (VInt r) => Some (VInt (image u r))
    | other => other
    end.
Proof.
  unfold Spec.rewrite_pointers, image.
  intros [<-|[<-|[<-|[<-|[<-|[]]]]]]; peel_rewrites;
    rewrite dict_get_remap_dict_same; peel_rewrites;
    destruct (dict_get b _) as [[| |r| | |]|]; try reflexivity;
    destruct (updates_get u (KInt r)); reflexivity.
Qed.

Lemma rewrite_pointers_get_connect (u : updates_t) (b : dict) :
  dict_get (Spec.rewrite_pointers u b) "connect"
  = option_map (Spec.remap_link u) (dict_get b "connect").
Proof.
  unfold Spec.rewrite_pointers. peel_rewrites.
  rewrite dict_get_remap_nested_same. now peel_rewrites.
Qed.

Lemma rewrite_pointers_get_connected (u : updates_t) (b : dict) :
  dict_get (Spec.rewrite_pointers u b) "is_connected_to"
  = option_map (Spec.remap_connected u) (dict_get b "is_connected_to").
Proof.
  unfold Spec.rewrite_pointers. peel_rewrites.
  rewrite dict_get_remap_nested_same. now peel_rewrites.
Qed.

Lemma field_ref_remap_dict (u : updates_t) (d : dict) (f : string) :
  Spec.field_ref (Spec.remap_dict u f d) f
  = map (image u) (Spec.field_ref d f).
Proof.
  unfold Spec.field_ref, image. rewrite dict_get_remap_dict_same.
  destruct (dict_get d f) as [[| |r| | |]|]; try reflexivity.
  cbn [map]. destruct (updates_get u (KInt r)); reflexivity.
Qed.

Lemma link_refs_remap_link (u : updates_t) (x : value) :
  Spec.link_refs (Spec.remap_link u x) = map (image u) (Spec.link_refs x).
Proof.
  destruct x as [| | | | |d]; try reflexivity.
  cbn [Spec.remap_link Spec.link_refs]. apply field_ref_remap_dict.
Qed.

Lemma links_refs_remap_links (u : updates_t) (d : dict) (op : string) :
  Spec.links_refs (Spec.remap_links u op d) op
  = map (image u) (Spec.links_refs d op).
Proof.
  unfold Spec.links_refs. rewrite dict_get_remap_links_same.
  destruct (dict_get d op) as [[| | | |l|]|]; try reflexivity.
  induction l as [|x l IH]; cbn [map flat_map]; [reflexivity|].
  now rewrite map_app, IH, link_refs_remap_link.
Qed.

Lemma connected_refs_remap_connected (u : updates_t) (x : value) :
  Spec.connected_refs (Spec.remap_connected u x)
  = map (image u) (Spec.connected_refs x).
Proof.
  destruct x as [| | | | |d]; try reflexivity.
  cbn [Spec.remap_connected Spec.connected_refs]. rewrite !map_app.
  f_equal; [|f_equal].
  - unfold Spec.field_ref at 1. peel_rewrites.
    apply field_ref_remap_dict.
  - unfold Spec.links_refs at 1. peel_rewrites.
    fold (Spec.links_refs (Spec.remap_links u "any" (Spec.remap_dict u "ref" d))
            "any").
    rewrite links_refs_remap_links. f_equal.
    unfold Spec.links_refs. now peel_rewrites.
  - rewrite links_refs_remap_links. f_equal.
    unfold Spec.links_refs. now peel_rewrites.
Qed.

Lemma field_ref_rewrite_pointers (u : updates_t) (b : dict) (f : string) :
  In f ["image_ref"; "video_ref"; "src"; "dst"; "ref"] ->
  Spec.field_ref (Spec.rewrite_pointers u b) f
  = map (image u) (Spec.field_ref b f).
Proof.
  intros Hf. unfold Spec.field_ref.
  rewrite (rewrite_pointers_get_simple u b f Hf).
  destruct (dict_get b f) as [[| | | | |]|]; reflexivity.
Qed.

(** The pointers of a rewritten body are the images of its pointers. *)
Lemma pointers_rewrite_pointers (u : updates_t) (b : dict) :
  Spec.pointers (Spec.rewrite_pointers u b)
  = map (image u) (Spec.pointers b).
Proof.
  unfold Spec.pointers. rewrite !map_app.
  rewrite !field_ref_rewrite_pointers by (cbn; auto 10).
  unfold Spec.nested_refs.
  rewrite rewrite_pointers_get_connect, rewrite_pointers_get_connected.
  destruct (dict_get b "is_connected_to") as [x|];
    destruct (dict_get b "connect") as [c|]; cbn [option_map];
    rewrite ?connected_refs_remap_connected, ?link_refs_remap_link;
    reflexivity.
Qed.

(** A rewriting with a table that fixes the pointers changes nothing. *)
Lemma remap_dict_fixed (v : updates_t) (f : string) (d : dict) :
  fixes v (Spec.field_ref d f) -> Spec.remap_dict v f d = d.
Proof.
  unfold fixes, Spec.field_ref, Spec.remap_dict.
  destruct (dict_get d f) as [[| |r| | |]|] eqn:Hf; try reflexivity.
  intros H. rewrite (H r (or_introl eq_refl)). now apply dict_set_same.
Qed.

Lemma remap_link_fixed (v : updates_t) (x : value) :
  fixes v (Spec.link_refs x) -> Spec.remap_link v x = x.
Proof.
  destruct x as [| | | | |d]; try reflexivity.
  cbn [Spec.link_refs Spec.remap_link]. intros H.
  now rewrite remap_dict_fixed.
Qed.

Lemma remap_links_fixed (v : updates_t) (op : string) (d : dict) :
  fixes v (Spec.links_refs d op) -> Spec.remap_links v op d = d.
Proof.
  assert (Hmap : forall l, fixes v (flat_map Spec.link_refs l) ->
                           map (Spec.remap_link v) l = l).
  { induction l as [|x l IH]; cbn [map flat_map]; [reflexivity|].
    intros H. apply fixes_app in H as [Hx Hl].
    now rewrite remap_link_fixed, IH. }
  unfold Spec.links_refs, Spec.remap_links.
  destruct (dict_get d op) as [[| | | |l|]|] eqn:Hop; try reflexivity.
  intros H. apply dict_set_same. now rewrite Hop, Hmap.
Qed.

Lemma remap_connected_fixed (v : updates_t) (x : value) :
  fixes v (Spec.connected_refs x) -> Spec.remap_connected v x = x.
Proof.
  destruct x as [| | | | |d]; try reflexivity.
  cbn [Spec.connected_refs Spec.remap_connected]. intros H.
  apply fixes_app in H as [Href H]. apply fixes_app in H as [Hany Hall].
  now rewrite (remap_dict_fixed v "ref" d Href),
    (remap_links_fixed v "any" d Hany), (remap_links_fixed v "all" d Hall).
Qed.

Lemma remap_nested_fixed (f : string) (g : value -> value) (d : dict) :
  (forall x, dict_get d f = Some x -> g x = x) ->
  Spec.remap_nested f g d = d.
Proof.
  unfold Spec.remap_nested. intros H.
  destruct (dict_get d f) as [x|] eqn:Hf; [|reflexivity].
  apply dict_set_same. now rewrite (H x eq_refl).
Qed.

Lemma rewrite_pointers_fixed (v : updates_t) (b : dict) :
  fixes v (Spec.pointers b) -> Spec.rewrite_pointers v b = b.
Proof.
  unfold Spec.pointers, Spec.nested_refs. intros H.
  apply fixes_app in H as [Himage H]. apply fixes_app in H as [Hvideo H].
  apply fixes_app in H as [Hict H]. apply fixes_app in H as [Hconnect H].
  apply fixes_app in H as [Hsrc H]. apply fixes_app in H as [Hdst Href].
  unfold Spec.rewrite_pointers.
  rewrite (remap_dict_fixed v "image_ref" b Himage).
  rewrite (remap_dict_fixed v "video_ref" b Hvideo).
  rewrite (remap_nested_fixed "is_connected_to" (Spec.remap_connected v) b).
  2:{ intros x Hx. rewrite Hx in Hict. now apply remap_connected_fixed. }
  rewrite (remap_nested_fixed "connect" (Spec.remap_link v) b).
  2:{ intros x Hx. rewrite Hx in Hconnect. now apply remap_link_fixed. }
  rewrite (remap_dict_fixed v "src" b Hsrc).
  rewrite (remap_dict_fixed v "dst" b Hdst).
  now apply remap_dict_fixed.
Qed.

(** A body whose ["_ref"], if any, is the position of its command is
    numbered already. *)
Lemma number_ref_fixed (i : nat) (b : dict) :
  (dict_get b "_ref" = None
   \/ dict_get b "_ref" = Some (VInt (Z.of_nat i + 1))) ->
  Spec.number_ref i b = b.
Proof.
  unfold Spec.number_ref. intros [H|H]; rewrite H; [reflexivity|].
  now apply dict_set_same.
Qed.

(** Rewriting keeps a body well formed. *)
Lemma int_field_remap_dict (u : updates_t) (d : dict) (f : string) :
  Spec.int_field d f = true ->
  Spec.int_field (Spec.remap_dict u f d) f = true.
Proof.
  unfold Spec.int_field. rewrite dict_get_remap_dict_same.
  destruct (dict_get d f) as [[| |r| | |]|]; try discriminate; try reflexivity.
  now destruct (updates_get u (KInt r)).
Qed.

Lemma wf_link_remap_link (u : updates_t) (x : value) :
  Spec.wf_link x = true -> Spec.wf_link (Spec.remap_link u x) = true.
Proof.
  destruct x as [| | | | |d]; try discriminate.
  cbn [Spec.wf_link Spec.remap_link]. apply int_field_remap_dict.
Qed.

Lemma opt_field_remap_links (u : updates_t) (d : dict) (op : string) :
  Spec.opt_field d op Spec.wf_links = true ->
  Spec.opt_field (Spec.remap_links u op d) op Spec.wf_links = true.
Proof.
  unfold Spec.opt_field. rewrite dict_get_remap_links_same.
  destruct (dict_get d op) as [[| | | |l|]|]; try discriminate;
    try reflexivity.
  cbn [Spec.wf_links]. intros H.
  induction l as [|x l IH]; cbn [map forallb] in *; [reflexivity|].
  apply andb_true_iff in H as [Hx Hl].
  now rewrite wf_link_remap_link, IH.
Qed.

Lemma wf_connected_remap_connected (u : updates_t) (x : value) :
  Spec.wf_connected x = true ->
  Spec.wf_connected (Spec.remap_connected u x) = true.
Proof.
  destruct x as [| | | | |d]; try discriminate.
  cbn [Spec.wf_connected Spec.remap_connected].
  rewrite !andb_true_iff. intros [[Href Hany] Hall].
  split; [split|].
  - unfold Spec.int_field. peel_rewrites.
    now apply int_field_remap_dict.
  - unfold Spec.opt_field at 1. peel_rewrites.
    fold (Spec.opt_field
            (Spec.remap_links u "any" (Spec.remap_dict u "ref" d)) "any"
            Spec.wf_links).
    apply opt_field_remap_links. unfold Spec.opt_field. now peel_rewrites.
  - apply opt_field_remap_links. unfold Spec.opt_field. now peel_rewrites.
Qed.

Lemma wf_body_rewrite_pointers (u : updates_t) (b : dict) :
  Spec.wf_body b = true -> Spec.wf_body (Spec.rewrite_pointers u b) = true.
Proof.
  unfold Spec.wf_body. rewrite !andb_true_iff.
  intros [[[[[[[Hr Hi] Hv] Hict] Hc] Hs] Hd] Hp].
  assert (Hsimple : forall f,
            In f ["image_ref"; "video_ref"; "src"; "dst"; "ref"] ->
            Spec.int_field b f = true ->
            Spec.int_field (Spec.rewrite_pointers u b) f = true).
  { intros f Hf. unfold Spec.int_field.
    rewrite (rewrite_pointers_get_simple u b f Hf).
    now destruct (dict_get b f) as [[| | | | |]|]. }
  repeat split; try solve [apply Hsimple; [cbn; auto 10|assumption]].
  - unfold Spec.int_field. now rewrite rewrite_pointers_get_ref.
  - unfold Spec.opt_field in *. rewrite rewrite_pointers_get_connected.
    destruct (dict_get b "is_connected_to"); [|reflexivity].
    now apply wf_connected_remap_connected.
  - unfold Spec.opt_field in *. rewrite rewrite_pointers_get_connect.
    destruct (dict_get b "connect"); [|reflexivity].
    now apply wf_link_remap_link.
Qed.

Lemma last_definer_none (l : list value) (r : Z) :
  forall pos,
    (forall m, (m < length l)%nat -> Spec.defines (nth m l VNone) r = false) ->
    Spec.last_definer l r pos = None.
Proof.
  induction l as [|c l IH]; intros pos H; cbn [Spec.last_definer].
  - reflexivity.
  - rewrite IH.
    + pose proof (H 0%nat ltac:(cbn; lia)) as H0. cbn [nth] in H0.
      now rewrite H0.
    + intros m Hm. apply (H (S m)). cbn. lia.
Qed.

(** The one command that defines [r] is its last definer. *)
Lemma last_definer_unique (l : list value) (r : Z) :
  forall pos m,
    (m < length l)%nat ->
    Spec.defines (nth m l VNone) r = true ->
    (forall m', (m' < length l)%nat ->
                Spec.defines (nth m' l VNone) r = true -> m' = m) ->
    Spec.last_definer l r pos = Some (pos + Z.of_nat m).
Proof.
  induction l as [|c l IH]; intros pos m Hm Hdef Huniq; cbn [length] in Hm;
    [lia|].
  cbn [Spec.last_definer]. destruct m as [|m].
  - rewrite last_definer_none.
    + cbn [nth] in Hdef. rewrite Hdef. f_equal. lia.
    + intros m' Hm'.
      destruct (Spec.defines (nth m' l VNone) r) eqn:E; [|reflexivity].
      specialize (Huniq (S m') ltac:(cbn; lia) E). discriminate.
  - rewrite (IH (pos + 1) m).
    + f_equal. lia.
    + lia.
    + exact Hdef.
    + intros m' Hm' E.
      specialize (Huniq (S m') ltac:(cbn; lia) E). lia.
Qed.

Section AssembledTwice.

Variables (addrs : list addr) (hp hp' : heap).

Let cmds := map (deref hp) addrs.
Let cmds' := map (deref hp') addrs.

(** The tables of the first and of the second assembly before command [j]. *)
Let U (j : nat) := Spec.table_after (firstn j cmds) 0 [].
Let V (j : nat) := Spec.table_after (firstn j cmds') 0 [].

Hypothesis Hres : Spec.resolved cmds = true.
Hypothesis Hlt : Z.of_nat (length addrs) < 100000.

(** [hp'] holds the commands as the first assembly leaves them. *)
Hypothesis Hasm :
  forall j a,
    nth_error addrs j = Some a ->
    exists op body,
      deref hp a = VDict [(op, VDict body)]
      /\ Spec.wf_body body = true
      /\ deref hp' a
         = VDict [(op, VDict (Spec.renumber_body j (U j) body))].

Lemma assembled_command (j : nat) :
  (j < length addrs)%nat ->
  exists a op body,
    nth_error addrs j = Some a
    /\ nth_error cmds j = Some (VDict [(op, VDict body)])
    /\ Spec.wf_body body = true
    /\ nth_error cmds' j
       = Some (VDict [(op, VDict (Spec.renumber_body j (U j) body))]).
Proof.
  intros Hj. destruct (nth_error addrs j) as [a|] eqn:Ha.
  2:{ apply nth_error_None in Ha. lia. }
  destruct (Hasm j a Ha) as (op & body & Hc & Hwf & Hc').
  exists a, op, body. subst cmds cmds'.
  rewrite !nth_error_map, Ha. cbn [option_map]. now rewrite Hc, Hc'.
Qed.

Lemma assembled_ref (j : nat) (body : dict) :
  Spec.wf_body body = true ->
  dict_get (Spec.renumber_body j (U j) body) "_ref"
  = match dict_get body "_ref" with
    | Some _ => Some (VInt (Z.of_nat j + 1))
    | None => None
    end.
Proof.
  intros Hwf. unfold Spec.renumber_body.
  rewrite rewrite_pointers_get_ref. unfold Spec.number_ref.
  destruct (dict_get body "_ref") eqn:Hr; [|exact Hr].
  rewrite dict_get_set. now rewrite String.eqb_refl.
Qed.

(** An assembled command defines its own position, when the command
    defined a ref, and none otherwise. *)
Lemma assembled_defines (j : nat) (p : Z) :
  (j < length addrs)%nat ->
  Spec.defines (nth j cmds' VNone) p
  = Spec.is_some (Spec.defined_ref (nth j cmds VNone))
    && (Z.of_nat j + 1 =? p).
Proof.
  intros Hj.
  destruct (assembled_command j Hj) as (a & op & body & _ & Hc & Hwf & Hc').
  rewrite (nth_error_nth _ _ _ Hc), (nth_error_nth _ _ _ Hc').
  unfold Spec.defines. cbn [Spec.defined_ref].
  rewrite (assembled_ref j body Hwf).
  unfold Spec.wf_body in Hwf. rewrite !andb_true_iff in Hwf.
  destruct Hwf as [[[[[[[Hr _] _] _] _] _] _] _].
  unfold Spec.int_field in Hr.
  destruct (dict_get body "_ref") as [[| |r| | |]|]; try discriminate;
    reflexivity.
Qed.

(** In the assembled batch the position of a definer stands for itself. *)
Lemma assembled_definer (n m : nat) :
  (m < n)%nat -> (n <= length addrs)%nat ->
  Spec.is_some (Spec.defined_ref (nth m cmds VNone)) = true ->
  Spec.definer cmds' n (Z.of_nat m + 1) = Some (Z.of_nat m + 1).
Proof.
  intros Hm Hn Hdef. unfold Spec.definer.
  assert (Hlen : length (firstn n cmds') = n).
  { rewrite length_firstn. subst cmds'. rewrite length_map. lia. }
  rewrite (last_definer_unique (firstn n cmds') (Z.of_nat m + 1) 1 m).
  - f_equal. lia.
  - lia.
  - rewrite nth_firstn. destruct (Nat.ltb_spec m n); [|lia].
    rewrite assembled_defines by lia. rewrite Hdef, Z.eqb_refl. reflexivity.
  - intros m' Hm'. rewrite Hlen in Hm'. rewrite nth_firstn.
    destruct (Nat.ltb_spec m' n); [|lia].
    rewrite assembled_defines by lia.
    intros Hd. apply andb_true_iff in Hd as [_ Hd]. apply Z.eqb_eq in Hd.
    lia.
Qed.

(** The table of the second assembly fixes the pointers of an assembled
    command. *)
Lemma assembled_fixes (j : nat) (body : dict) (op : string) :
  nth_error cmds j = Some (VDict [(op, VDict body)]) ->
  Spec.wf_body body = true ->
  fixes (V (S j)) (Spec.pointers (Spec.renumber_body j (U j) body)).
Proof.
  intros Hc Hwf p Hp.
  assert (Hj : (j < length addrs)%nat).
  { assert (nth_error cmds j <> None) by congruence.
    apply nth_error_Some in H. subst cmds. now rewrite length_map in H. }
  unfold Spec.renumber_body in Hp.
  rewrite pointers_rewrite_pointers in Hp.
  destruct (wf_body_number_ref j body Hwf) as [_ Hsame].
  rewrite Hsame in Hp. apply in_map_iff in Hp as (r & <- & Hr).
  (* the pointer [r] of the command is resolved by the first assembly *)
  assert (Hat : Spec.resolved_at cmds j = true).
  { unfold Spec.resolved in Hres. rewrite forallb_forall in Hres.
    apply Hres. apply in_seq. subst cmds. rewrite length_map. lia. }
  unfold Spec.resolved_at in Hat. rewrite (nth_error_nth _ _ _ Hc) in Hat.
  rewrite forallb_forall in Hat. specialize (Hat r Hr).
  destruct (Spec.definer cmds (S j) r) as [q|] eqn:Hq; [|discriminate].
  assert (Himage : image (Spec.record_ref j body (U j)) r = q).
  { unfold image. subst U. cbv beta.
    replace body with (Spec.body_of (VDict [(op, VDict body)])) by reflexivity.
    rewrite <- (table_after_step cmds j _ Hc), table_definer, Hq.
    reflexivity. }
  rewrite Himage.
  destruct (definer_latest cmds (S j) r q Hq) as (m & Hm & -> & Hdef & _).
  subst V. cbv beta. rewrite table_definer.
  apply assembled_definer; [lia|lia|].
  unfold Spec.defines in Hdef.
  now destruct (Spec.defined_ref (nth m cmds VNone)).
Qed.

(** The second assembly leaves an assembled command as it is. *)
Lemma assembled_step (j : nat) (op : string) (body : dict) :
  nth_error cmds j = Some (VDict [(op, VDict body)]) ->
  nth_error cmds' j
  = Some (VDict [(op, VDict (Spec.renumber_body j (U j) body))]) ->
  Spec.wf_body body = true ->
  update_values j (VDict (Spec.renumber_body j (U j) body), V j)
  = ((VDict (Spec.renumber_body j (U j) body), V (S j)), Ok tt).
Proof.
  intros Hc Hc' Hwf.
  set (body' := Spec.renumber_body j (U j) body).
  assert (Hj : (j < length addrs)%nat).
  { assert (nth_error cmds j <> None) by congruence.
    apply nth_error_Some in H. subst cmds. now rewrite length_map in H. }
  assert (Hwf' : Spec.wf_body body' = true).
  { subst body'. unfold Spec.renumber_body.
    apply wf_body_rewrite_pointers. now apply wf_body_number_ref. }
  assert (Hstep : Spec.record_ref j body' (V j) = V (S j)).
  { subst V. cbv beta.
    replace body' with (Spec.body_of (VDict [(op, VDict body')]))
      by reflexivity.
    symmetry. now apply table_after_step. }
  pose proof (assembled_fixes j body op Hc Hwf) as Hfix. fold body' in Hfix.
  assert (Hknown : Spec.known (V (S j)) (Spec.pointers body') = true).
  { unfold Spec.known. apply forallb_forall. intros p Hp.
    now rewrite (Hfix p Hp). }
  assert (Hsame : Spec.renumber_body j (V j) body' = body').
  { unfold Spec.renumber_body at 1. rewrite Hstep.
    rewrite (number_ref_fixed j body').
    - now apply rewrite_pointers_fixed.
    - subst body'. rewrite (assembled_ref j body Hwf).
      destruct (dict_get body "_ref"); auto. }
  destruct (update_values_spec j body' (V j) Hwf') as (v' & Hrun & Hv').
  rewrite Hstep, Hknown in Hrun, Hv'.
  assert (Hbound : dict_has body' "_ref" && (100000 <=? Z.of_nat j + 1)
                   = false).
  { destruct (Z.leb_spec 100000 (Z.of_nat j + 1)); [lia|].
    apply andb_false_r. }
  rewrite Hbound in Hrun. rewrite Hrun.
  now rewrite (Hv' Hbound eq_refl), Hsame.
Qed.

Lemma assembled_loop (rest : list addr) :
  forall j,
    skipn j addrs = rest ->
    update_refs_loop j rest (hp', V j) = ((hp', V (length addrs)), Ok tt).
Proof.
  induction rest as [|a rest IH]; intros j Hskip; cbn [update_refs_loop].
  - assert (length addrs <= j)%nat.
    { destruct (Nat.le_gt_cases (length addrs) j) as [?|Hgt]; [assumption|].
      assert (length (skipn j addrs) = 0%nat) by now rewrite Hskip.
      rewrite length_skipn in H. lia. }
    unfold mret. do 2 f_equal. subst V. cbv beta.
    rewrite !firstn_all2; [reflexivity| |];
      subst cmds'; rewrite length_map; lia.
  - assert (Ha : nth_error addrs j = Some a).
    { rewrite <- (Nat.add_0_r j), <- nth_error_skipn, Hskip. reflexivity. }
    assert (Hj : (j < length addrs)%nat)
      by (apply nth_error_Some; congruence).
    destruct (assembled_command j Hj)
      as (a' & op & body & Ha' & Hc & Hwf & Hc').
    rewrite Ha in Ha'. injection Ha' as <-.
    assert (Hderef : deref hp' a
                     = VDict [(op, VDict (Spec.renumber_body j (U j) body))]).
    { subst cmds'. rewrite nth_error_map, Ha in Hc'. cbn in Hc'.
      now injection Hc'. }
    rewrite Hderef, (assembled_step j op body Hc Hc' Hwf).
    rewrite <- Hderef, store_same.
    + apply IH.
      replace (S j) with (1 + j)%nat by lia.
      now rewrite <- skipn_skipn, Hskip.
    + apply deref_valid. rewrite Hderef. discriminate.
Qed.

End AssembledTwice.



(* ===================================================================== *)
(** ** A list-shaped command in a batch                                   *)
(* ===================================================================== *)

Lemma update_refs_loop_break (pre : list addr) (a : addr) (rest : list addr)
    (l : list value) :
  forall i hp u,
    deref hp a = VList l ->
    update_refs_loop i (pre ++ a :: rest) (hp, u)
    = update_refs_loop i pre (hp, u).
Proof.
  induction pre as [|x pre IH]; intros i hp u Ha;
    cbn [app update_refs_loop].
  - now rewrite Ha.
  - destruct (deref hp x) as [| | | |lx|[|[op values] others]] eqn:Hx;
      try reflexivity.
    destruct (update_values i (values, u)) as [[values' u'] [t|e]];
      [|reflexivity].
    apply IH. rewrite deref_store_other; [exact Ha|].
    intros ->. congruence.
Qed.

(** X22. A list-shaped command ends the renumbering.  [update_refs]
    leaves its loop at the first command that is a list: for a batch with
    such a command, the objects and the outcome are those of the
    commands before it alone.  The commands behind it keep the refs and
    pointers the generator gave them, whatever they are, and all the
    commands are returned when those before it raise nothing. *)
Theorem list_command_ends_renumbering
    (pre : list addr) (a : addr) (rest : list addr) (l : list value)
    (hp : heap) :
  deref hp a = VList l ->
  update_refs (pre ++ a :: rest) hp
  = match update_refs pre hp with
    | (hp', Ok _) => (hp', Ok (pre ++ a :: rest))
    | (hp', Raise e) => (hp', Raise e)
    end.
Proof.
  intros Ha. unfold update_refs.
  rewrite (update_refs_loop_break pre a rest l 0 hp [] Ha).
  now destruct (update_refs_loop 0 pre _) as [[hp' u'] [t|e]].
Qed.

Definition behind_a_list : heap :=
  [ VDict [("AddImage", VDict [("_ref", VInt 5)])];
    VList [];
    VDict [("AddEntity", VDict [("_ref", VInt 5)])] ].

Lemma list_command_ends_renumbering_witness :
  deref behind_a_list 1%nat = VList []
  /\ update_refs ([0%nat] ++ 1%nat :: [2%nat]) behind_a_list
     = match update_refs [0%nat] behind_a_list with
       | (hp', Ok _) => (hp', Ok ([0%nat] ++ 1%nat :: [2%nat]))
       | (hp', Raise e) => (hp', Raise e)
       end.
Proof.
  assert (H : deref behind_a_list 1%nat = VList []) by reflexivity.
  split; [exact H|].
  exact (list_command_ends_renumbering [0%nat] 1%nat [2%nat] []
           behind_a_list H).
Defined.

(* ===================================================================== *)
(** ** The error percentage of [print_stats]                              *)
(* ===================================================================== *)

Module Example_percentage.

(** Three records of one command: the first stands alone, the other two
    point to a ref no command of their batch defines. *)
Definition hp : heap :=
  [ VDict [("AddImage", VDict [("_ref", VInt 1)])];
    VDict [("AddBoundingBox", VDict [("image_ref", VInt 5)])] ].

Definition gen : generator :=
  {| gen_records := [ ([0%nat], []); ([1%nat], []); ([1%nat], []) ];
     gen_response_handler := None;
     gen_strict_response_validation := None |}.

Definition cfg : pq_config :=
  {| dry_run := false;
     commands_per_query := 1;
     blobs_per_query := 0;
     batchsize := 1;
     success_statuses := [0; 2] |}.

End Example_percentage.

(** X23. The error percentage is taken over the recorded batches only.
    [print_stats] divides the errors by the number of recorded times,
    while [worker] also counts an error for each batch that raised and
    recorded no time.  For a worker on a fresh state of which some, but
    not all, batches were recorded, the percentage printed is at least
    [100 * (n - done) / done] for [n] batches and [done] recorded ones: it
    is above 100 as soon as fewer than half of the batches were
    recorded. *)
Theorem error_percentage_over_recorded
    (cfg : pq_config) (gen : generator)
    (db : nat -> list value -> list blob -> reply) (start end_ : Z)
    (hp : heap) :
  batchsize cfg <> 0 ->
  catchable gen ->
  let st := fst (worker cfg gen db start end_ (Parallelizer.fresh hp)) in
  let n := Z.of_nat (Z.to_nat (total_batches (batchsize cfg) start end_)) in
  let done := total_queries_exec st in
  0 < done < n ->
  exists p,
    err_perc st = Some p
    /\ (Qmake (100 * (n - done)) (Z.to_pos done) <= p)%Q
    /\ (2 * done < n -> (inject_Z 100 < p)%Q).
Proof.
  intros Hbs Hgen st n done Hdone. subst st n done. revert Hdone.
  unfold worker.
  destruct (Z.eqb_spec (batchsize cfg) 0) as [?|_]; [contradiction|].
  destruct (worker_loop_outcome cfg gen db start end_
              (seq 0 (Z.to_nat (total_batches (batchsize cfg) start end_)))
              Hgen (Parallelizer.fresh hp))
    as [_ (ts & wss & Ht & _ & _ & _ & Herr)].
  rewrite length_seq in Herr.
  set (st := fst (worker_loop _ _ _ _ _ _ _)) in *.
  set (n := Z.of_nat (Z.to_nat _)) in *.
  cbn [Parallelizer.fresh st_times_arr st_error_counter app] in Ht, Herr.
  unfold err_perc, total_queries_exec. rewrite Ht.
  set (done := Z.of_nat (length ts)) in *.
  intros Hdone.
  destruct (Z.eqb_spec done 0) as [?|_]; [lia|].
  destruct (Z.gtb_spec (st_error_counter st) 0) as [_|?]; [|lia].
  eexists. split; [reflexivity|].
  unfold Qle, Qlt, inject_Z. cbn [Qnum Qden].
  rewrite Z2Pos.id by lia. split; [|intros Hhalf]; nia.
Qed.

Lemma error_percentage_over_recorded_witness :
  let cfg := Example_percentage.cfg in
  let gen := Example_percentage.gen in
  let db := Example_run.dbs 0 3 0%nat in
  let st := fst (worker cfg gen db 0 3
                   (Parallelizer.fresh Example_percentage.hp)) in
  let n := Z.of_nat (Z.to_nat (total_batches (batchsize cfg) 0 3)) in
  let done := total_queries_exec st in
  (batchsize cfg <> 0 /\ catchable gen /\ 0 < done < n /\ 2 * done < n)
  /\ exists p,
      err_perc st = Some p
      /\ (Qmake (100 * (n - done)) (Z.to_pos done) <= p)%Q
      /\ (2 * done < n -> (inject_Z 100 < p)%Q).
Proof.
  cbv zeta.
  assert (Hgen : catchable Example_percentage.gen)
    by (intros n f; discriminate).
  assert (Hbs : batchsize Example_percentage.cfg <> 0) by discriminate.
  assert (Hdone :
    0 < total_queries_exec
          (fst (worker Example_percentage.cfg Example_percentage.gen
                  (Example_run.dbs 0 3 0%nat) 0 3
                  (Parallelizer.fresh Example_percentage.hp)))
      < Z.of_nat (Z.to_nat
          (total_batches (batchsize Example_percentage.cfg) 0 3)))
    by (vm_compute; split; reflexivity).
  split.
  - repeat split; try assumption; apply Hdone.
  - exact (error_percentage_over_recorded Example_percentage.cfg
             Example_percentage.gen (Example_run.dbs 0 3 0%nat) 0 3
             Example_percentage.hp Hbs Hgen Hdone).
Defined.
